(** * Storm-loss simulations: aggregation, buffered output and retrying inserts

    A shallow embedding of the simulation core of the repository
    ([functions/generate_losses.py], [functions/simulation_output.py],
    [gcp/bigquery.py], [db/v2/geo_types.py], [storm/storm.py], [main.py])
    together with the properties stated about it.

    Conventions of the embedding:
    - Python [int] is [Z]; dollar amounts (limits, premiums, payouts) are
      integers, as the literals of the source are.
    - A Python [dict] whose iteration order is observable (the nested
      geography dictionaries, the row buffer of the stream, a CSV row) is an
      insertion-ordered association list ([Py.dict]); a [dict] that is only
      looked up or updated by key (the premium table, the open CSV writers,
      the file system) is a [gmap].
    - Code that mutates state and may raise runs in the monad [Py.M]:
      a state transformer returning either a value or the exception raised,
      the state being the one reached when the exception left the code.
    - A call whose number is claimed (of [flush], of the insert primitive)
      is counted in the state it acts on, as a mock of it would.
    - What the source takes from outside (the random generator, the
      database cursor, the geometry library, floating point division) is a
      parameter of the definitions that use it. *)

From stdpp Require Import base option list strings gmap fin_maps.
From Stdlib Require Import ZArith Lia Ascii.
From Stdlib Require String.

Set Default Proof Using "Type".
Local Open Scope string_scope.
Local Open Scope list_scope.

(** ** Python values, exceptions and the state-and-exception monad *)

Module Py.

(** The exceptions that the embedded code can raise. *)
Inductive exn : Type :=
| KeyError (key : string)
| UnboundLocalError (name : string)
| TypeError (msg : string)
| ValueError (msg : string)
| GenericException (msg : string)
| InitializationError (msg : string)
| AttributeError (msg : string)
| RetryError
| InsertErrors (errors : list string).

Inductive result (A : Type) : Type :=
| Ok (a : A)
| Raise (e : exn).
Global Arguments Ok {A} a.
Global Arguments Raise {A} e.

Definition is_ok {A} (r : result A) : bool :=
  match r with Ok _ => true | Raise _ => false end.

(** A statement sequence over a state [S]. *)
Definition M (S A : Type) : Type := S -> result A * S.

Definition ret {S A} (a : A) : M S A := fun s => (Ok a, s).

Definition bind {S A B} (m : M S A) (k : A -> M S B) : M S B :=
  fun s =>
    match m s with
    | (Ok a, s') => k a s'
    | (Raise e, s') => (Raise e, s')
    end.

Definition raise {S A} (e : exn) : M S A := fun s => (Raise e, s).
Definition get {S} : M S S := fun s => (Ok s, s).
Definition put {S} (s : S) : M S unit := fun _ => (Ok tt, s).
Definition modify {S} (f : S -> S) : M S unit := fun s => (Ok tt, f s).

(** Run a statement on a component of the state. *)
Definition zoom {S T A} (proj : S -> T) (upd : T -> S -> S) (m : M T A) : M S A :=
  fun s => let (r, t') := m (proj s) in (r, upd t' s).

(** A [for] loop without [break]. *)
Fixpoint for_each {S A} (body : A -> M S unit) (l : list A) : M S unit :=
  match l with
  | [] => ret tt
  | x :: rest => bind (body x) (fun _ => for_each body rest)
  end.

(** Insertion-ordered dictionaries with string keys. *)
Definition dict (V : Type) : Type := list (string * V).

Fixpoint dict_get {V} (d : dict V) (k : string) : option V :=
  match d with
  | [] => None
  | (k', v) :: rest => if String.eqb k' k then Some v else dict_get rest k
  end.

(** [d[k] = v]: an existing key keeps its position, a new key goes last. *)
Fixpoint dict_set {V} (d : dict V) (k : string) (v : V) : dict V :=
  match d with
  | [] => [(k, v)]
  | (k', v') :: rest =>
      if String.eqb k' k then (k', v) :: rest else (k', v') :: dict_set rest k v
  end.

Definition dict_keys {V} (d : dict V) : list string := map fst d.

(** [d[k]] as an expression: raises [KeyError] for a missing key. *)
Definition subscript {S V} (d : dict V) (k : string) : M S V :=
  match dict_get d k with
  | Some v => ret v
  | None => raise (KeyError k)
  end.

(** Truthiness of the values that the source tests with [if x:]. *)
Definition truthy_int (z : Z) : bool := negb (Z.eqb z 0).
Definition truthy_list {A} (l : list A) : bool :=
  match l with [] => false | _ => true end.
Definition truthy_str (s : string) : bool :=
  match s with EmptyString => false | _ => true end.

(** An argument that is either one item or a list of items, such as
    [rows: Union[Iterable[dict], dict]]. *)
Inductive one_or_many (A : Type) : Type :=
| One (x : A)
| Many (xs : list A).
Global Arguments One {A} x.
Global Arguments Many {A} xs.

(** Dynamically typed arguments of the calls whose binding matters. *)
Inductive value : Type :=
| VNone
| VBool (b : bool)
| VInt (z : Z)
| VStr (s : string).

Definition truthy (v : value) : bool :=
  match v with
  | VNone => false
  | VBool b => b
  | VInt z => truthy_int z
  | VStr s => truthy_str s
  end.

(** The value of an argument annotated [str]; code that goes on to call
    string methods on anything else raises [AttributeError]. *)
Definition expect_str (v : value) : result string :=
  match v with
  | VStr s => Ok s
  | _ => Raise (AttributeError "object is not a str")
  end.

(** A parameter of a [def]: its name and its default, if it has one. *)
Record param : Type := { param_name : string; param_default : option value }.

Definition positional (name : string) : param :=
  {| param_name := name; param_default := None |}.
Definition defaulted (name : string) (v : value) : param :=
  {| param_name := name; param_default := Some v |}.

(** Argument binding of a call [f(args, kwargs)] to a function with
    plain parameters, in the order of the interpreter: positional
    arguments, keyword arguments, the count of positional arguments, the
    parameters left without a value. *)
Fixpoint bind_positional (params : list param) (args : list value) : dict value :=
  match params, args with
  | p :: params, a :: args => (param_name p, a) :: bind_positional params args
  | _, _ => []
  end.

Fixpoint bind_keywords (fname : string) (params : list param) (bound : dict value)
    (kwargs : list (string * value)) : result (dict value) :=
  match kwargs with
  | [] => Ok bound
  | (k, v) :: kwargs =>
      if negb (existsb (String.eqb k) (map param_name params)) then
        Raise (TypeError (fname +:+ "() got an unexpected keyword argument"))
      else
        match dict_get bound k with
        | Some _ => Raise (TypeError (fname +:+ "() got multiple values for argument"))
        | None => bind_keywords fname params (dict_set bound k v) kwargs
        end
  end.

Fixpoint fill_defaults (fname : string) (params : list param) (bound : dict value)
    : result (dict value) :=
  match params with
  | [] => Ok []
  | p :: params =>
      let arg :=
        match dict_get bound (param_name p) with
        | Some v => Some v
        | None => param_default p
        end in
      match arg with
      | None =>
          Raise (TypeError (fname +:+ "() missing 1 required positional argument: '"
                            +:+ param_name p +:+ "'"))
      | Some v =>
          match fill_defaults fname params bound with
          | Ok locals => Ok ((param_name p, v) :: locals)
          | Raise e => Raise e
          end
      end
  end.

Definition call {A} (fname : string) (params : list param)
    (body : dict value -> result A)
    (args : list value) (kwargs : list (string * value)) : result A :=
  match bind_keywords fname params (bind_positional params args) kwargs with
  | Raise e => Raise e
  | Ok bound =>
      if (length params <? length args)%nat then
        Raise (TypeError (fname +:+ "() takes fewer positional arguments"))
      else
        match fill_defaults fname params bound with
        | Raise e => Raise e
        | Ok locals => body locals
        end
  end.

(** A local of the callee after binding. *)
Definition local (locals : dict value) (name : string) : value :=
  match dict_get locals name with
  | Some v => v
  | None => VNone
  end.

End Py.

Notation "'do' x <- c1 ; c2" := (Py.bind c1 (fun x => c2))
  (at level 10, x name, c1 at level 100, c2 at level 200).
Notation "'do_' c1 ; c2" := (Py.bind c1 (fun _ => c2))
  (at level 10, c1 at level 100, c2 at level 200).

(** ** db/v2/geo_types.py *)

Module geo_types.

Definition GEO_TYPE_UNKNOWN : Z := -1.
Definition GEO_TYPE_STATE_VALUE : Z := 1.
Definition GEO_TYPE_COUNTY_VALUE : Z := 2.
Definition GEO_TYPE_ZIP_VALUE : Z := 3.
Definition GEO_TYPE_TOTAL_VALUE : Z := 4.

Definition GEO_TYPE_TOTAL_STR := "total".
Definition GEO_TYPE_STATE_STR := "state".
Definition GEO_TYPE_COUNTY_STR := "county".
Definition GEO_TYPE_ZIP_STR := "zip".
Definition GEO_TYPE_UNKNOWN_STR := "_unknown_geo_type_".

Definition GEO_TYPE_MAPPINGS : Py.dict Z :=
  [ (GEO_TYPE_TOTAL_STR, GEO_TYPE_TOTAL_VALUE);
    (GEO_TYPE_STATE_STR, GEO_TYPE_STATE_VALUE);
    (GEO_TYPE_COUNTY_STR, GEO_TYPE_COUNTY_VALUE);
    (GEO_TYPE_ZIP_STR, GEO_TYPE_ZIP_VALUE);
    (GEO_TYPE_UNKNOWN_STR, GEO_TYPE_UNKNOWN) ].

(** [str.strip()] and [str.lower()]. A string is a sequence of code
    points below 256, the characters of the type [ascii]; a string with
    another character has no counterpart here. Among these code points the
    white space of [str.strip()] is U+0009 to U+000D, U+001C to U+0020,
    U+0085 and U+00A0. *)
Definition is_py_space (c : ascii) : bool :=
  let n := nat_of_ascii c in
  ((9 <=? n)%nat && (n <=? 13)%nat) || ((28 <=? n)%nat && (n <=? 32)%nat)
  || (n =? 133)%nat || (n =? 160)%nat.

Fixpoint lstrip (s : string) : string :=
  match s with
  | String c rest => if is_py_space c then lstrip rest else s
  | EmptyString => EmptyString
  end.

Fixpoint rstrip (s : string) : string :=
  match s with
  | EmptyString => EmptyString
  | String c rest =>
      match rstrip rest with
      | EmptyString => if is_py_space c then EmptyString else String c EmptyString
      | rest' => String c rest'
      end
  end.

Definition strip (s : string) : string := rstrip (lstrip s).

(** The code points below 256 that [str.lower()] changes are A to Z and
    U+00C0 to U+00DE without the multiplication sign U+00D7; the lower
    case of each is 32 further. *)
Definition lower_ascii (c : ascii) : ascii :=
  let n := nat_of_ascii c in
  if ((65 <=? n)%nat && (n <=? 90)%nat)
     || ((192 <=? n)%nat && (n <=? 222)%nat && negb (n =? 215)%nat)
  then ascii_of_nat (n + 32) else c.

Fixpoint lower (s : string) : string :=
  match s with
  | EmptyString => EmptyString
  | String c rest => String (lower_ascii c) (lower rest)
  end.

Definition str_to_int (geo_type : string) : Z :=
  match Py.dict_get GEO_TYPE_MAPPINGS (lower (strip geo_type)) with
  | Some v => v
  | None => GEO_TYPE_UNKNOWN
  end.

(** [for geo_type_str, mapped_value in GEO_TYPE_MAPPINGS.items(): ...] *)
Fixpoint int_to_str_loop (mappings : list (string * Z)) (geo_type_value : Z) : string :=
  match mappings with
  | [] => GEO_TYPE_UNKNOWN_STR
  | (geo_type_str, mapped_value) :: rest =>
      if (geo_type_value =? mapped_value)%Z then geo_type_str
      else int_to_str_loop rest geo_type_value
  end.

Definition int_to_str (geo_type_value : Z) : string :=
  int_to_str_loop GEO_TYPE_MAPPINGS geo_type_value.

End geo_types.

(** ** gcp/bigquery.py *)

Module bigquery.

Definition INSERT_ROW_RETRY_MAX_RETRIES : nat := 5.

(** [tenacity.retry(retry=retry_if_result(lambda e: e),
                    retry_error_callback=lambda state: state.outcome.result(),
                    stop=stop_after_attempt(n))] around [f], with
    [remaining = n - 1] further attempts allowed after the next one. A
    falsy result is returned at once; a truthy one is retried, and when the
    attempts are used up the callback returns the last result. An
    exception of [f] is not a result: it is not retried. The sleep between
    attempts is not modelled. *)
Fixpoint retry_if_result {St A} (is_truthy : A -> bool) (remaining : nat)
    (f : Py.M St A) : Py.M St A :=
  do outcome <- f;
  if is_truthy outcome then
    match remaining with
    | 0 => Py.ret outcome
    | S remaining => retry_if_result is_truthy remaining f
    end
  else Py.ret outcome.

Section Rows.

Context {Row : Type}.

(** [Union[bigquery.Table, bigquery.TableReference, str]] *)
Inductive table : Type :=
| Table (table_id : string)
| TableReference (table_id : string)
| TableId (table_id : string).

(** The Google client is outside the repository. Its state is the history
    of the calls made on it; [insert_rows_response n] is the sequence of
    errors that the service answers to the call number [n] (from 0) of
    [client.insert_rows]. The calls of this client return: an answer
    with errors is a result. A client whose calls may raise is treated in
    [AnyClient] below. *)
Record Client : Type := {
  insert_rows_response : nat -> list string;
  insert_rows_calls : list (list Row);
  get_table_calls : nat
}.

Definition client_get_table (t : table) : Py.M Client table :=
  fun client =>
    (Py.Ok (match t with
            | Table id | TableReference id | TableId id => Table id
            end),
     {| insert_rows_response := insert_rows_response client;
        insert_rows_calls := insert_rows_calls client;
        get_table_calls := S (get_table_calls client) |}).

Definition client_insert_rows (t : table) (rows : list Row) : Py.M Client (list string) :=
  fun client =>
    (Py.Ok (insert_rows_response client (length (insert_rows_calls client))),
     {| insert_rows_response := insert_rows_response client;
        insert_rows_calls := insert_rows_calls client ++ [rows];
        get_table_calls := get_table_calls client |}).

(** The body of [Bigquery.insert_rows], one attempt. *)
Definition insert_rows_attempt (t : table) (rows : list Row) : Py.M Client (list string) :=
  do t <- match t with
          | TableReference _ | TableId _ => client_get_table t
          | Table _ => Py.ret t
          end;
  do errors <- client_insert_rows t rows;
  Py.ret errors.

(** [Bigquery.insert_rows] as decorated. *)
Definition insert_rows (t : table) (rows : list Row) : Py.M Client (list string) :=
  retry_if_result Py.truthy_list (INSERT_ROW_RETRY_MAX_RETRIES - 1)
    (insert_rows_attempt t rows).

(** *** BigqueryInsertStream *)

Definition DEFAULT_STREAMING_INSERT_BATCH_SIZE : Z := 10000.

(** [batch] is the class attribute [None] until [__enter__] runs. *)
Record BigqueryInsertStream : Type := {
  client : Client;
  stream_table : table;
  batch_size : Z;
  batch : option (list Row);
  total : Z
}.

Definition set_client (c : Client) (self : BigqueryInsertStream) : BigqueryInsertStream :=
  {| client := c; stream_table := stream_table self; batch_size := batch_size self;
     batch := batch self; total := total self |}.

Definition __init__ (c : Client) (t : table) (batch_size : Z)
    : Py.result BigqueryInsertStream :=
  if (batch_size <=? 0)%Z then
    Py.Raise (Py.GenericException "Invalid batch size, must be greater than zero.")
  else
    Py.Ok {| client := c; stream_table := t; batch_size := batch_size;
             batch := None; total := 0 |}.

Definition __enter__ (self : BigqueryInsertStream) : BigqueryInsertStream :=
  {| client := client self; stream_table := stream_table self;
     batch_size := batch_size self; batch := Some []; total := 0 |}.

Definition flush : Py.M BigqueryInsertStream unit :=
  do self <- Py.get;
  match batch self with
  | Some (row :: rows) =>
      do errors <- Py.zoom client set_client
                     (insert_rows (stream_table self) (row :: rows));
      if Py.truthy_list errors then Py.raise (Py.InsertErrors errors)
      else
        Py.modify (fun self =>
          {| client := client self; stream_table := stream_table self;
             batch_size := batch_size self;
             batch := Some [];
             total := total self + Z.of_nat (length (row :: rows)) |})
  | _ => Py.ret tt
  end.

(** [flush] returns [None], so the test of [__exit__] on its result never
    raises: what leaves [__exit__] is what leaves [flush]. *)
Definition __exit__ : Py.M BigqueryInsertStream unit := flush.

Definition insert (rows : Py.one_or_many Row) : Py.M BigqueryInsertStream unit :=
  do self <- Py.get;
  match batch self with
  | None => Py.raise (Py.AttributeError "'NoneType' object has no attribute 'extend'")
  | Some b =>
      let b := match rows with
               | Py.Many rows => b ++ rows
               | Py.One row => b ++ [row]
               end in
      do_ Py.put {| client := client self; stream_table := stream_table self;
                    batch_size := batch_size self; batch := Some b;
                    total := total self |};
      if (batch_size self <=? Z.of_nat (length b))%Z then flush else Py.ret tt
  end.

(** [with stream: body], for a stream built by [__init__]: [__enter__],
    the body, then [__exit__] whether the body returned or raised. An
    exception of [__exit__] replaces the outcome of the body; [__exit__]
    returning [None], an exception of the body leaves the block
    otherwise. *)
Definition with_insert_stream {A} (body : Py.M BigqueryInsertStream A)
    : Py.M BigqueryInsertStream A :=
  fun self =>
    let (r, self) := body (__enter__ self) in
    match __exit__ self with
    | (Py.Ok _, self) => (r, self)
    | (Py.Raise e, self) => (Py.Raise e, self)
    end.

(** *** Bigquery.insert_rows on a client whose calls may raise

    The client is an argument of [Bigquery.insert_rows], which calls its
    methods [get_table] and [insert_rows]. Above, the client is the record
    of the calls made on it and both methods return. Here [C] is the state
    of any client and the two methods are any computations on it: an
    exception of either leaves the attempt, and the decorator, which
    retries on results only. *)
Section AnyClient.

Context {C : Type}.
Context (Client_get_table : table -> Py.M C table).
Context (Client_insert_rows : table -> list Row -> Py.M C (list string)).

(** The body of [Bigquery.insert_rows], one attempt. *)
Definition Bigquery_insert_rows_attempt (t : table) (rows : list Row)
    : Py.M C (list string) :=
  do t <- match t with
          | TableReference _ | TableId _ => Client_get_table t
          | Table _ => Py.ret t
          end;
  do errors <- Client_insert_rows t rows;
  Py.ret errors.

(** [Bigquery.insert_rows] as decorated. *)
Definition Bigquery_insert_rows (t : table) (rows : list Row) : Py.M C (list string) :=
  retry_if_result Py.truthy_list (INSERT_ROW_RETRY_MAX_RETRIES - 1)
    (Bigquery_insert_rows_attempt t rows).

End AnyClient.

End Rows.

Global Arguments Client : clear implicits.
Global Arguments BigqueryInsertStream : clear implicits.

End bigquery.

(** ** gcp/tools/write_table.py *)

Module write_table.

Section Rows.

Context {Row : Type}.

(** [stream_local_file_to_table]: [rows] are the rows that
    [csv.DictReader] reads from the file. The state is the client, which
    the stream holds a reference to. *)
Definition stream_local_file_to_table (table_ref : bigquery.table) (rows : list Row)
    : Py.M (bigquery.Client Row) unit :=
  fun client =>
    match bigquery.__init__ client table_ref
            bigquery.DEFAULT_STREAMING_INSERT_BATCH_SIZE with
    | Py.Raise e => (Py.Raise e, client)
    | Py.Ok bq_stream =>
        let (r, bq_stream) :=
          bigquery.with_insert_stream
            (Py.for_each (fun row => bigquery.insert (Py.One row)) rows) bq_stream in
        (r, bigquery.client bq_stream)
    end.

End Rows.

End write_table.

(** ** functions/simulation_logging.py *)

Module simulation_logging.

(** The root logger of a process, as far as [get_logger] reads and writes
    it: its handlers, oldest first, and its level. A queue is known by its
    name. *)
Inductive handler : Type :=
| QueueHandler (logging_queue : string)
| OtherHandler (name : string).

Record root_logger : Type := { handlers : list handler; level : Z }.

(** [_SimulationAdapter(logger, {'sim_id': sim_id})] *)
Record _SimulationAdapter : Type := { extra_sim_id : Z }.

Section GetLogger.

(** [logging._checkLevel]: the number of a level given as an int or as a
    name, or the exception for anything else. *)
Context (_checkLevel : Py.value -> Py.result Z).

(** A queue object is truthy; [logging_queue] is [None] without one. The
    lock is released on every path and leaves no trace here. *)
Definition get_logger (sim_id : Z) (logging_queue : option string) (log_level : Py.value)
    : Py.M root_logger _SimulationAdapter :=
  do_ match logging_queue with
      | Some logging_queue =>
          do logger <- Py.get;
          if negb (Py.truthy_list (handlers logger)) then
            do_ Py.modify (fun logger =>
                  {| handlers := handlers logger ++ [QueueHandler logging_queue];
                     level := level logger |});
            if Py.truthy log_level then
              match _checkLevel log_level with
              | Py.Ok l =>
                  Py.modify (fun logger => {| handlers := handlers logger; level := l |})
              | Py.Raise e => Py.raise e
              end
            else Py.ret tt
          else Py.ret tt
      | None => Py.ret tt
      end;
  Py.ret {| extra_sim_id := sim_id |}.

End GetLogger.

Section LoggerThread.

(** Log records belong to [logging]. *)
Context {LogRecord : Type}.

(** [LoggerThread.run]: what the queue holds is a record or the
    [STOP_SIGNAL], [None]. The state is the list of the records handled,
    oldest first; the result is what is left on the queue, or [None] when
    [get] finds the queue empty and blocks. *)
Fixpoint run (logging_queue : list (option LogRecord))
    : Py.M (list LogRecord) (option (list (option LogRecord))) :=
  match logging_queue with
  | [] => Py.ret None
  | None :: rest => Py.ret (Some rest)
  | Some record :: rest =>
      do_ Py.modify (fun handled => handled ++ [record]);
      run rest
  end.

(** [LoggerThread.stop] *)
Definition stop (logging_queue : list (option LogRecord)) : list (option LogRecord) :=
  logging_queue ++ [None].

End LoggerThread.

End simulation_logging.

(** ** functions/simulation_output.py *)

Module simulation_output.

Definition OUTPUT_EXPOSURES := "exposures".
Definition OUTPUT_PREMIUMS := "premiums".
Definition OUTPUT_LOSSES := "losses".
Definition OUTPUT_NLR := "nlr".
Definition ALL_OUTPUTS : list string :=
  [OUTPUT_EXPOSURES; OUTPUT_PREMIUMS; OUTPUT_LOSSES; OUTPUT_NLR].
Definition INVALID_OUTPUT_COLUMN_CHARACTERS : list ascii :=
  [" "%char; "."%char; "-"%char].
Definition DEFAULT_COLUMN_REPLACEMENT_CHAR := "_".

(** [s.replace(c, by)] for a one-character pattern. *)
Fixpoint replace_char (c : ascii) (by_ : string) (s : string) : string :=
  match s with
  | EmptyString => EmptyString
  | String c' rest =>
      if Ascii.eqb c' c then by_ +:+ replace_char c by_ rest
      else String c' (replace_char c by_ rest)
  end.

Definition format_column_name_for_output
    (column_name : string) (prefix : option string) (replace_invalid_with : string)
    : string :=
  let column_name :=
    fold_left (fun name invalid_char => replace_char invalid_char replace_invalid_with name)
              INVALID_OUTPUT_COLUMN_CHARACTERS column_name in
  match prefix with
  | Some p => if Py.truthy_str p then p +:+ "_" +:+ column_name else column_name
  | None => column_name
  end.

Section Rows.

(** The row type is whatever the caller emits: the fanout and the stream
    never look inside a row. *)
Context {Row : Type}.

(** The [rows] argument: [Union[Iterable[dict], dict]]. *)
Definition rows_arg : Type := Py.one_or_many Row.

(** [if isinstance(rows, dict): rows = [rows]] *)
Definition as_list (rows : rows_arg) : list Row :=
  match rows with
  | Py.One row => [row]
  | Py.Many rows => rows
  end.

(** An [OutputFanout] is represented by the messages it was sent, oldest
    first. [MultiprocessingOutput.send] puts exactly this tuple on its
    queue; [SerialOutput.send] hands it to every writer in turn. The
    [send] of this fanout returns: it is that of the fanouts which the
    drivers can build, [MultiprocessingOutput] and [SerialOutput] without
    writers, the setup of a writer raising in every case. A fanout whose
    [send] may raise, as [SerialOutput] with writers, is treated in
    [AnyFanout] below. *)
Definition OutputFanout : Type := list (string * rows_arg).

Definition send (output_name : string) (rows : rows_arg) (outputs : OutputFanout)
    : OutputFanout :=
  outputs ++ [(output_name, rows)].

(** The fields of a [BufferedOutputStream] other than [self.outputs], which
    is a reference to the fanout shared with the caller. [flush_calls] is
    not a field of the source: it counts the calls of [flush], as a mock of
    the method would. *)
Record BufferedOutputStream : Type := {
  per_output_max_rows : Z;
  total_buffer_max_rows : Z;
  total_in_buffer : Z;
  buffer : Py.dict (list Row);
  flush_calls : nat
}.

Definition DEFAULT_PER_OUTPUT_MAX_ROWS : Z := 500.
Definition DEFAULT_TOTAL_BUFFER_MAX_ROWS : Z := 5000.

Definition _init_buffer (self : BufferedOutputStream) : BufferedOutputStream :=
  {| per_output_max_rows := per_output_max_rows self;
     total_buffer_max_rows := total_buffer_max_rows self;
     total_in_buffer := 0;
     buffer := [];
     flush_calls := flush_calls self |}.

Definition __init__ (per_output_max_rows total_buffer_max_rows : Z)
    : BufferedOutputStream :=
  _init_buffer
    {| per_output_max_rows := per_output_max_rows;
       total_buffer_max_rows := total_buffer_max_rows;
       total_in_buffer := 0;
       buffer := [];
       flush_calls := 0 |}.

(** The loop of [flush]: one [send] for each buffered kind whose list is
    not empty, in the order of the buffer's keys. No [send] of this fanout
    raises, so the loop is not left early; [BufferedOutputStream_flush]
    below is the method on a fanout whose [send] may raise. *)
Fixpoint flush_items (items : list (string * list Row)) (outputs : OutputFanout)
    : OutputFanout :=
  match items with
  | [] => outputs
  | (output_name, rows) :: rest =>
      flush_items rest
        (if Py.truthy_list rows then send output_name (Py.Many rows) outputs
         else outputs)
  end.

Definition flush (w : BufferedOutputStream * OutputFanout)
    : BufferedOutputStream * OutputFanout :=
  let (self, outputs) := w in
  let outputs := flush_items (buffer self) outputs in
  (_init_buffer
     {| per_output_max_rows := per_output_max_rows self;
        total_buffer_max_rows := total_buffer_max_rows self;
        total_in_buffer := total_in_buffer self;
        buffer := buffer self;
        flush_calls := S (flush_calls self) |},
   outputs).

(** [self.buffer[output_name]] on a [defaultdict(list)]. *)
Definition buffer_get (b : Py.dict (list Row)) (output_name : string) : list Row :=
  match Py.dict_get b output_name with
  | Some rows => rows
  | None => []
  end.

(** The two statements of [add] before the threshold test. *)
Definition extend (output_name : string) (rows : list Row) (self : BufferedOutputStream)
    : BufferedOutputStream :=
  {| per_output_max_rows := per_output_max_rows self;
     total_buffer_max_rows := total_buffer_max_rows self;
     total_in_buffer := total_in_buffer self + Z.of_nat (length rows);
     buffer := Py.dict_set (buffer self) output_name
                 (buffer_get (buffer self) output_name ++ rows);
     flush_calls := flush_calls self |}.

Definition threshold_reached (output_name : string) (self : BufferedOutputStream) : bool :=
  (per_output_max_rows self <=? Z.of_nat (length (buffer_get (buffer self) output_name)))%Z
  || (total_buffer_max_rows self <=? total_in_buffer self)%Z.

Definition add (output_name : string) (rows : rows_arg)
    (w : BufferedOutputStream * OutputFanout) : BufferedOutputStream * OutputFanout :=
  let (self, outputs) := w in
  let rows := as_list rows in
  let self := extend output_name rows self in
  if threshold_reached output_name self then flush (self, outputs)
  else (self, outputs).

Definition __enter__ (w : BufferedOutputStream * OutputFanout)
    : BufferedOutputStream * OutputFanout :=
  (_init_buffer (fst w), snd w).

Definition __exit__ (w : BufferedOutputStream * OutputFanout)
    : BufferedOutputStream * OutputFanout :=
  flush w.

(** [with BufferedOutputStream(outputs) as output_stream: body]. The state
    [S] of the enclosing code holds the fanout; the stream object lives for
    the block and reaches the fanout through the reference it was given.
    [output_stream.add(...)] inside the body is [stream_add].
    [__exit__] returns [None], so an exception of the body leaves the
    block after the flush. *)
Definition stream_add {S} (get_outputs : S -> OutputFanout)
    (set_outputs : OutputFanout -> S -> S)
    (output_name : string) (rows : rows_arg)
    : Py.M (BufferedOutputStream * S) unit :=
  fun '(output_stream, s) =>
    let (output_stream, outputs) := add output_name rows (output_stream, get_outputs s) in
    (Py.Ok tt, (output_stream, set_outputs outputs s)).

Definition with_stream {S A} (get_outputs : S -> OutputFanout)
    (set_outputs : OutputFanout -> S -> S)
    (per_output_max_rows total_buffer_max_rows : Z)
    (body : Py.M (BufferedOutputStream * S) A) : Py.M S A :=
  fun s =>
    let entered :=
      fst (__enter__ (__init__ per_output_max_rows total_buffer_max_rows, get_outputs s)) in
    let '(r, (output_stream, s)) := body (entered, s) in
    let (_, outputs) := __exit__ (output_stream, get_outputs s) in
    (r, set_outputs outputs s).

(** *** BufferedOutputStream on a fanout whose [send] may raise

    [send] belongs to the fanout: [SerialOutput.send] runs [write_rows] of
    every writer and raises what a writer raises. Above, the fanout is the
    list of the messages it was sent, and its [send] returns: this is the
    fanout of the drivers, which cannot set up a writer. Here [F] is the
    state of any fanout and [outputs_send] its [send]; the definitions
    above are these on the list of messages (see
    [BufferedOutputStream_add_on_messages] below). *)
Section AnyFanout.

Context {F : Type} (outputs_send : string -> rows_arg -> Py.M F unit).

Definition on_stream {A} (m : Py.M BufferedOutputStream A)
    : Py.M (BufferedOutputStream * F) A :=
  Py.zoom fst (fun self w => (self, snd w)) m.

Definition on_outputs {A} (m : Py.M F A) : Py.M (BufferedOutputStream * F) A :=
  Py.zoom snd (fun outputs w => (fst w, outputs)) m.

(** The count of the calls of [flush], as a mock would keep it. *)
Definition count_flush (self : BufferedOutputStream) : BufferedOutputStream :=
  {| per_output_max_rows := per_output_max_rows self;
     total_buffer_max_rows := total_buffer_max_rows self;
     total_in_buffer := total_in_buffer self;
     buffer := buffer self;
     flush_calls := S (flush_calls self) |}.

(** [BufferedOutputStream.flush]: a [send] that raises leaves the loop,
    and [flush], before [self._init_buffer()]. *)
Definition BufferedOutputStream_flush : Py.M (BufferedOutputStream * F) unit :=
  do_ on_stream (Py.modify count_flush);
  do self <- on_stream Py.get;
  do_ Py.for_each
        (fun item =>
           let output_name := fst item in
           let rows := snd item in
           if Py.truthy_list rows then on_outputs (outputs_send output_name (Py.Many rows))
           else Py.ret tt)
        (buffer self);
  on_stream (Py.modify _init_buffer).

(** [BufferedOutputStream.add] *)
Definition BufferedOutputStream_add (output_name : string) (rows : rows_arg)
    : Py.M (BufferedOutputStream * F) unit :=
  let rows := as_list rows in
  do_ on_stream (Py.modify (extend output_name rows));
  do self <- on_stream Py.get;
  if threshold_reached output_name self then BufferedOutputStream_flush
  else Py.ret tt.

(** [BufferedOutputStream.__enter__] and [__exit__] *)
Definition BufferedOutputStream__enter__ : Py.M (BufferedOutputStream * F) unit :=
  on_stream (Py.modify _init_buffer).

Definition BufferedOutputStream__exit__ : Py.M (BufferedOutputStream * F) unit :=
  BufferedOutputStream_flush.

(** [with BufferedOutputStream(outputs, per_output_max_rows,
    total_buffer_max_rows) as output_stream: body]. [__exit__] runs
    whether the body returned or raised; it returns [None], so an
    exception of the body leaves the block unless [__exit__] raises, and
    then the exception of [__exit__] does. *)
Definition with_BufferedOutputStream {A} (per_output_max_rows total_buffer_max_rows : Z)
    (body : Py.M (BufferedOutputStream * F) A) : Py.M F A :=
  fun outputs =>
    let output_stream := __init__ per_output_max_rows total_buffer_max_rows in
    let (_, w) := BufferedOutputStream__enter__ (output_stream, outputs) in
    let (r, w) := body w in
    match BufferedOutputStream__exit__ w with
    | (Py.Ok _, w) => (r, snd w)
    | (Py.Raise e, w) => (Py.Raise e, snd w)
    end.

End AnyFanout.

End Rows.

Global Arguments rows_arg : clear implicits.
Global Arguments OutputFanout : clear implicits.
Global Arguments BufferedOutputStream : clear implicits.

(** *** LocalCsvWriter *)

(** A [csv.DictWriter] on an open file: the path of the file it writes and
    the [fieldnames] it was built with. *)
Record DictWriter : Type := { filehandle : string; fieldnames : list string }.

(** The local file system: for every existing file the records written to
    it, oldest first. A record is the list of its cells; quoting and line
    ends are the [csv] module's business. *)
Abbreviation filesystem := (gmap string (list (list string))).

Record LocalCsvWriter : Type := {
  output_dir : string;
  storm_type : string;
  file_writers : gmap string DictWriter;
  overwrite : bool
}.

Definition endswith_slash (s : string) : bool :=
  match rev (String.list_ascii_of_string s) with
  | c :: _ => Ascii.eqb c "/"%char
  | [] => false
  end.

(** [OUTPUTS_TO_FILENAME_FMT.format(...)] *)
Definition format_filepath (self : LocalCsvWriter) (output_name : string) : string :=
  output_dir self
  +:+ (if negb (endswith_slash (output_dir self)) then "/" else "")
  +:+ storm_type self +:+ "_" +:+ output_name +:+ ".csv".

Definition path_exists (fs : filesystem) (filepath : string) : bool :=
  bool_decide (is_Some (fs !! filepath)).

Fixpoint _enforce_output_files_do_not_exist_loop (self : LocalCsvWriter)
    (fs : filesystem) (output_names : list string) : Py.result unit :=
  match output_names with
  | [] => Py.Ok tt
  | output_name :: rest =>
      let filepath := format_filepath self output_name in
      if path_exists fs filepath then
        Py.Raise (Py.InitializationError
                    ("File exists and overwrite is not enabled: " +:+ filepath))
      else _enforce_output_files_do_not_exist_loop self fs rest
  end.

Definition _enforce_output_files_do_not_exist (self : LocalCsvWriter) (fs : filesystem)
    : Py.result unit :=
  _enforce_output_files_do_not_exist_loop self fs ALL_OUTPUTS.

(** [def __init__(self, output_dir: str, storm_type: str, overwrite=False)] *)
Definition LocalCsvWriter_params : list Py.param :=
  [ Py.positional "output_dir"; Py.positional "storm_type";
    Py.defaulted "overwrite" (Py.VBool false) ].

Definition LocalCsvWriter__init__ (fs : filesystem) (locals : Py.dict Py.value)
    : Py.result LocalCsvWriter :=
  match Py.expect_str (Py.local locals "output_dir"),
        Py.expect_str (Py.local locals "storm_type") with
  | Py.Ok output_dir, Py.Ok storm_type =>
      let self := {| output_dir := output_dir;
                     storm_type := storm_type;
                     file_writers := ∅;
                     overwrite := Py.truthy (Py.local locals "overwrite") |} in
      if negb (overwrite self) then
        match _enforce_output_files_do_not_exist self fs with
        | Py.Ok _ => Py.Ok self
        | Py.Raise e => Py.Raise e
        end
      else Py.Ok self
  | Py.Raise e, _ => Py.Raise e
  | _, Py.Raise e => Py.Raise e
  end.

(** The expression [LocalCsvWriter(...)] applied to positional and keyword
    arguments. *)
Definition new_LocalCsvWriter (fs : filesystem)
    (args : list Py.value) (kwargs : list (string * Py.value))
    : Py.result LocalCsvWriter :=
  Py.call "__init__" LocalCsvWriter_params (LocalCsvWriter__init__ fs) args kwargs.

(** The state that the writer's methods act on: the writer object and the
    file system. *)
Abbreviation csv_world := (LocalCsvWriter * filesystem)%type.

(** [open(filepath, 'w')] creates the file or truncates it. *)
Definition open_w (filepath : string) (fs : filesystem) : filesystem :=
  <[filepath := []]> fs.

Definition get_writer (filepath : string) (fieldnames : list string)
    : Py.M csv_world DictWriter :=
  fun '(self, fs) =>
    match file_writers self !! filepath with
    | Some file_writer => (Py.Ok file_writer, (self, fs))
    | None =>
        let fs := open_w filepath fs in
        let file_writer := {| filehandle := filepath; fieldnames := fieldnames |} in
        (Py.Ok file_writer,
         ({| output_dir := output_dir self;
             storm_type := storm_type self;
             file_writers := <[filepath := file_writer]> (file_writers self);
             overwrite := overwrite self |}, fs))
    end.

(** [DictWriter._dict_to_list]: a key outside [fieldnames] is an error
    ([extrasaction='raise']), a missing key is written as [restval = '']. *)
Definition wrong_fields (file_writer : DictWriter) (row : Py.dict string) : list string :=
  filter (fun k => negb (existsb (String.eqb k) (fieldnames file_writer)))
         (Py.dict_keys row).

Definition _dict_to_list (file_writer : DictWriter) (row : Py.dict string) : list string :=
  map (fun k => match Py.dict_get row k with Some v => v | None => "" end)
      (fieldnames file_writer).

Definition writerow (file_writer : DictWriter) (row : Py.dict string)
    : Py.M csv_world unit :=
  fun '(self, fs) =>
    if Py.truthy_list (wrong_fields file_writer row) then
      (Py.Raise (Py.ValueError "dict contains fields not in fieldnames"), (self, fs))
    else
      let record := _dict_to_list file_writer row in
      let old := match fs !! filehandle file_writer with Some l => l | None => [] end in
      (Py.Ok tt, (self, <[filehandle file_writer := old ++ [record]]> fs)).

Definition write_rows (output_name : string) (rows : Py.one_or_many (Py.dict string))
    : Py.M csv_world unit :=
  do w <- Py.get;
  let filepath := format_filepath (fst w) output_name in
  Py.for_each
    (fun row =>
       do file_writer <- get_writer filepath (Py.dict_keys row);
       writerow file_writer row)
    (as_list rows).

(** *** BigqueryRowWriter *)

Definition DEFAULT_DATASET := "simulations_v2".

Record BigqueryRowWriter : Type := {
  bq_project_id : string;
  bq_storm_type : string;
  bq_dataset : string;
  bq_client : option string
}.

(** [def __init__(self, project_id: str, storm_type: str,
                  dataset: str = DEFAULT_DATASET)] *)
Definition BigqueryRowWriter_params : list Py.param :=
  [ Py.positional "project_id"; Py.positional "storm_type";
    Py.defaulted "dataset" (Py.VStr DEFAULT_DATASET) ].

Definition BigqueryRowWriter__init__ (locals : Py.dict Py.value)
    : Py.result BigqueryRowWriter :=
  match Py.expect_str (Py.local locals "project_id"),
        Py.expect_str (Py.local locals "storm_type"),
        Py.expect_str (Py.local locals "dataset") with
  | Py.Ok project_id, Py.Ok storm_type, Py.Ok dataset =>
      Py.Ok {| bq_project_id := project_id;
               bq_storm_type := storm_type;
               bq_dataset := dataset;
               bq_client := None |}
  | Py.Raise e, _, _ => Py.Raise e
  | _, Py.Raise e, _ => Py.Raise e
  | _, _, Py.Raise e => Py.Raise e
  end.

Definition new_BigqueryRowWriter
    (args : list Py.value) (kwargs : list (string * Py.value))
    : Py.result BigqueryRowWriter :=
  Py.call "__init__" BigqueryRowWriter_params BigqueryRowWriter__init__ args kwargs.

(** [OUTPUT_TABLENAME_FMT.format(...)] *)
Definition format_tablename (self : BigqueryRowWriter) (output_name : string) : string :=
  bq_dataset self +:+ "." +:+ bq_storm_type self +:+ "_" +:+ output_name.

(** [BigqueryRowWriter.lazy_initialize]: the client is known by the project
    it was created for. *)
Definition BigqueryRowWriter_lazy_initialize (self : BigqueryRowWriter) : BigqueryRowWriter :=
  {| bq_project_id := bq_project_id self;
     bq_storm_type := bq_storm_type self;
     bq_dataset := bq_dataset self;
     bq_client := Some (bq_project_id self) |}.

Section BigqueryRows.

(** [C] is the state of the client, with its two methods, which may
    raise. [TableReference_from_string table_id default_project] is the
    client library's [TableReference.from_string], which validates the
    name: the id of the reference, or its [ValueError]. *)
Context {Row C : Type}.
Context (Client_get_table : bigquery.table -> Py.M C bigquery.table).
Context (Client_insert_rows : bigquery.table -> list Row -> Py.M C (list string)).
Context (TableReference_from_string : string -> string -> Py.result string).

(** [Bigquery.table_reference(table_id, project_id)] *)
Definition table_reference (table_id project_id : string) : Py.M C bigquery.table :=
  match TableReference_from_string table_id project_id with
  | Py.Ok table_id => Py.ret (bigquery.TableReference table_id)
  | Py.Raise e => Py.raise e
  end.

(** [BigqueryRowWriter.write_rows] for a list of rows. The call of
    [Bigquery.insert_rows] is a statement: what it returns is not looked
    at. Without [lazy_initialize] the client is [None], and the first
    call of a method of the client raises. *)
Definition BigqueryRowWriter_write_rows (self : BigqueryRowWriter)
    (output_name : string) (rows : list Row) : Py.M C unit :=
  let tablename := format_tablename self output_name in
  do table_ref <- table_reference tablename (bq_project_id self);
  match bq_client self with
  | None => Py.raise (Py.AttributeError "'NoneType' object has no attribute 'get_table'")
  | Some _ =>
      do_ bigquery.Bigquery_insert_rows Client_get_table Client_insert_rows table_ref rows;
      Py.ret tt
  end.

End BigqueryRows.

(** *** SerialOutput and MultiprocessingOutput *)

Section Fanouts.

(** [W] is what the writers write to: files, tables, a webhook;
    [_checkLevel] is that of [simulation_logging.get_logger]. *)
Context {W Row : Type} (_checkLevel : Py.value -> Py.result Z).

(** A [RowWriter], by what its two methods do. The property [logger] of a
    writer falls back to the root logger and is never falsy, so the
    assignment [writer.logger = logger] of [process_queue] is not
    reached. *)
Record RowWriter : Type := {
  RowWriter_write_rows : string -> rows_arg Row -> Py.M W unit;
  RowWriter_lazy_initialize : Py.M W unit
}.

(** [SerialOutput.__init__] *)
Definition SerialOutput__init__ (output_writers : list RowWriter) : Py.M W unit :=
  Py.for_each RowWriter_lazy_initialize output_writers.

(** [SerialOutput.send] *)
Definition SerialOutput_send (output_writers : list RowWriter)
    (output_name : string) (rows : rows_arg Row) : Py.M W unit :=
  Py.for_each (fun writer => RowWriter_write_rows writer output_name rows) output_writers.

(** What [MultiprocessingOutput] puts on its queue: the tuple of [send] or
    the string [STOP_SIGNAL] of [stop]. The queue is the list of the
    messages put and not yet read, oldest first. *)
Inductive message : Type :=
| STOP_SIGNAL
| RowsMessage (output_name : string) (rows : rows_arg Row).

Definition MultiprocessingOutput_send (output_name : string) (rows : rows_arg Row)
    (output_queue : list message) : list message :=
  output_queue ++ [RowsMessage output_name rows].

Definition MultiprocessingOutput_stop (output_queue : list message) : list message :=
  output_queue ++ [STOP_SIGNAL].

(** [while True: message = output_queue.get(); ...]. The result is what is
    left on the queue after the stop signal, or [None] when [get] finds
    the queue empty and blocks. *)
Fixpoint process_queue_loop (output_queue : list message) (output_writers : list RowWriter)
    : Py.M W (option (list message)) :=
  match output_queue with
  | [] => Py.ret None
  | STOP_SIGNAL :: rest => Py.ret (Some rest)
  | RowsMessage output_name rows :: rest =>
      do_ Py.for_each (fun output_writer => RowWriter_write_rows output_writer output_name rows)
            output_writers;
      process_queue_loop rest output_writers
  end.

(** The state of the output process: its root logger, and what the writers
    write to. *)
Definition on_logger {A} (m : Py.M simulation_logging.root_logger A)
    : Py.M (simulation_logging.root_logger * W) A :=
  Py.zoom fst (fun logger s => (logger, snd s)) m.

Definition on_writers {A} (m : Py.M W A) : Py.M (simulation_logging.root_logger * W) A :=
  Py.zoom snd (fun w s => (fst s, w)) m.

(** [MultiprocessingOutput.process_queue]. The two [logger.info] messages
    are not modelled. *)
Definition process_queue (output_queue : list message) (output_writers : list RowWriter)
    (logging_queue : option string) (log_level : Py.value)
    : Py.M (simulation_logging.root_logger * W) (option (list message)) :=
  do logger <- on_logger
                 (simulation_logging.get_logger _checkLevel (-1) logging_queue log_level);
  do_ on_writers (Py.for_each RowWriter_lazy_initialize output_writers);
  on_writers (process_queue_loop output_queue output_writers).

End Fanouts.

Global Arguments RowWriter : clear implicits.
Global Arguments message : clear implicits.

End simulation_output.

(** ** storm/storm.py *)

Module storm.

Section Geometry.

(** Coordinates and shapes belong to the geometry library. *)
Context {geometry : Type}.

(** What one call of [generate_polygon] obtains from the random generator
    and the geometry library: the sampled statistics, whether the random
    centre lies inside the country, and the circle around the centre. *)
Record draw : Type := {
  sim_dmg : string;
  sim_state : string;
  sim_size : string;
  center_in_us : bool;
  circle : geometry
}.

(** The [Feature] that [generate_polygon] returns. *)
Record polygon : Type := {
  polygon_geometry : geometry;
  payout : Z;
  severity : string
}.

(** The result is the polygon, or [None] for the [False] that the source
    returns when the centre falls outside the country. *)
Definition generate_polygon (d : draw) : option polygon :=
  if negb (center_in_us d) then None
  else Some {| polygon_geometry := circle d; payout := 10000; severity := sim_dmg d |}.

End Geometry.

Global Arguments draw : clear implicits.
Global Arguments polygon : clear implicits.

End storm.

(** ** functions/generate_losses.py *)

Module generate_losses.

Local Open Scope Z_scope.

Definition SIMULATION_MAX_RETRIES : nat := 3%nat.

Definition FLAT_ROW_OUTPUT_SCHEMA_VERSION : Z := 1.
Definition GEO_TYPE_ROW_OUTPUT_SCHEMA_VERSION : Z := 2.
Definition DEFAULT_OUTPUT_SCHEMA_VERSION : Z := GEO_TYPE_ROW_OUTPUT_SCHEMA_VERSION.

Definition STATES : list string := ["AR"; "GA"; "IA"; "IL"; "IN"; "KY"; "MO"; "OH"; "TN"].

Definition total_agg_limit : Z := 200000000.
Definition state_agg_limit : Z := 80000000.
Definition county_agg_limit : Z := 30000000.
Definition zip_agg_limit : Z := 5000000.

(** A value of [loss_dictionary]: the number under ['total'] or the
    dictionary of geographies under ['state'], ['county'] and ['zip']. *)
Inductive entry : Type :=
| Scalar (value : Z)
| Nested (geographies : Py.dict Z).

(** The shape of [loss_dictionary] and of its two deep copies. The keys of
    the three nested dictionaries are the literal's; the definitions below
    work for any such keys. *)
Record geo_dict : Type := {
  d_total : Z;
  d_state : Py.dict Z;
  d_county : Py.dict Z;
  d_zip : Py.dict Z
}.

(** [d.items()], in the order of the literal. *)
Definition items (d : geo_dict) : list (string * entry) :=
  [ ("total", Scalar (d_total d));
    ("state", Nested (d_state d));
    ("county", Nested (d_county d));
    ("zip", Nested (d_zip d)) ].

(** [d[geo_type][geography]] *)
Definition subscript2 {S} (d : geo_dict) (geo_type geography : string) : Py.M S Z :=
  match Py.dict_get (items d) geo_type with
  | Some (Nested geographies) => Py.subscript geographies geography
  | Some (Scalar _) => Py.raise (Py.TypeError "'int' object is not subscriptable")
  | None => Py.raise (Py.KeyError geo_type)
  end.

(** [d['total'] += amount] *)
Definition iadd_total (amount : Z) : Py.M geo_dict unit :=
  Py.modify (fun d =>
    {| d_total := d_total d + amount; d_state := d_state d;
       d_county := d_county d; d_zip := d_zip d |}).

(** [d['state'][key] += amount], and the same for ['county'] and ['zip']:
    the read of a missing key raises. *)
Definition iadd_state (key : string) (amount : Z) : Py.M geo_dict unit :=
  do d <- Py.get;
  do old <- Py.subscript (d_state d) key;
  Py.put {| d_total := d_total d; d_state := Py.dict_set (d_state d) key (old + amount);
            d_county := d_county d; d_zip := d_zip d |}.

Definition iadd_county (key : string) (amount : Z) : Py.M geo_dict unit :=
  do d <- Py.get;
  do old <- Py.subscript (d_county d) key;
  Py.put {| d_total := d_total d; d_state := d_state d;
            d_county := Py.dict_set (d_county d) key (old + amount); d_zip := d_zip d |}.

Definition iadd_zip (key : string) (amount : Z) : Py.M geo_dict unit :=
  do d <- Py.get;
  do old <- Py.subscript (d_zip d) key;
  Py.put {| d_total := d_total d; d_state := d_state d; d_county := d_county d;
            d_zip := Py.dict_set (d_zip d) key (old + amount) |}.

(** The four statements that add one amount at every level. *)
Definition iadd_levels (state county zip_code : string) (amount : Z) : Py.M geo_dict unit :=
  do_ iadd_total amount;
  do_ iadd_state state amount;
  do_ iadd_county county amount;
  iadd_zip zip_code amount.

Section Sampling.

Context {coordinates : Type}.

(** A document of the property sample. *)
Record property : Type := {
  prop_state : string;
  prop_county : string;
  prop_zip_code : string;
  prop_limit : Z;
  prop_location : coordinates
}.

(** [Feature(geometry=Point(...), properties=exposure_props)] *)
Record Feature : Type := {
  feature_point : coordinates;
  feature_state : string;
  feature_county : string;
  feature_zip_code : string
}.

(** The locals of [run_losses] that the sampling loops update. *)
Record sampling : Type := {
  exposure_dictionary : geo_dict;
  premium_dictionary : geo_dict;
  exposures : list Feature
}.

Definition on_exposure {A} (m : Py.M geo_dict A) : Py.M sampling A :=
  Py.zoom exposure_dictionary
    (fun d s => {| exposure_dictionary := d; premium_dictionary := premium_dictionary s;
                   exposures := exposures s |}) m.

Definition on_premium {A} (m : Py.M geo_dict A) : Py.M sampling A :=
  Py.zoom premium_dictionary
    (fun d s => {| exposure_dictionary := exposure_dictionary s; premium_dictionary := d;
                   exposures := exposures s |}) m.

(** The table loaded from [zip_to_prem.json]. *)
Context (zip_to_prem : gmap string Z).

(** The test at the head of the inner loop; [or] evaluates its second
    operand only when the first is false. *)
Definition ceiling_reached (curr_prop : property) : Py.M sampling bool :=
  do s <- Py.get;
  if (total_agg_limit - 15000 <? d_total (exposure_dictionary s))%Z then Py.ret true
  else
    do state_total <- Py.subscript (d_state (exposure_dictionary s)) (prop_state curr_prop);
    Py.ret (state_agg_limit - 15000 <? state_total)%Z.

(** The body of the inner loop below the test. *)
Definition add_property (curr_prop : property) : Py.M sampling unit :=
  let curr_state := prop_state curr_prop in
  let curr_county := prop_county curr_prop in
  let curr_zip := prop_zip_code curr_prop in
  let curr_limit := prop_limit curr_prop in
  do rate <- match zip_to_prem !! curr_zip with
             | Some rate => Py.ret rate
             | None => Py.raise (Py.KeyError curr_zip)
             end;
  let premium := Z.max 100 rate in
  do_ on_exposure (iadd_levels curr_state curr_county curr_zip curr_limit);
  do_ on_premium (iadd_levels curr_state curr_county curr_zip premium);
  Py.modify (fun s =>
    {| exposure_dictionary := exposure_dictionary s;
       premium_dictionary := premium_dictionary s;
       exposures := exposures s ++
         [{| feature_point := prop_location curr_prop;
             feature_state := curr_state;
             feature_county := curr_county;
             feature_zip_code := curr_zip |}] |}).

(** [for curr_prop in curr_props: if ...: break; ...] *)
Fixpoint sample_properties (curr_props : list property) : Py.M sampling unit :=
  match curr_props with
  | [] => Py.ret tt
  | curr_prop :: rest =>
      do reached <- ceiling_reached curr_prop;
      if reached then Py.ret tt
      else
        do_ add_property curr_prop;
        sample_properties rest
  end.

(** [for loss_state in states: ...]. The cursor of each state, in the order
    of the shuffled [states], is given by [samples]. *)
Fixpoint sample_states (samples : list (list property)) : Py.M sampling unit :=
  match samples with
  | [] => Py.ret tt
  | curr_props :: rest =>
      do_ sample_properties curr_props;
      do s <- Py.get;
      if (total_agg_limit - 15000 <? d_total (exposure_dictionary s))%Z then Py.ret tt
      else sample_states rest
  end.

(** The additions that the loops perform, in order: for every property
    whose iteration ran to its end, the property and the locals after it.
    These follow the loops above statement for statement and only record
    what they pass through. *)
Fixpoint sample_properties_trace (curr_props : list property) (s : sampling)
    : list (property * sampling) :=
  match curr_props with
  | [] => []
  | curr_prop :: rest =>
      match ceiling_reached curr_prop s with
      | (Py.Ok false, s1) =>
          match add_property curr_prop s1 with
          | (Py.Ok _, s2) => (curr_prop, s2) :: sample_properties_trace rest s2
          | (Py.Raise _, _) => []
          end
      | _ => []
      end
  end.

Fixpoint sample_states_trace (samples : list (list property)) (s : sampling)
    : list (property * sampling) :=
  match samples with
  | [] => []
  | curr_props :: rest =>
      sample_properties_trace curr_props s ++
      match sample_properties curr_props s with
      | (Py.Ok _, s') =>
          if (total_agg_limit - 15000 <? d_total (exposure_dictionary s'))%Z then []
          else sample_states_trace rest s'
      | (Py.Raise _, _) => []
      end
  end.

End Sampling.

Global Arguments property : clear implicits.
Global Arguments Feature : clear implicits.
Global Arguments sampling : clear implicits.

Section Storms.

Context {geometry : Type}.

(** [while num_storms <= limit: ...]. Each call of
    [storm.generate_polygon()] takes its result from [candidates]; the
    result is [None] when the loop asks for a candidate that the sequence
    does not hold. *)
Fixpoint generate_storms (candidates : list (option (storm.polygon geometry)))
    (limit num_storms : Z) (storms : list (storm.polygon geometry))
    : option (list (storm.polygon geometry) * Z) :=
  if (num_storms <=? limit)%Z then
    match candidates with
    | [] => None
    | sample_storm :: candidates =>
        match sample_storm with
        | None => generate_storms candidates limit num_storms storms
        | Some sample_storm =>
            generate_storms candidates limit (num_storms + 1) (storms ++ [sample_storm])
        end
    end
  else Some (storms, num_storms).

End Storms.

Section Emission.

(** Python floats are outside the embedding: [round_div4 loss premium]
    stands for [round(loss / premium, 4)] and [float_truthy] for the
    truth value of a float. *)
Context {float : Type} (round_div4 : Z -> Z -> float) (float_truthy : float -> bool).

Inductive number : Type :=
| Int (z : Z)
| Float (f : float).

Definition truthy_number (n : number) : bool :=
  match n with
  | Int z => Py.truthy_int z
  | Float f => float_truthy f
  end.

Definition generate_loss_ratio (premium loss : Z) : number :=
  if negb (premium =? 0) then Float (round_div4 loss premium) else Int 0.

(** The row of the geo-type schema, and the two shapes of row. *)
Record geo_type_row : Type := {
  run_timestamp : Z;
  sim_id : Z;
  geo_type : Z;
  geography : string;
  total : number
}.

Inductive row : Type :=
| GeoTypeRow (r : geo_type_row)
| FlatRow (columns : Py.dict number).

(** The arguments of [run_losses] that the emission reads. *)
Record trial : Type := {
  trial_sim_id : Z;
  runtime_timestamp : Z;
  output_schema_version : Z
}.

Context (t : trial).

Definition build_geo_type_row (geo_type_str geography : string) (total : number) : row :=
  GeoTypeRow {| run_timestamp := runtime_timestamp t;
                sim_id := trial_sim_id t;
                geo_type := geo_types.str_to_int geo_type_str;
                geography := geography;
                total := total |}.

(** The locals of [run_losses] that the emission updates, and the fanout
    [outputs] that it was given. [nlr_value] is [None] while the local is
    unbound. *)
Record emitting : Type := {
  outputs : simulation_output.OutputFanout row;
  exposure_row : Py.dict number;
  premium_row : Py.dict number;
  loss_row : Py.dict number;
  nlr_row : Py.dict number;
  nlr_value : option number
}.

Definition set_outputs (o : simulation_output.OutputFanout row) (s : emitting) : emitting :=
  {| outputs := o; exposure_row := exposure_row s; premium_row := premium_row s;
     loss_row := loss_row s; nlr_row := nlr_row s; nlr_value := nlr_value s |}.
Definition set_exposure_row (d : Py.dict number) (s : emitting) : emitting :=
  {| outputs := outputs s; exposure_row := d; premium_row := premium_row s;
     loss_row := loss_row s; nlr_row := nlr_row s; nlr_value := nlr_value s |}.
Definition set_premium_row (d : Py.dict number) (s : emitting) : emitting :=
  {| outputs := outputs s; exposure_row := exposure_row s; premium_row := d;
     loss_row := loss_row s; nlr_row := nlr_row s; nlr_value := nlr_value s |}.
Definition set_loss_row (d : Py.dict number) (s : emitting) : emitting :=
  {| outputs := outputs s; exposure_row := exposure_row s; premium_row := premium_row s;
     loss_row := d; nlr_row := nlr_row s; nlr_value := nlr_value s |}.
Definition set_nlr_row (d : Py.dict number) (s : emitting) : emitting :=
  {| outputs := outputs s; exposure_row := exposure_row s; premium_row := premium_row s;
     loss_row := loss_row s; nlr_row := d; nlr_value := nlr_value s |}.
Definition set_nlr_value (v : option number) (s : emitting) : emitting :=
  {| outputs := outputs s; exposure_row := exposure_row s; premium_row := premium_row s;
     loss_row := loss_row s; nlr_row := nlr_row s; nlr_value := v |}.

(** The state inside a [with] block: the stream and the locals. *)
Abbreviation in_block := (simulation_output.BufferedOutputStream row * emitting)%type.

(** A statement on the locals, inside the block. *)
Definition locals {A} (m : Py.M emitting A) : Py.M in_block A :=
  Py.zoom snd (fun s w => (fst w, s)) m.

(** [output_stream.add(output_name, row)] *)
Definition output_stream_add (output_name : string) (r : row) : Py.M in_block unit :=
  simulation_output.stream_add outputs set_outputs output_name (Py.One r).

(** The read of the local [nlr_value]. *)
Definition read_nlr_value : Py.M emitting number :=
  do s <- Py.get;
  match nlr_value s with
  | Some v => Py.ret v
  | None => Py.raise (Py.UnboundLocalError "nlr_value")
  end.

Definition is_geo_type_schema : bool :=
  output_schema_version t =? GEO_TYPE_ROW_OUTPUT_SCHEMA_VERSION.
Definition is_flat_schema : bool :=
  output_schema_version t =? FLAT_ROW_OUTPUT_SCHEMA_VERSION.

Definition column_name_of (geography : string) : string :=
  simulation_output.format_column_name_for_output geography None
    simulation_output.DEFAULT_COLUMN_REPLACEMENT_CHAR.

(** The body of the loop over [exposure_dictionary.items()]. The key
    ['total'] holds a number and the other keys a dictionary; a value of
    the other shape under either makes the statements that use it fail. *)
Definition emit_exposure_item (premium_dictionary : geo_dict)
    (item : string * entry) : Py.M in_block unit :=
  let (geo_type, value) := item in
  if String.eqb geo_type "total" then
    match value with
    | Nested _ => Py.raise (Py.TypeError "a number was expected under 'total'")
    | Scalar value =>
        do_ locals (Py.modify (fun s =>
              set_exposure_row (Py.dict_set (exposure_row s) geo_type (Int value)) s));
        do_ locals (Py.modify (fun s =>
              set_premium_row (Py.dict_set (premium_row s) geo_type (Int value)) s));
        do s <- locals Py.get;
        do total <- Py.subscript (exposure_row s) geo_type;
        do premium_total <- Py.subscript (premium_row s) geo_type;
        if is_geo_type_schema then
          do_ (if truthy_number total then
                 output_stream_add simulation_output.OUTPUT_EXPOSURES
                   (build_geo_type_row geo_type geo_type total)
               else Py.ret tt);
          if truthy_number premium_total then
            output_stream_add simulation_output.OUTPUT_EXPOSURES
              (build_geo_type_row geo_type geo_type premium_total)
          else Py.ret tt
        else Py.ret tt
    end
  else
    match value with
    | Scalar _ => Py.raise (Py.AttributeError "'int' object has no attribute 'items'")
    | Nested value =>
        Py.for_each
          (fun '(geography, total) =>
             let column_name := column_name_of geography in
             do premium_total <- subscript2 premium_dictionary geo_type geography;
             do_ locals (Py.modify (fun s =>
                   set_exposure_row (Py.dict_set (exposure_row s) column_name (Int total)) s));
             do_ locals (Py.modify (fun s =>
                   set_premium_row
                     (Py.dict_set (premium_row s) column_name (Int premium_total)) s));
             if is_geo_type_schema then
               do_ (if Py.truthy_int total then
                      output_stream_add simulation_output.OUTPUT_EXPOSURES
                        (build_geo_type_row geo_type geography (Int total))
                    else Py.ret tt);
               if Py.truthy_int premium_total then
                 output_stream_add simulation_output.OUTPUT_PREMIUMS
                   (build_geo_type_row geo_type geography (Int premium_total))
               else Py.ret tt
             else Py.ret tt)
          value
    end.

(** [outputs.send(output_name, row)] outside a block. *)
Definition outputs_send (output_name : string) (r : row) : Py.M emitting unit :=
  Py.modify (fun s =>
    set_outputs (simulation_output.send output_name (Py.One r) (outputs s)) s).

(** From [logger.info('Writing Exposure and Premiums')] to the two sends of
    the flat schema. *)
Definition write_exposures_and_premiums (exposure_dictionary premium_dictionary : geo_dict)
    : Py.M emitting unit :=
  do_ Py.modify (set_exposure_row [("sim_id", Int (trial_sim_id t))]);
  do_ Py.modify (set_premium_row [("sim_id", Int (trial_sim_id t))]);
  do_ simulation_output.with_stream outputs set_outputs
        simulation_output.DEFAULT_PER_OUTPUT_MAX_ROWS
        simulation_output.DEFAULT_TOTAL_BUFFER_MAX_ROWS
        (Py.for_each (emit_exposure_item premium_dictionary) (items exposure_dictionary));
  if is_flat_schema then
    do s <- Py.get;
    do_ outputs_send simulation_output.OUTPUT_EXPOSURES (FlatRow (exposure_row s));
    outputs_send simulation_output.OUTPUT_PREMIUMS (FlatRow (premium_row s))
  else Py.ret tt.

(** [premium_dictionary[geo_type]] for the key ['total']. *)
Definition subscript_total {S} (d : geo_dict) (geo_type : string) : Py.M S Z :=
  match Py.dict_get (items d) geo_type with
  | Some (Scalar v) => Py.ret v
  | Some (Nested _) => Py.raise (Py.TypeError "unsupported operand: 'int' and 'dict'")
  | None => Py.raise (Py.KeyError geo_type)
  end.

(** The body of the loop over [loss_dictionary.items()]. *)
Definition emit_loss_item (premium_dictionary : geo_dict)
    (item : string * entry) : Py.M in_block unit :=
  let (geo_type, value) := item in
  if String.eqb geo_type "total" then
    match value with
    | Nested _ => Py.raise (Py.TypeError "a number was expected under 'total'")
    | Scalar value =>
        do_ locals (Py.modify (fun s =>
              set_loss_row (Py.dict_set (loss_row s) geo_type (Int value)) s));
        do premium <- subscript_total premium_dictionary geo_type;
        do_ locals (Py.modify (fun s =>
              set_nlr_row
                (Py.dict_set (nlr_row s) geo_type (generate_loss_ratio premium value)) s));
        if is_geo_type_schema then
          do_ (if Py.truthy_int value then
                 output_stream_add simulation_output.OUTPUT_LOSSES
                   (build_geo_type_row geo_type geo_type (Int value))
               else Py.ret tt);
          do nlr_value <- locals read_nlr_value;
          if truthy_number nlr_value then
            do premium <- subscript_total premium_dictionary geo_type;
            output_stream_add simulation_output.OUTPUT_NLR
              (build_geo_type_row geo_type geo_type (generate_loss_ratio premium value))
          else Py.ret tt
        else Py.ret tt
    end
  else
    match value with
    | Scalar _ => Py.raise (Py.AttributeError "'int' object has no attribute 'items'")
    | Nested value =>
        Py.for_each
          (fun '(geography, total) =>
             let column_name := column_name_of geography in
             do premium <- subscript2 premium_dictionary geo_type geography;
             do_ locals (Py.modify (set_nlr_value (Some (generate_loss_ratio premium total))));
             do_ locals (Py.modify (fun s =>
                   set_loss_row (Py.dict_set (loss_row s) column_name (Int total)) s));
             do nlr_value <- locals read_nlr_value;
             do_ locals (Py.modify (fun s =>
                   set_nlr_row (Py.dict_set (nlr_row s) column_name nlr_value) s));
             if is_geo_type_schema then
               do_ (if Py.truthy_int total then
                      output_stream_add simulation_output.OUTPUT_LOSSES
                        (build_geo_type_row geo_type geography (Int total))
                    else Py.ret tt);
               do nlr_value <- locals read_nlr_value;
               if truthy_number nlr_value then
                 output_stream_add simulation_output.OUTPUT_NLR
                   (build_geo_type_row geo_type geography nlr_value)
               else Py.ret tt
             else Py.ret tt)
          value
    end.

(** From [logger.info('Writing losses and nlr')] to the two sends of the
    flat schema. *)
Definition write_losses_and_nlr (loss_dictionary premium_dictionary : geo_dict)
    : Py.M emitting unit :=
  do_ Py.modify (set_loss_row [("SimId", Int (trial_sim_id t))]);
  do_ Py.modify (set_nlr_row [("SimId", Int (trial_sim_id t))]);
  do_ simulation_output.with_stream outputs set_outputs
        simulation_output.DEFAULT_PER_OUTPUT_MAX_ROWS
        simulation_output.DEFAULT_TOTAL_BUFFER_MAX_ROWS
        (Py.for_each (emit_loss_item premium_dictionary) (items loss_dictionary));
  if is_flat_schema then
    do s <- Py.get;
    do_ outputs_send simulation_output.OUTPUT_LOSSES (FlatRow (loss_row s));
    outputs_send simulation_output.OUTPUT_NLR (FlatRow (nlr_row s))
  else Py.ret tt.

End Emission.

Global Arguments number : clear implicits.
Global Arguments geo_type_row : clear implicits.
Global Arguments row : clear implicits.
Global Arguments emitting : clear implicits.

Section Trial.

Context {coordinates geometry float : Type}.
Context (round_div4 : Z -> Z -> float) (float_truthy : float -> bool).
Context (zip_to_prem : gmap string Z).

(** What one attempt of [run_losses] takes from outside: the cursors of
    the sampled states, the target drawn by [randint(950, 2050)], the
    results of the successive calls of [storm.generate_polygon()], and the
    geometry library. *)
Record draws : Type := {
  samples : list (list (property coordinates));
  storm_limit : Z;
  storm_candidates : list (option (storm.polygon geometry));
  has_coordinates : storm.polygon geometry -> bool;
  points_within_polygon :
    list (Feature coordinates) -> storm.polygon geometry -> list (Feature coordinates)
}.

(** The body of [for storm_poly in storms]. *)
Definition tally_storm (d : draws) (exposure_fc : list (Feature coordinates))
    (storm_poly : storm.polygon geometry) : Py.M geo_dict unit :=
  if has_coordinates d storm_poly then
    let damaged_homes := points_within_polygon d exposure_fc storm_poly in
    let payout := 10000 in
    Py.for_each
      (fun damaged_home =>
         iadd_levels (feature_state damaged_home) (feature_county damaged_home)
           (feature_zip_code damaged_home) payout)
      damaged_homes
  else Py.ret tt.

(** [output_schema_version = output_schema_version or
    DEFAULT_OUTPUT_SCHEMA_VERSION] *)
Definition schema_version_or_default (v : option Z) : Z :=
  match v with
  | Some v => if Py.truthy_int v then v else DEFAULT_OUTPUT_SCHEMA_VERSION
  | None => DEFAULT_OUTPUT_SCHEMA_VERSION
  end.

(** The body of [run_losses], one attempt, on the fanout it was given. The
    literal [loss_dictionary] is a parameter; the exposure and the premium
    dictionaries start as deep copies of it. The result is [None] when the
    storm loop finds no more candidates. *)
Definition run_losses_attempt (t : trial) (loss_dictionary : geo_dict) (d : draws)
    (outputs0 : simulation_output.OutputFanout (row float))
    : option (Py.result Z * simulation_output.OutputFanout (row float)) :=
  match sample_states zip_to_prem (samples d)
          {| exposure_dictionary := loss_dictionary;
             premium_dictionary := loss_dictionary;
             exposures := [] |} with
  | (Py.Raise e, _) => Some (Py.Raise e, outputs0)
  | (Py.Ok _, sampled) =>
      match write_exposures_and_premiums float_truthy t
              (exposure_dictionary sampled) (premium_dictionary sampled)
              {| outputs := outputs0; exposure_row := []; premium_row := [];
                 loss_row := []; nlr_row := []; nlr_value := None |} with
      | (Py.Raise e, s) => Some (Py.Raise e, outputs s)
      | (Py.Ok _, s) =>
          match generate_storms (storm_candidates d) (storm_limit d) 0 [] with
          | None => None
          | Some (storms, _) =>
              match Py.for_each (tally_storm d (exposures sampled)) storms
                      loss_dictionary with
              | (Py.Raise e, _) => Some (Py.Raise e, outputs s)
              | (Py.Ok _, loss_dictionary) =>
                  match write_losses_and_nlr round_div4 float_truthy t
                          loss_dictionary (premium_dictionary sampled) s with
                  | (Py.Raise e, s) => Some (Py.Raise e, outputs s)
                  | (Py.Ok _, s) => Some (Py.Ok (trial_sim_id t), outputs s)
                  end
              end
          end
      end
  end.

End Trial.

Global Arguments draws : clear implicits.

(** [tenacity.retry(stop=stop_after_attempt(n))] around [f], with
    [remaining = n - 1] further attempts allowed after the next one: any
    exception is retried, and [RetryError] is raised when the attempts are
    used up. The attempts differ in what they draw, so [f] takes the
    number of the attempt. The sleep between attempts is not modelled. *)
Fixpoint retry_on_exception {St A} (remaining attempt_number : nat)
    (f : nat -> Py.M St A) : Py.M St A :=
  fun s =>
    match f attempt_number s with
    | (Py.Ok a, s) => (Py.Ok a, s)
    | (Py.Raise e, s) =>
        match remaining with
        | O => (Py.Raise Py.RetryError, s)
        | S remaining => retry_on_exception remaining (S attempt_number) f s
        end
    end.

(** *** The command line driver *)

Definition setup_bigquery_writer (project_id dataset : Py.value)
    : Py.result simulation_output.BigqueryRowWriter :=
  if negb (Py.truthy project_id) then
    Py.Raise (Py.GenericException
                "--project_id is REQUIRED when using the --output_bigquery flag")
  else simulation_output.new_BigqueryRowWriter [project_id] [("dataset", dataset)].

Definition setup_csv_writer (fs : simulation_output.filesystem)
    (csv_output_dir overwrite : Py.value)
    : Py.result simulation_output.LocalCsvWriter :=
  simulation_output.new_LocalCsvWriter fs [csv_output_dir] [("overwrite", overwrite)].

(** The parsed command line. *)
Record args : Type := {
  num_simulations : Z;
  multiprocessing : bool;
  num_processes : option Z;
  output_csv : bool;
  csv_output_dir : string;
  csv_overwrite : bool;
  upload_csv_to_bigquery_overwrite : bool;
  output_bigquery : bool;
  bigquery_dataset : string;
  project_id : option string
}.

Definition validate_arguments (a : args) : Py.result unit :=
  if upload_csv_to_bigquery_overwrite a then
    if negb (output_csv a) then
      Py.Raise (Py.GenericException
                  "Must set --output_csv flag to use --upload_csv_to_bigquery_overwrite")
    else if output_bigquery a then
      Py.Raise (Py.GenericException
                  "Flag --output_bigquery and --upload_csv_to_bigquery_overwrite are both set.")
    else Py.Ok tt
  else Py.Ok tt.

Inductive writer : Type :=
| CsvWriter (w : simulation_output.LocalCsvWriter)
| BigqueryWriter (w : simulation_output.BigqueryRowWriter).

(** What the driver does besides running trials, in the order done. *)
Inductive event : Type :=
| SerialOutputCreated (output_writers : list writer)
| PoolCreated
| LoggingThreadStarted
| OutputProcessStarted (output_writers : list writer)
| ResultReceived (sim_id : Z)
| OutputsStopped
| OutputProcessJoined
| CsvUploaded
| LoggingThreadStopped
| LoggingThreadJoined
| PoolClosed
| PoolJoined.

Section Driver.

(** [W] is whatever the trials of the single process act on. In the pool
    each trial runs in a worker process: [worker_outcome] is what the
    worker hands back for a simulation, and [completion_order] the order in
    which the results of the submitted simulations arrive. *)
Context {W : Type}.
Context (attempt : Z -> nat -> Py.M W Z).
Context (worker_outcome : Z -> Py.result Z).
Context (completion_order : list Z -> list Z).

Record driver : Type := { world : W; events : list event }.

Definition emit (e : event) : Py.M driver unit :=
  Py.modify (fun s => {| world := world s; events := events s ++ [e] |}).

Definition lift_result {S A} (r : Py.result A) : Py.M S A :=
  match r with
  | Py.Ok a => Py.ret a
  | Py.Raise e => Py.raise e
  end.

(** [run_losses] as decorated, for one simulation. *)
Definition run_losses (sim_id : Z) : Py.M W Z :=
  retry_on_exception (SIMULATION_MAX_RETRIES - 1) 1 (attempt sim_id).

(** [list(map(f, sims))] *)
Fixpoint list_map {S A B} (f : A -> Py.M S B) (sims : list A) : Py.M S (list B) :=
  match sims with
  | [] => Py.ret []
  | sim :: sims =>
      do r <- f sim;
      do rs <- list_map f sims;
      Py.ret (r :: rs)
  end.

(** [list(pool.imap_unordered(f, sims))]: the iterator hands over the
    results as they arrive and raises, in the parent, the exception of a
    simulation that raised. *)
Fixpoint list_imap_unordered (arrived : list Z) : Py.M driver (list Z) :=
  match arrived with
  | [] => Py.ret []
  | sim :: arrived =>
      do r <- lift_result (worker_outcome sim);
      do_ emit (ResultReceived r);
      do rs <- list_imap_unordered arrived;
      Py.ret (r :: rs)
  end.

Definition project_id_value (a : args) : Py.value :=
  match project_id a with
  | Some p => Py.VStr p
  | None => Py.VNone
  end.

(** [main], from the validation of the arguments on. The seeding of the
    random generator, the logging and the warning about an empty list of
    writers leave no trace here; [lazy_initialize] of a writer that is
    only used for the upload is not reached, its construction raising
    first. The pool is one that [multiprocessing.Pool] can start: a
    negative [--num_processes], for which it raises [ValueError], is left
    out. *)
Definition main (a : args) (fs : simulation_output.filesystem) : Py.M driver unit :=
  do_ lift_result (validate_arguments a);
  do csv_writer <-
    (if output_csv a then
       do w <- lift_result (setup_csv_writer fs (Py.VStr (csv_output_dir a))
                              (Py.VBool (csv_overwrite a)));
       Py.ret [CsvWriter w]
     else Py.ret []);
  do bigquery_writer <-
    (if output_bigquery a || upload_csv_to_bigquery_overwrite a then
       do w <- lift_result (setup_bigquery_writer (project_id_value a)
                              (Py.VStr (bigquery_dataset a)));
       Py.ret (if output_bigquery a then [BigqueryWriter w] else [])
     else Py.ret []);
  let output_writers := csv_writer ++ bigquery_writer in
  let sims := seqZ 0 (num_simulations a) in
  if negb (multiprocessing a) || bool_decide (num_processes a = Some 1) then
    do_ emit (SerialOutputCreated output_writers);
    do_ Py.zoom world (fun w s => {| world := w; events := events s |})
          (list_map run_losses sims);
    Py.ret tt
  else
    do_ emit PoolCreated;
    do_ emit LoggingThreadStarted;
    do_ emit (OutputProcessStarted output_writers);
    do_ list_imap_unordered (completion_order sims);
    do_ emit OutputsStopped;
    do_ emit OutputProcessJoined;
    do_ (if upload_csv_to_bigquery_overwrite a then emit CsvUploaded else Py.ret tt);
    do_ emit LoggingThreadStopped;
    do_ emit LoggingThreadJoined;
    do_ emit PoolClosed;
    emit PoolJoined.

End Driver.

Global Arguments driver : clear implicits.

End generate_losses.

(** ** main.py: the cloud function *)

Module cloud_main.

Definition STORM_TYPE_HAIL := "hail".
Definition SUPPORTED_STORM_TYPES : list string := [STORM_TYPE_HAIL].

Section StartSimulation.

(** [W] is what the trial acts on; the log is the second component of the
    state. [PROJECT_ID] and [BIGQUERY_OUTPUT_DATASET] come from the
    environment. *)
Context {W : Type}.
Context (PROJECT_ID : Py.value) (BIGQUERY_OUTPUT_DATASET : Py.value).
Context (run_losses : list simulation_output.BigqueryRowWriter -> Z -> Py.M W Z).

Definition log (line : string) : Py.M (W * list string) unit :=
  Py.modify (fun s => (fst s, snd s ++ [line])).

Definition _start_simulation (storm_type : string) (sim_id : Z) (output_bigquery : bool)
    : Py.M (W * list string) unit :=
  if negb (existsb (String.eqb storm_type) SUPPORTED_STORM_TYPES) then
    log "Unsupported storm type. Ignoring request"
  else
    do_ log "Starting simulation";
    do_ (if String.eqb storm_type STORM_TYPE_HAIL then
           do output_writers <-
             (if output_bigquery then
                match generate_losses.setup_bigquery_writer
                        PROJECT_ID BIGQUERY_OUTPUT_DATASET with
                | Py.Ok w => Py.ret [w]
                | Py.Raise e => Py.raise e
                end
              else
                do_ log "Running simulation without output.";
                Py.ret []);
           fun s =>
             match run_losses output_writers sim_id (fst s) with
             | (Py.Ok _, w) => (Py.Ok tt, (w, snd s))
             | (Py.Raise e, w) =>
                 (Py.Ok tt, (w, snd s ++ ["Simulation failed."; "Exception from simulation"]))
             end
         else log "Did nothing for storm");
    log "Simulation took".

End StartSimulation.

Definition DEFAULT_STORM_TYPE := STORM_TYPE_HAIL.
Definition DEFAULT_NUM_SIMS : Z := 3.
Definition DEFAULT_OUTPUT_BIGQUERY : bool := true.

(** The values of a JSON document, numbers with a fraction left out;
    [JNull] is [None]. *)
#[local] Unset Elimination Schemes.
Inductive json : Type :=
| JNull
| JBool (b : bool)
| JInt (z : Z)
| JStr (s : string)
| JList (items : list json)
| JObject (members : list (string * json)).
#[local] Set Elimination Schemes.

Definition truthy_json (v : json) : bool :=
  match v with
  | JNull => false
  | JBool b => b
  | JInt z => Py.truthy_int z
  | JStr s => Py.truthy_str s
  | JList items => Py.truthy_list items
  | JObject members => Py.truthy_list members
  end.

(** [v == s] for a string [s] *)
Definition json_eq_str (v : json) (s : string) : bool :=
  match v with
  | JStr s' => String.eqb s' s
  | _ => false
  end.

(** [d.get(k, default)] *)
Definition json_get (d : list (string * json)) (k : string) (default : json) : json :=
  match Py.dict_get d k with
  | Some v => v
  | None => default
  end.

(** The message that [_trigger_simulations] builds for one simulation. *)
Record simulation_message : Type := {
  msg_storm_type : json;
  msg_sim_id : Z;
  msg_output_bigquery : json;
  msg_state : json;
  msg_run_timestamp : Z
}.

(** What [_decode_message_data] returns for an event: the fields of the
    dictionary that [run_storm_simulation] reads, [None] for an absent
    key. The two required fields, where present, are the ints that the
    publisher sends. *)
Record event_data : Type := {
  data_sim_id : option Z;
  data_run_timestamp : option Z;
  data_storm_type : option json;
  data_output_bigquery : option json;
  data_state : option json
}.

(** The data of the event that carries a published message: the message
    is dumped as JSON and encoded by the publisher, decoded and loaded by
    the subscriber. *)
Definition decoded (m : simulation_message) : event_data :=
  {| data_sim_id := Some (msg_sim_id m);
     data_run_timestamp := Some (msg_run_timestamp m);
     data_storm_type := Some (msg_storm_type m);
     data_output_bigquery := Some (msg_output_bigquery m);
     data_state := Some (msg_state m) |}.

(** The Flask request, as far as the handler reads it: [get_json] is the
    result of [request.get_json(silent=True)]. *)
Record request : Type := { method : string; get_json : option json }.

(** The body of the response: ['OK'] or [str(run_timestamp)]. *)
Inductive response : Type :=
| ResponseOK
| ResponseTimestamp (run_timestamp : Z).

(** The topic side of the trigger: the messages published, oldest first,
    each with the topic it went to, and the log. *)
Record pubsub : Type := {
  published : list (json * simulation_message);
  trigger_log : list string
}.

Section CloudFunctions.

Context {W : Type}.
Context (PROJECT_ID BIGQUERY_OUTPUT_DATASET : Py.value).
(** [PUBSUB_TOPIC] and the truth value of [SKIP_PUBSUB], from the
    environment. *)
Context (PUBSUB_TOPIC : string) (SKIP_PUBSUB : bool).
(** What the Pub/Sub client answers to the publication of a message on a
    topic, whether [Publisher.client()] returns a client, and [int] on a
    string. *)
Context (publish_outcome : json -> simulation_message -> Py.result unit).
Context (client_outcome : Py.result unit).
Context (int_of_str : string -> option Z).
(** The trial, given [run_timestamp] and [states]. *)
Context (run_losses : Z -> json -> list simulation_output.BigqueryRowWriter -> Z -> Py.M W Z).

Definition trigger_logging (line : string) : Py.M pubsub unit :=
  Py.modify (fun s => {| published := published s; trigger_log := trigger_log s ++ [line] |}).

(** [Publisher.publish(client, PROJECT_ID, topic, message)] *)
Definition publish (topic : json) (message : simulation_message) : Py.M pubsub unit :=
  match publish_outcome topic message with
  | Py.Ok _ =>
      Py.modify (fun s => {| published := published s ++ [(topic, message)];
                             trigger_log := trigger_log s |})
  | Py.Raise e => Py.raise e
  end.

(** [now] is [int(time.time())]. *)
Definition _trigger_simulations (storm_type : json) (num_sims : Z)
    (output_bigquery states topic : json) (now : Z) : Py.M pubsub Z :=
  let storm_type := if truthy_json storm_type then storm_type else JStr DEFAULT_STORM_TYPE in
  let num_sims := if Py.truthy_int num_sims then num_sims else DEFAULT_NUM_SIMS in
  let output_bigquery :=
    match output_bigquery with
    | JNull => JBool DEFAULT_OUTPUT_BIGQUERY
    | _ => output_bigquery
    end in
  let topic := if truthy_json topic then topic else JStr PUBSUB_TOPIC in
  let run_timestamp := now in
  do_ (if negb (existsb (json_eq_str storm_type) SUPPORTED_STORM_TYPES) then
         trigger_logging "Unsupported storm type. Ignoring request"
       else Py.ret tt);
  do_ trigger_logging "Starting simulations";
  do client <- (match client_outcome with
                | Py.Ok client => Py.ret client
                | Py.Raise e => Py.raise e
                end);
  do_ Py.for_each
        (fun sim_id =>
           let message := {| msg_storm_type := storm_type;
                             msg_sim_id := sim_id;
                             msg_output_bigquery := output_bigquery;
                             msg_state := states;
                             msg_run_timestamp := run_timestamp |} in
           if SKIP_PUBSUB then trigger_logging "***DEBUG MODE*** Skipping Sim"
           else
             do_ trigger_logging "Triggering Sim";
             publish topic message)
        (seqZ 0 num_sims);
  do_ trigger_logging "All simulation events sent.";
  Py.ret run_timestamp.

(** [int(x)] for a value of a JSON document *)
Definition int_of_json (v : json) : Py.result Z :=
  match v with
  | JInt z => Py.Ok z
  | JBool b => Py.Ok (if b then 1 else 0)%Z
  | JStr s =>
      match int_of_str s with
      | Some z => Py.Ok z
      | None => Py.Raise (Py.ValueError "invalid literal for int() with base 10")
      end
  | _ => Py.Raise (Py.TypeError "int() argument must be a string or a real number")
  end.

Definition trigger_simulation_events (r : request) (now : Z) : Py.M pubsub response :=
  if String.eqb (method r) "GET" then Py.ret ResponseOK
  else
    let no_data :=
      do_ trigger_logging "Handler called with no JSON request data.";
      Py.ret ResponseOK in
    match get_json r with
    | None => no_data
    | Some request_json =>
        if negb (truthy_json request_json) then no_data
        else
          do_ trigger_logging "Incoming simulation request";
          match request_json with
          | JObject request_json =>
              let storm_type := json_get request_json "storm_type" JNull in
              let output_bigquery := json_get request_json "output_bigquery" JNull in
              let states := json_get request_json "states" JNull in
              let topic := json_get request_json "topic" JNull in
              fun s =>
                let tried :=
                  match int_of_json (json_get request_json "num_sims"
                                       (JInt DEFAULT_NUM_SIMS)) with
                  | Py.Ok num_sims =>
                      _trigger_simulations storm_type num_sims output_bigquery states topic
                        now s
                  | Py.Raise e => (Py.Raise e, s)
                  end in
                match tried with
                | (Py.Ok run_timestamp, s) => (Py.Ok (ResponseTimestamp run_timestamp), s)
                | (Py.Raise _, s) =>
                    (Py.Ok ResponseOK,
                     {| published := published s;
                        trigger_log := trigger_log s ++
                          ["Failed to trigger simulations. Failing quietly."] |})
                end
          | _ => Py.raise (Py.AttributeError "object has no attribute 'get'")
          end
    end.

(** [cloud_event] is the outcome of [_decode_message_data(cloud_event)].
    A storm type that is not a string is in no list of strings. *)
Definition run_storm_simulation (cloud_event : Py.result event_data)
    : Py.M (W * list string) unit :=
  fun s =>
    let tried :=
      match cloud_event with
      | Py.Raise e => (Py.Raise e, s)
      | Py.Ok data =>
          match data_sim_id data, data_run_timestamp data with
          | None, _ => (Py.Raise (Py.KeyError "sim_id"), s)
          | Some _, None => (Py.Raise (Py.KeyError "run_timestamp"), s)
          | Some sim_id, Some run_timestamp =>
              let storm_type := default (JStr DEFAULT_STORM_TYPE) (data_storm_type data) in
              let output_bigquery :=
                default (JBool DEFAULT_OUTPUT_BIGQUERY) (data_output_bigquery data) in
              let states := default JNull (data_state data) in
              match storm_type with
              | JStr storm_type =>
                  _start_simulation PROJECT_ID BIGQUERY_OUTPUT_DATASET
                    (run_losses run_timestamp states)
                    storm_type sim_id (truthy_json output_bigquery) s
              | _ => log "Unsupported storm type. Ignoring request" s
              end
          end
      end in
    match tried with
    | (Py.Ok _, s) => (Py.Ok tt, s)
    | (Py.Raise _, s) => (Py.Ok tt, (fst s, snd s ++ ["Failed to process simulation event"]))
    end.

End CloudFunctions.

End cloud_main.

(** * Properties *)

Import Py.

(** ** Dictionaries *)

Section DictFacts.

Context {V : Type}.
Implicit Types (d : dict V) (k : string) (v : V).

Lemma dict_get_set_eq d k v : dict_get (dict_set d k v) k = Some v.
Proof.
  induction d as [|[k' v'] d IH]; simpl.
  - by rewrite String.eqb_refl.
  - destruct (String.eqb k' k) eqn:E; simpl; rewrite E; [done | apply IH].
Qed.

Lemma dict_get_set_ne d k k' v :
  k <> k' -> dict_get (dict_set d k v) k' = dict_get d k'.
Proof.
  intros Hne. induction d as [|[k0 v0] d IH]; simpl.
  - destruct (String.eqb k k') eqn:E; [|done].
    apply String.eqb_eq in E. contradiction.
  - destruct (String.eqb k0 k) eqn:E; simpl.
    + apply String.eqb_eq in E. subst k0.
      destruct (String.eqb k k') eqn:E'; [|done].
      apply String.eqb_eq in E'. contradiction.
    + by rewrite IH.
Qed.

Lemma dict_keys_set_present d k v :
  is_Some (dict_get d k) -> dict_keys (dict_set d k v) = dict_keys d.
Proof.
  unfold dict_keys. induction d as [|[k' v'] d IH]; simpl; intros [x Hx]; [done|].
  destruct (String.eqb k' k) eqn:E; simpl; [done|]. f_equal. apply IH. eauto.
Qed.

Lemma dict_keys_set_absent d k v :
  dict_get d k = None -> dict_keys (dict_set d k v) = dict_keys d ++ [k].
Proof.
  unfold dict_keys. induction d as [|[k' v'] d IH]; simpl; intros Hx; [done|].
  destruct (String.eqb k' k) eqn:E; simpl; [done|]. f_equal. by apply IH.
Qed.

End DictFacts.

(** ** The sampling loops of [run_losses] *)

Section SamplingFacts.

Import generate_losses.
Local Open Scope Z_scope.

Context {coordinates : Type} (zip_to_prem : gmap string Z).
Implicit Types (s : sampling coordinates) (p : property coordinates).

Lemma ceiling_reached_state p s r s' :
  ceiling_reached p s = (r, s') -> s' = s.
Proof.
  unfold ceiling_reached, bind, get, subscript, ret, raise. simpl.
  repeat case_match; intros; simplify_eq; done.
Qed.

Lemma ceiling_reached_false p s s' :
  ceiling_reached p s = (Ok false, s') ->
  d_total (exposure_dictionary s) <= total_agg_limit - 15000.
Proof.
  unfold ceiling_reached, bind, get, subscript, ret, raise. simpl.
  destruct (_ <? _) eqn:E; [intros; simplify_eq|]. lia.
Qed.

Lemma iadd_levels_total a b c amount (d d' : geo_dict) :
  iadd_levels a b c amount d = (Ok tt, d') -> d_total d' = d_total d + amount.
Proof.
  unfold iadd_levels, iadd_total, iadd_state, iadd_county, iadd_zip,
    bind, get, put, modify, subscript, ret, raise. simpl.
  repeat case_match; intros; simplify_eq; done.
Qed.

Lemma add_property_total p s s' :
  add_property zip_to_prem p s = (Ok tt, s') ->
  d_total (exposure_dictionary s') = d_total (exposure_dictionary s) + prop_limit p.
Proof.
  unfold add_property, on_exposure, on_premium, zoom, bind, modify, ret, raise.
  destruct (zip_to_prem !! _); [|intros; simplify_eq].
  destruct (iadd_levels _ _ _ (prop_limit p) _) as [[[]|e] d1] eqn:E1;
    simpl; [|intros; simplify_eq].
  destruct (iadd_levels _ _ _ (Z.max _ _) _) as [[[]|e] d2] eqn:E2;
    simpl; intros; simplify_eq.
  simpl. by apply iadd_levels_total in E1.
Qed.

Lemma sample_properties_trace_bound curr_props s :
  Forall (fun '(p, s') =>
            d_total (exposure_dictionary s') <= total_agg_limit - 15000 + prop_limit p)
         (sample_properties_trace zip_to_prem curr_props s).
Proof.
  revert s. induction curr_props as [|p rest IH]; intros s; simpl; [constructor|].
  destruct (ceiling_reached p s) as [[[]|e] s1] eqn:Hc; try constructor.
  destruct (add_property zip_to_prem p s1) as [[[]|e] s2] eqn:Ha; try constructor; [|apply IH].
  pose proof (ceiling_reached_state _ _ _ _ Hc) as ->.
  apply ceiling_reached_false in Hc. apply add_property_total in Ha. lia.
Qed.

Lemma sample_states_trace_bound samples s :
  Forall (fun '(p, s') =>
            d_total (exposure_dictionary s') <= total_agg_limit - 15000 + prop_limit p)
         (sample_states_trace zip_to_prem samples s).
Proof.
  revert s. induction samples as [|curr_props rest IH]; intros s; simpl; [constructor|].
  apply Forall_app. split; [apply sample_properties_trace_bound|].
  repeat case_match; try constructor. apply IH.
Qed.

(** The trace ends in the state that the loop ends in. *)
Lemma sample_properties_trace_last curr_props s s' :
  sample_properties zip_to_prem curr_props s = (Ok tt, s') ->
  last (s :: map snd (sample_properties_trace zip_to_prem curr_props s)) = Some s'.
Proof.
  revert s. induction curr_props as [|p rest IH]; intros s; simpl.
  - unfold ret. by intros [= <-].
  - unfold bind at 1.
    destruct (ceiling_reached p s) as [[[]|e] s1] eqn:Hc;
      pose proof (ceiling_reached_state _ _ _ _ Hc) as ->.
    + unfold ret. by intros [= <-].
    + unfold bind at 1.
      destruct (add_property zip_to_prem p s) as [[[]|e] s2] eqn:Ha; [|done].
      intros Hrest. apply IH in Hrest. by simpl.
    + done.
Qed.

Lemma last_app_cons_some {A} (x y : A) (l1 l2 : list A) :
  last (x :: l1) = Some y -> last (x :: l1 ++ l2) = last (y :: l2).
Proof.
  revert x. induction l1 as [|z l1 IH]; intros x; simpl.
  - by intros [= ->].
  - intros H. exact (IH z H).
Qed.

Lemma sample_states_trace_last samples s s' :
  sample_states zip_to_prem samples s = (Ok tt, s') ->
  last (s :: map snd (sample_states_trace zip_to_prem samples s)) = Some s'.
Proof.
  revert s. induction samples as [|curr_props rest IH]; intros s; simpl.
  - unfold ret. by intros [= <-].
  - unfold bind at 1.
    destruct (sample_properties zip_to_prem curr_props s) as [[[]|e] s1] eqn:Hp; [|done].
    apply sample_properties_trace_last in Hp.
    unfold bind, get. rewrite map_app.
    rewrite (last_app_cons_some _ _ _ _ Hp).
    destruct (_ <? _).
    + unfold ret. by intros [= <-].
    + apply IH.
Qed.

(** C1. Every addition that the sampling loops of one trial perform leaves
    the exposure total at most the amount just added above
    [total_agg_limit]; the additions listed are all of them, the last one
    giving the locals that the loops end with. *)
Theorem exposure_total_exceeds_ceiling_by_at_most_last_limit
    (samples : list (list (property coordinates))) s0 :
  Forall (fun '(p, s) =>
            d_total (exposure_dictionary s) <= total_agg_limit + prop_limit p)
         (sample_states_trace zip_to_prem samples s0)
  /\ (forall s', sample_states zip_to_prem samples s0 = (Ok tt, s') ->
        last (s0 :: map snd (sample_states_trace zip_to_prem samples s0)) = Some s').
Proof.
  split; [|apply sample_states_trace_last].
  eapply Forall_impl; [apply sample_states_trace_bound|].
  intros [p s]. lia.
Qed.

Lemma iadd_levels_ok a b c amount (d : geo_dict) va vb vc :
  dict_get (d_state d) a = Some va ->
  dict_get (d_county d) b = Some vb ->
  dict_get (d_zip d) c = Some vc ->
  iadd_levels a b c amount d =
    (Ok tt, {| d_total := d_total d + amount;
               d_state := dict_set (d_state d) a (va + amount);
               d_county := dict_set (d_county d) b (vb + amount);
               d_zip := dict_set (d_zip d) c (vc + amount) |}).
Proof.
  intros Ha Hb Hc.
  unfold iadd_levels, iadd_total, iadd_state, iadd_county, iadd_zip,
    bind, get, put, modify, subscript, ret, raise. simpl.
  rewrite Ha. simpl. rewrite Hb. simpl. rewrite Hc. done.
Qed.

Lemma add_property_ok p s va vb vc wa wb wc rate :
  dict_get (d_state (exposure_dictionary s)) (prop_state p) = Some va ->
  dict_get (d_county (exposure_dictionary s)) (prop_county p) = Some vb ->
  dict_get (d_zip (exposure_dictionary s)) (prop_zip_code p) = Some vc ->
  dict_get (d_state (premium_dictionary s)) (prop_state p) = Some wa ->
  dict_get (d_county (premium_dictionary s)) (prop_county p) = Some wb ->
  dict_get (d_zip (premium_dictionary s)) (prop_zip_code p) = Some wc ->
  zip_to_prem !! prop_zip_code p = Some rate ->
  exists s',
    add_property zip_to_prem p s = (Ok tt, s')
    /\ exposure_dictionary s' =
         {| d_total := d_total (exposure_dictionary s) + prop_limit p;
            d_state := dict_set (d_state (exposure_dictionary s)) (prop_state p)
                         (va + prop_limit p);
            d_county := dict_set (d_county (exposure_dictionary s)) (prop_county p)
                          (vb + prop_limit p);
            d_zip := dict_set (d_zip (exposure_dictionary s)) (prop_zip_code p)
                       (vc + prop_limit p) |}
    /\ premium_dictionary s' =
         {| d_total := d_total (premium_dictionary s) + Z.max 100 rate;
            d_state := dict_set (d_state (premium_dictionary s)) (prop_state p)
                         (wa + Z.max 100 rate);
            d_county := dict_set (d_county (premium_dictionary s)) (prop_county p)
                          (wb + Z.max 100 rate);
            d_zip := dict_set (d_zip (premium_dictionary s)) (prop_zip_code p)
                       (wc + Z.max 100 rate) |}.
Proof.
  intros Ha Hb Hc Ka Kb Kc Hr.
  unfold add_property, on_exposure, on_premium, zoom, bind, modify, ret, raise.
  rewrite Hr.
  rewrite (iadd_levels_ok _ _ _ _ _ _ _ _ Ha Hb Hc). simpl.
  rewrite (iadd_levels_ok _ _ _ _ _ _ _ _ Ka Kb Kc). simpl.
  eexists. split; [reflexivity|]. simpl. done.
Qed.

(** C2, as amended. The test before an addition is strict: the addition is
    skipped, nothing is incremented and the loop over the current region
    ends when the exposure total is greater than
    [total_agg_limit - 15000] or the total of the property's state is
    greater than [state_agg_limit - 15000]; otherwise, equality with a
    threshold included, the four levels of the exposure (and of the
    premium) are incremented and the loop goes on. The levels are those of
    a property whose state, county and zip code are keys of the two
    dictionaries and whose zip code has a premium rate. *)
Theorem ceiling_test_is_strict_and_guards_all_levels
    p (rest : list (property coordinates)) s va vb vc wa wb wc rate :
  dict_get (d_state (exposure_dictionary s)) (prop_state p) = Some va ->
  dict_get (d_county (exposure_dictionary s)) (prop_county p) = Some vb ->
  dict_get (d_zip (exposure_dictionary s)) (prop_zip_code p) = Some vc ->
  dict_get (d_state (premium_dictionary s)) (prop_state p) = Some wa ->
  dict_get (d_county (premium_dictionary s)) (prop_county p) = Some wb ->
  dict_get (d_zip (premium_dictionary s)) (prop_zip_code p) = Some wc ->
  zip_to_prem !! prop_zip_code p = Some rate ->
  if (total_agg_limit - 15000 <? d_total (exposure_dictionary s))
     || (state_agg_limit - 15000 <? va)
  then sample_properties zip_to_prem (p :: rest) s = (Ok tt, s)
  else exists s',
    sample_properties zip_to_prem (p :: rest) s = sample_properties zip_to_prem rest s'
    /\ add_property zip_to_prem p s = (Ok tt, s')
    /\ d_total (exposure_dictionary s') = d_total (exposure_dictionary s) + prop_limit p
    /\ dict_get (d_state (exposure_dictionary s')) (prop_state p) = Some (va + prop_limit p)
    /\ dict_get (d_county (exposure_dictionary s')) (prop_county p) = Some (vb + prop_limit p)
    /\ dict_get (d_zip (exposure_dictionary s')) (prop_zip_code p) = Some (vc + prop_limit p)
    /\ d_total (premium_dictionary s') = d_total (premium_dictionary s) + Z.max 100 rate
    /\ dict_get (d_state (premium_dictionary s')) (prop_state p) = Some (wa + Z.max 100 rate)
    /\ dict_get (d_county (premium_dictionary s')) (prop_county p) = Some (wb + Z.max 100 rate)
    /\ dict_get (d_zip (premium_dictionary s')) (prop_zip_code p) = Some (wc + Z.max 100 rate).
Proof.
  intros Ha Hb Hc Ka Kb Kc Hr.
  assert (Hguard : ceiling_reached p s =
            (Ok ((total_agg_limit - 15000 <? d_total (exposure_dictionary s))
                 || (state_agg_limit - 15000 <? va)), s)).
  { unfold ceiling_reached, bind, get, subscript, ret. simpl.
    destruct (_ <? d_total _); [done|]. rewrite Ha. reflexivity. }
  destruct (_ || _).
  - simpl. unfold bind at 1. by rewrite Hguard.
  - destruct (add_property_ok p s _ _ _ _ _ _ _ Ha Hb Hc Ka Kb Kc Hr)
      as (s' & Hadd & He & Hp).
    exists s'. split.
    { simpl. unfold bind at 1. rewrite Hguard. unfold bind at 1. by rewrite Hadd. }
    split; [done|].
    rewrite He, Hp. simpl. rewrite !dict_get_set_eq. done.
Qed.

End SamplingFacts.

(** Concrete locals and a concrete property for the sampling loops. *)
Module sampling_examples.

Import generate_losses.
Local Open Scope Z_scope.

Definition zero_dict : geo_dict :=
  {| d_total := 0;
     d_state := [("AR", 0); ("GA", 0)];
     d_county := [("Stone", 0); ("Catoosa", 0)];
     d_zip := [("72560", 0); ("30736", 0)] |}.

(** An exposure total that equals [total_agg_limit - 15000]. *)
Definition at_threshold : geo_dict :=
  {| d_total := 199985000;
     d_state := [("AR", 0); ("GA", 79000000)];
     d_county := [("Stone", 0); ("Catoosa", 0)];
     d_zip := [("72560", 0); ("30736", 0)] |}.

Definition locals_at_threshold : sampling unit :=
  {| exposure_dictionary := at_threshold; premium_dictionary := zero_dict;
     exposures := [] |}.

Definition locals_at_start : sampling unit :=
  {| exposure_dictionary := zero_dict; premium_dictionary := zero_dict;
     exposures := [] |}.

Definition stone_property : property unit :=
  {| prop_state := "AR"; prop_county := "Stone"; prop_zip_code := "72560";
     prop_limit := 100000; prop_location := tt |}.

Definition rates : gmap string Z := {[ "72560" := 42 ]}.

End sampling_examples.

Section SamplingExamples.

Import generate_losses sampling_examples.
Local Open Scope Z_scope.

Lemma ceiling_test_is_strict_and_guards_all_levels_witness :
  exists s',
    sample_properties rates [stone_property] locals_at_start
      = sample_properties rates [] s'
    /\ add_property rates stone_property locals_at_start = (Ok tt, s')
    /\ d_total (exposure_dictionary s') = 100000
    /\ dict_get (d_state (exposure_dictionary s')) "AR" = Some 100000
    /\ dict_get (d_county (exposure_dictionary s')) "Stone" = Some 100000
    /\ dict_get (d_zip (exposure_dictionary s')) "72560" = Some 100000
    /\ d_total (premium_dictionary s') = 100
    /\ dict_get (d_state (premium_dictionary s')) "AR" = Some 100
    /\ dict_get (d_county (premium_dictionary s')) "Stone" = Some 100
    /\ dict_get (d_zip (premium_dictionary s')) "72560" = Some 100.
Proof.
  exact (ceiling_test_is_strict_and_guards_all_levels rates stone_property []
           locals_at_start 0 0 0 0 0 0 42
           eq_refl eq_refl eq_refl eq_refl eq_refl eq_refl eq_refl).
Defined.

(** The reading of C2 with a non-strict test: a property met when the
    exposure total, or the total of its state, has reached the threshold is
    skipped and leaves the locals as they are. *)
Definition skips_at_or_above_threshold
    (zip_to_prem : gmap string Z) (s : sampling unit) (p : property unit) : Prop :=
  forall state_total,
    dict_get (d_state (exposure_dictionary s)) (prop_state p) = Some state_total ->
    d_total (exposure_dictionary s) >= total_agg_limit - 15000
    \/ state_total >= state_agg_limit - 15000 ->
    sample_properties zip_to_prem [p] s = (Ok tt, s).

(** C2, as stated, fails when the exposure total equals the threshold: the
    property is added and the total becomes 200085000. *)
Lemma ceiling_test_at_threshold_still_adds :
  d_total (exposure_dictionary locals_at_threshold) = total_agg_limit - 15000
  /\ d_total (exposure_dictionary
               (snd (sample_properties rates [stone_property] locals_at_threshold)))
     = 200085000
  /\ ~ skips_at_or_above_threshold rates locals_at_threshold stone_property.
Proof.
  split; [reflexivity|]. split; [vm_compute; reflexivity|].
  intros H. specialize (H 0 eq_refl).
  assert (Hge : d_total (exposure_dictionary locals_at_threshold) >= total_agg_limit - 15000
                \/ 0 >= state_agg_limit - 15000) by (left; vm_compute; discriminate).
  specialize (H Hge).
  apply (f_equal (fun r => d_total (exposure_dictionary (snd r)))) in H.
  vm_compute in H. discriminate.
Qed.

End SamplingExamples.

(** ** The storm loop of [run_losses] *)

Section StormFacts.

Import generate_losses.
Local Open Scope Z_scope.

Context {geometry : Type}.
Implicit Types (candidates : list (option (storm.polygon geometry))).

(** The candidates that are polygons, in order. *)
Fixpoint valid_storms candidates : list (storm.polygon geometry) :=
  match candidates with
  | [] => []
  | Some sample_storm :: candidates => sample_storm :: valid_storms candidates
  | None :: candidates => valid_storms candidates
  end.

Lemma generate_storms_from candidates limit num_storms storms :
  num_storms <= limit + 1 ->
  limit + 1 - num_storms <= Z.of_nat (length (valid_storms candidates)) ->
  generate_storms candidates limit num_storms storms =
    Some (storms ++ take (Z.to_nat (limit + 1 - num_storms)) (valid_storms candidates),
          limit + 1).
Proof.
  revert num_storms storms.
  induction candidates as [|c candidates IH]; intros n storms Hn Hlen.
  - simpl in *. assert (n = limit + 1) as -> by lia.
    replace (limit + 1 <=? limit) with false by lia.
    simpl. by rewrite take_nil, app_nil_r.
  - simpl. destruct (n <=? limit) eqn:E.
    + apply Z.leb_le in E. destruct c as [x|].
      * simpl in *. rewrite IH by lia.
        replace (Z.to_nat (limit + 1 - n)) with (S (Z.to_nat (limit + 1 - (n + 1)))) by lia.
        simpl. by rewrite <- app_assoc.
      * simpl in *. apply IH; lia.
    + apply Z.leb_gt in E. assert (n = limit + 1) as -> by lia.
      replace (Z.to_nat (limit + 1 - (limit + 1))) with 0%nat by lia.
      simpl. by rewrite app_nil_r.
Qed.

(** C7, what the loop does: with a target [limit] drawn from [950, 2050]
    and candidates of which at least [limit + 1] are polygons, the loop
    returns, skips the candidates that are not polygons without counting
    them, and keeps the first [limit + 1] polygons: one more than the
    target. *)
Theorem generate_storms_keeps_limit_plus_one candidates limit :
  950 <= limit <= 2050 ->
  limit + 1 <= Z.of_nat (length (valid_storms candidates)) ->
  exists storms,
    generate_storms candidates limit 0 [] = Some (storms, limit + 1)
    /\ storms = take (Z.to_nat (limit + 1)) (valid_storms candidates)
    /\ Z.of_nat (length storms) = limit + 1.
Proof.
  intros Hl Hlen. eexists. split; [|split; [reflexivity|]].
  - rewrite generate_storms_from by lia. simpl. by rewrite Z.sub_0_r.
  - rewrite length_take. lia.
Qed.

End StormFacts.

Section StormExamples.

Import generate_losses.
Local Open Scope Z_scope.

Definition hail : storm.polygon unit :=
  {| storm.polygon_geometry := tt; storm.payout := 10000; storm.severity := "1.75" |}.

Lemma generate_storms_keeps_limit_plus_one_witness :
  exists storms,
    generate_storms (None :: repeat (Some hail) 951) 950 0 [] = Some (storms, 951)
    /\ storms = take (Z.to_nat 951) (valid_storms (None :: repeat (Some hail) 951))
    /\ Z.of_nat (length storms) = 951.
Proof.
  apply (generate_storms_keeps_limit_plus_one (None :: repeat (Some hail) 951) 950).
  - lia.
  - vm_compute. discriminate.
Defined.

End StormExamples.

(** ** BufferedOutputStream *)

Section BufferedOutputStreamFacts.

Import simulation_output.

Context {Row : Type}.
Implicit Types (self : BufferedOutputStream Row) (outputs : OutputFanout Row).
Implicit Types (b : dict (list Row)) (w : BufferedOutputStream Row * OutputFanout Row).

(** The messages of one flush: one per buffered kind whose list is not
    empty, in the order in which the kinds entered the buffer. *)
Definition flush_messages b : list (string * rows_arg Row) :=
  map (fun item => (fst item, Many (snd item)))
      (List.filter (fun item => truthy_list (snd item)) b).

(** A sequence of [add] calls. *)
Definition add_all (calls : list (string * rows_arg Row)) w
    : BufferedOutputStream Row * OutputFanout Row :=
  fold_left (fun w call => add (fst call) (snd call) w) calls w.

Lemma flush_items_messages b outputs :
  flush_items b outputs = outputs ++ flush_messages b.
Proof.
  revert outputs. induction b as [|[k rows] b IH]; intros outputs; simpl.
  - by rewrite app_nil_r.
  - rewrite IH. unfold flush_messages. simpl.
    destruct (truthy_list rows); simpl; [|done].
    unfold send. by rewrite <- app_assoc.
Qed.

Lemma flush_spec self outputs :
  flush (self, outputs) =
    ({| per_output_max_rows := per_output_max_rows self;
        total_buffer_max_rows := total_buffer_max_rows self;
        total_in_buffer := 0;
        buffer := [];
        flush_calls := S (flush_calls self) |},
     outputs ++ flush_messages (buffer self)).
Proof. unfold flush, _init_buffer. simpl. by rewrite flush_items_messages. Qed.

Lemma flush_messages_empty b :
  Forall (fun item => snd item = []) b -> flush_messages b = [].
Proof.
  induction 1 as [|[k rows] b Hrows _ IH]; [done|].
  simpl in Hrows. subst rows. unfold flush_messages in *. simpl. exact IH.
Qed.

Lemma flush_messages_keys_sublist b :
  sublist (map fst (flush_messages b)) (dict_keys b).
Proof.
  unfold flush_messages, dict_keys. induction b as [|[k rows] b IH]; simpl; [done|].
  destruct (truthy_list rows); simpl.
  - by apply sublist_skip.
  - by apply sublist_cons.
Qed.

Lemma dict_get_None_keys {V} (d : dict V) k :
  dict_get d k = None -> k ∉ dict_keys d.
Proof.
  unfold dict_keys. induction d as [|[k' v] d IH]; simpl.
  - intros _. apply not_elem_of_nil.
  - destruct (String.eqb k' k) eqn:E; [done|]. intros H.
    apply not_elem_of_cons. split; [|by apply IH].
    intros ->. by rewrite String.eqb_refl in E.
Qed.

Lemma extend_keys name rows self :
  dict_keys (buffer (extend name rows self)) =
    match dict_get (buffer self) name with
    | Some _ => dict_keys (buffer self)
    | None => dict_keys (buffer self) ++ [name]
    end.
Proof.
  unfold extend. simpl. destruct (dict_get (buffer self) name) eqn:E.
  - apply dict_keys_set_present. eauto.
  - by apply dict_keys_set_absent.
Qed.

Lemma extend_keys_NoDup name rows self :
  NoDup (dict_keys (buffer self)) -> NoDup (dict_keys (buffer (extend name rows self))).
Proof.
  intros Hnd. rewrite extend_keys. destruct (dict_get (buffer self) name) eqn:E; [done|].
  apply NoDup_app. split; [done|]. split; [|apply NoDup_singleton].
  intros k Hk Hin. apply list_elem_of_singleton in Hin. subst k.
  by apply dict_get_None_keys in E.
Qed.

Lemma add_spec name rows w :
  add name rows w =
    if threshold_reached name (extend name (as_list rows) (fst w))
    then flush (extend name (as_list rows) (fst w), snd w)
    else (extend name (as_list rows) (fst w), snd w).
Proof. by destruct w. Qed.

Lemma add_keys_NoDup name rows w :
  NoDup (dict_keys (buffer (fst w))) -> NoDup (dict_keys (buffer (fst (add name rows w)))).
Proof.
  intros Hnd. rewrite add_spec. destruct (threshold_reached _ _).
  - rewrite flush_spec. simpl. apply NoDup_nil_2.
  - simpl. by apply extend_keys_NoDup.
Qed.

Lemma add_all_keys_NoDup calls w :
  NoDup (dict_keys (buffer (fst w))) ->
  NoDup (dict_keys (buffer (fst (add_all calls w)))).
Proof.
  revert w. induction calls as [|[name rows] calls IH]; intros w Hnd; simpl; [done|].
  apply IH. by apply add_keys_NoDup.
Qed.

Lemma with_stream_spec {S A} (get_outputs : S -> OutputFanout Row)
    (set_outputs : OutputFanout Row -> S -> S) (per_max total_max : Z)
    (body : M (BufferedOutputStream Row * S) A) (s : S) :
  with_stream get_outputs set_outputs per_max total_max body s =
    (fst (body (__init__ per_max total_max, s)),
     set_outputs
       (snd (__exit__ (fst (snd (body (__init__ per_max total_max, s))),
                       get_outputs (snd (snd (body (__init__ per_max total_max, s)))))))
       (snd (snd (body (__init__ per_max total_max, s))))).
Proof.
  unfold with_stream, __enter__. cbn [fst snd].
  change (_init_buffer (__init__ per_max total_max)) with (@__init__ Row per_max total_max).
  destruct (body (__init__ per_max total_max, s)) as [r [output_stream s2]]. cbn [fst snd].
  by destruct (__exit__ (output_stream, get_outputs s2)).
Qed.

Lemma add_all_app (calls1 calls2 : list (string * rows_arg Row)) w :
  add_all (calls1 ++ calls2) w = add_all calls2 (add_all calls1 w).
Proof. apply fold_left_app. Qed.

End BufferedOutputStreamFacts.

(** ** Retrying inserts: [Bigquery.insert_rows] and [BigqueryInsertStream] *)

Section BigqueryFacts.

Import bigquery.

Context {Row : Type}.
Implicit Types (c : Client Row) (t : @table) (rows : list Row).
Implicit Types (self : BigqueryInsertStream Row).

(** The client after one attempt. *)
Definition attempted t rows c : Client Row := snd (insert_rows_attempt t rows c).

Lemma insert_rows_attempt_spec t rows c :
  insert_rows_attempt t rows c =
    (Ok (insert_rows_response c (length (insert_rows_calls c))), attempted t rows c).
Proof. unfold attempted. by destruct t. Qed.

Lemma attempted_response t rows c :
  insert_rows_response (attempted t rows c) = insert_rows_response c.
Proof. by destruct t. Qed.

Lemma attempted_calls t rows c :
  insert_rows_calls (attempted t rows c) = insert_rows_calls c ++ [rows].
Proof. by destruct t. Qed.

Lemma iter_attempted_response t rows n c :
  insert_rows_response (Nat.iter n (attempted t rows) c) = insert_rows_response c.
Proof. induction n as [|n IH]; simpl; [done|]. by rewrite attempted_response. Qed.

Lemma iter_attempted_calls t rows n c :
  insert_rows_calls (Nat.iter n (attempted t rows) c) = insert_rows_calls c ++ replicate n rows.
Proof.
  induction n as [|n IH]; simpl; [by rewrite app_nil_r|].
  rewrite attempted_calls, IH, <- app_assoc. f_equal.
  clear IH. induction n as [|n IH]; simpl; [done|]. by rewrite IH.
Qed.

Lemma iter_attempted_succ t rows n c :
  Nat.iter n (attempted t rows) (attempted t rows c) = Nat.iter (S n) (attempted t rows) c.
Proof. induction n as [|n IH]; simpl; [done|]. by rewrite IH. Qed.

(** The retry loop stops at the first attempt [k] whose result is falsy, or
    at the last attempt allowed, and returns the result of that attempt. *)
Lemma retry_stops_at remaining k t rows c :
  (k <= remaining)%nat ->
  (forall i, (i < k)%nat ->
     insert_rows_response c (length (insert_rows_calls c) + i) <> []) ->
  k = remaining \/ insert_rows_response c (length (insert_rows_calls c) + k) = [] ->
  retry_if_result truthy_list remaining (insert_rows_attempt t rows) c =
    (Ok (insert_rows_response c (length (insert_rows_calls c) + k)),
     Nat.iter (S k) (attempted t rows) c).
Proof.
  revert k c. induction remaining as [|remaining IH]; intros k c Hk Hfail Hstop.
  - assert (k = 0)%nat as -> by lia. simpl. unfold bind.
    rewrite insert_rows_attempt_spec, Nat.add_0_r. by destruct (truthy_list _).
  - simpl. unfold bind. rewrite insert_rows_attempt_spec.
    destruct k as [|k].
    + destruct Hstop as [?|Hstop]; [done|]. rewrite Nat.add_0_r in *. by rewrite Hstop.
    + pose proof (Hfail 0%nat ltac:(lia)) as H0. rewrite Nat.add_0_r in H0.
      destruct (insert_rows_response c (length (insert_rows_calls c))) eqn:E;
        [congruence|]. simpl.
      rewrite (IH k (attempted t rows c)).
      * rewrite attempted_response, attempted_calls, length_app. simpl.
        rewrite iter_attempted_succ.
        by replace (length (insert_rows_calls c) + 1 + k)%nat
          with (length (insert_rows_calls c) + S k)%nat by lia.
      * lia.
      * intros i Hi. rewrite attempted_response, attempted_calls, length_app. simpl.
        replace (length (insert_rows_calls c) + 1 + i)%nat
          with (length (insert_rows_calls c) + S i)%nat by lia.
        apply Hfail. lia.
      * rewrite attempted_response, attempted_calls, length_app. simpl.
        replace (length (insert_rows_calls c) + 1 + k)%nat
          with (length (insert_rows_calls c) + S k)%nat by lia.
        destruct Hstop as [?|?]; [left; lia|by right].
Qed.

(** C4. [flush] on a batch that is not empty. If every call of the insert
    primitive answers with errors, the primitive is called 5 times with
    the batch and [flush] raises [BigqueryInsertStream.Errors] with the
    errors of the fifth call, leaving the batch and the running total as
    they were. If the first two calls answer with errors and the third
    with none, the primitive is called 3 times and [flush] returns, with
    the batch emptied and the running total increased by the size of the
    batch. *)
Theorem flush_retries_insert_up_to_five_times self row rows :
  batch self = Some (row :: rows) ->
  let response := insert_rows_response (client self) in
  let n := length (insert_rows_calls (client self)) in
  ((forall i, response (n + i)%nat <> []) ->
     exists self',
       flush self = (Raise (InsertErrors (response (n + 4)%nat)), self')
       /\ insert_rows_calls (client self')
          = insert_rows_calls (client self) ++ replicate 5 (row :: rows)
       /\ batch self' = batch self
       /\ total self' = total self)
  /\ (response n <> [] -> response (n + 1)%nat <> [] -> response (n + 2)%nat = [] ->
     exists self',
       flush self = (Ok tt, self')
       /\ insert_rows_calls (client self')
          = insert_rows_calls (client self) ++ replicate 3 (row :: rows)
       /\ batch self' = Some []
       /\ total self' = (total self + Z.of_nat (length (row :: rows)))%Z).
Proof.
  intros Hbatch response n. split.
  - intros Hfail.
    pose proof (retry_stops_at 4 4 (stream_table self) (row :: rows) (client self)
                  ltac:(lia) (fun i _ => Hfail i) (or_introl eq_refl)) as Hretry.
    eexists. split; [|split; [|split]].
    + unfold flush, bind, get, zoom, insert_rows. rewrite Hbatch.
      change (INSERT_ROW_RETRY_MAX_RETRIES - 1)%nat with 4%nat. rewrite Hretry.
      fold n response. pose proof (Hfail 4%nat) as H4.
      destruct (response (n + 4)%nat) eqn:E; [congruence|]. reflexivity.
    + rewrite <- (iter_attempted_calls (stream_table self)). reflexivity.
    + done.
    + done.
  - intros H0 H1 H2.
    assert (Hfail : forall i, (i < 2)%nat -> response (n + i)%nat <> []).
    { intros [|[|i]] Hi; [by rewrite Nat.add_0_r|done|lia]. }
    pose proof (retry_stops_at 4 2 (stream_table self) (row :: rows) (client self)
                  ltac:(lia) Hfail (or_intror H2)) as Hretry.
    eexists. split; [|split; [|split]].
    + unfold flush, bind, get, zoom, insert_rows. rewrite Hbatch.
      change (INSERT_ROW_RETRY_MAX_RETRIES - 1)%nat with 4%nat. rewrite Hretry.
      fold n response. rewrite H2. reflexivity.
    + rewrite <- (iter_attempted_calls (stream_table self)). reflexivity.
    + done.
    + done.
Qed.

End BigqueryFacts.

(** ** Statements that keep a property of the state *)

Section Preserves.

Context {St : Type}.

(** [m] keeps [P]: whatever it returns or raises, it leaves a state in
    which [P] still holds. *)
Definition preserves {A} (P : St -> Prop) (m : M St A) : Prop :=
  forall s, P s -> P (snd (m s)).

Lemma preserves_ret {A} P (a : A) : preserves P (ret a).
Proof. by intros s. Qed.

Lemma preserves_raise {A} P e : preserves P (@raise St A e).
Proof. by intros s. Qed.

Lemma preserves_get P : preserves P get.
Proof. by intros s. Qed.

Lemma preserves_bind {A B} P (m : M St A) (k : A -> M St B) :
  preserves P m -> (forall a, preserves P (k a)) -> preserves P (bind m k).
Proof.
  intros Hm Hk s Hs. unfold bind. specialize (Hm s Hs).
  destruct (m s) as [[a|e] s']; simpl in *; [by apply Hk|done].
Qed.

Lemma preserves_modify P (f : St -> St) :
  (forall s, P s -> P (f s)) -> preserves P (modify f).
Proof. intros Hf s Hs. by apply Hf. Qed.

Lemma preserves_subscript {V} P (d : dict V) k : preserves P (subscript d k).
Proof. unfold subscript. destruct (dict_get d k); [apply preserves_ret|apply preserves_raise]. Qed.

Lemma preserves_for_each {A} P (body : A -> M St unit) l :
  (forall x, preserves P (body x)) -> preserves P (for_each body l).
Proof.
  intros Hb. induction l as [|x l IH]; simpl; [apply preserves_ret|].
  apply preserves_bind; [apply Hb|]. intros _. apply IH.
Qed.

End Preserves.

(** ** Rows in the buffer and rows sent *)

Section StreamAccounting.

Import simulation_output.

Context {Row : Type}.
Implicit Types (self : BufferedOutputStream Row) (outputs : OutputFanout Row).
Implicit Types (b : dict (list Row)) (w : BufferedOutputStream Row * OutputFanout Row).

(** The rows that the fanout was sent for a kind, in the order sent. *)
Definition rows_of (k : string) outputs : list Row :=
  flat_map (fun m => if String.eqb (fst m) k then as_list (snd m) else []) outputs.

(** The rows of a kind that were sent or are waiting in the buffer. *)
Definition delivered (k : string) w : list Row :=
  rows_of k (snd w) ++ buffer_get (buffer (fst w)) k.

Lemma rows_of_app k outputs1 outputs2 :
  rows_of k (outputs1 ++ outputs2) = rows_of k outputs1 ++ rows_of k outputs2.
Proof. unfold rows_of. apply flat_map_app. Qed.

Lemma buffer_get_set b k' k rows :
  buffer_get (dict_set b k' rows) k = if String.eqb k' k then rows else buffer_get b k.
Proof.
  unfold buffer_get. destruct (String.eqb k' k) eqn:E.
  - apply String.eqb_eq in E. subst k'. by rewrite dict_get_set_eq.
  - apply String.eqb_neq in E. by rewrite dict_get_set_ne.
Qed.

Lemma buffer_get_not_key b k : k ∉ dict_keys b -> buffer_get b k = [].
Proof.
  unfold buffer_get, dict_keys. induction b as [|[k' rows] b IH]; simpl; [done|].
  intros Hk. apply not_elem_of_cons in Hk as [Hne Hk].
  destruct (String.eqb k' k) eqn:E; [|by apply IH].
  apply String.eqb_eq in E. congruence.
Qed.

Lemma flush_messages_cons k' rows b :
  flush_messages ((k', rows) :: b) =
    (if truthy_list rows then [(k', Many rows)] else []) ++ flush_messages b.
Proof. unfold flush_messages. simpl. by destruct (truthy_list rows). Qed.

Lemma buffer_get_cons k' rows b k :
  buffer_get ((k', rows) :: b) k = if String.eqb k' k then rows else buffer_get b k.
Proof. unfold buffer_get. simpl. by destruct (String.eqb k' k). Qed.

Lemma rows_of_flush_messages k b :
  NoDup (dict_keys b) -> rows_of k (flush_messages b) = buffer_get b k.
Proof.
  induction b as [|[k' rows] b IH]; intros Hnd; [done|].
  unfold dict_keys in Hnd. simpl in Hnd. apply NoDup_cons in Hnd as [Hk' Hnd].
  rewrite flush_messages_cons, rows_of_app, buffer_get_cons, (IH Hnd).
  assert (Hrest : String.eqb k' k = true -> buffer_get b k = []).
  { intros E. apply String.eqb_eq in E. subst k'. by apply buffer_get_not_key. }
  destruct rows as [|r rows]; unfold rows_of; simpl.
  - destruct (String.eqb k' k); [by apply Hrest|done].
  - destruct (String.eqb k' k); simpl; [|done].
    by rewrite Hrest, !app_nil_r.
Qed.

(** A flush moves rows from the buffer to the fanout: none is lost, none
    is sent twice, and the order within a kind is kept. *)
Lemma delivered_flush k w :
  NoDup (dict_keys (buffer (fst w))) -> delivered k (flush w) = delivered k w.
Proof.
  destruct w as [self outputs]. intros Hnd. rewrite flush_spec. unfold delivered. simpl.
  rewrite rows_of_app, rows_of_flush_messages by done.
  unfold buffer_get. simpl. by rewrite app_nil_r.
Qed.

Lemma delivered_add k name rows w :
  NoDup (dict_keys (buffer (fst w))) ->
  delivered k (add name rows w) =
    delivered k w ++ (if String.eqb name k then as_list rows else []).
Proof.
  intros Hnd. rewrite add_spec.
  assert (Hext : delivered k (extend name (as_list rows) (fst w), snd w) =
                 delivered k w ++ (if String.eqb name k then as_list rows else [])).
  { unfold delivered. simpl. rewrite buffer_get_set.
    destruct (String.eqb name k) eqn:E.
    - apply String.eqb_eq in E. subst name. by rewrite app_assoc.
    - by rewrite app_nil_r. }
  destruct (threshold_reached _ _); [|done].
  rewrite delivered_flush; [done|]. simpl. by apply extend_keys_NoDup.
Qed.

(** When the block is left, what the fanout holds for a kind is what was
    delivered when the body ended. *)
Lemma delivered_exit k w :
  NoDup (dict_keys (buffer (fst w))) ->
  rows_of k (snd (__exit__ w)) = delivered k w.
Proof.
  intros Hnd. unfold __exit__. rewrite <- (delivered_flush k w Hnd).
  destruct w as [self outputs]. rewrite flush_spec. unfold delivered, buffer_get. simpl.
  by rewrite app_nil_r.
Qed.

End StreamAccounting.

(** ** The rows that [run_losses] emits *)

Section EmissionFacts.

Import generate_losses simulation_output.
Local Open Scope Z_scope.

Context {float : Type} (round_div4 : Z -> Z -> float) (float_truthy : float -> bool).
Context (t : trial).

Implicit Types (s : emitting float).
Implicit Types (w : BufferedOutputStream (row float) * emitting float).

(** A row of the geo-type schema at the level of the whole portfolio. *)
Definition is_total_row (r : row float) : bool :=
  match r with
  | GeoTypeRow r => geo_type r =? geo_types.GEO_TYPE_TOTAL_VALUE
  | FlatRow _ => false
  end.

(** The stream and the fanout it refers to. *)
Definition view w : BufferedOutputStream (row float) * OutputFanout (row float) :=
  (fst w, outputs (snd w)).

(** The total-level rows of a kind, sent or buffered. *)
Definition total_rows (k : string) w : list (row float) :=
  List.filter is_total_row (delivered k (view w)).

(** What the per-geography statements leave alone: the total-level rows
    of every kind and the local [nlr_value]. *)
Definition frame (ref w : BufferedOutputStream (row float) * emitting float) : Prop :=
  NoDup (dict_keys (buffer (fst w)))
  /\ (forall k, total_rows k w = total_rows k ref)
  /\ nlr_value (snd w) = nlr_value (snd ref).

Lemma frame_refl w : NoDup (dict_keys (buffer (fst w))) -> frame w w.
Proof. by intros Hnd. Qed.

Lemma output_stream_add_spec name r w :
  output_stream_add name r w =
    (Ok tt, (fst (add name (One r) (view w)),
             set_outputs (snd (add name (One r) (view w))) (snd w))).
Proof.
  unfold output_stream_add, stream_add, view. destruct w as [st s]. cbn [fst snd].
  by destruct (add name (One r) (st, outputs s)).
Qed.

Lemma view_set_outputs (st : BufferedOutputStream (row float)) o s :
  view (st, set_outputs o s) = (st, o).
Proof. reflexivity. Qed.

Lemma total_rows_add name r w k :
  NoDup (dict_keys (buffer (fst w))) ->
  total_rows k (snd (output_stream_add name r w)) =
    total_rows k w ++ (if String.eqb name k && is_total_row r then [r] else []).
Proof.
  intros Hnd. rewrite output_stream_add_spec. unfold total_rows. cbn [fst snd].
  replace (view (fst (add name (One r) (view w)),
                 set_outputs (snd (add name (One r) (view w))) (snd w)))
    with (add name (One r) (view w))
    by (rewrite view_set_outputs; by destruct (add name (One r) (view w))).
  rewrite delivered_add by done. rewrite List.filter_app.
  destruct (String.eqb name k); simpl; [|done]. by destruct (is_total_row r).
Qed.

Lemma keys_add name r w :
  NoDup (dict_keys (buffer (fst w))) ->
  NoDup (dict_keys (buffer (fst (snd (output_stream_add name r w))))).
Proof.
  intros Hnd. rewrite output_stream_add_spec. simpl.
  by apply (add_keys_NoDup name (One r) (view w)).
Qed.

Lemma nlr_value_add name r w :
  nlr_value (snd (snd (output_stream_add name r w))) = nlr_value (snd w).
Proof. by rewrite output_stream_add_spec. Qed.

Lemma frame_add ref name r :
  is_total_row r = false -> preserves (frame ref) (output_stream_add name r).
Proof.
  intros Hr w (Hnd & Hrows & Hnlr). split; [by apply keys_add|]. split.
  - intros k. rewrite total_rows_add by done. rewrite Hr, andb_false_r, app_nil_r.
    apply Hrows.
  - by rewrite nlr_value_add.
Qed.

Lemma frame_locals_modify ref (f : emitting float -> emitting float) :
  (forall s, outputs (f s) = outputs s) ->
  (forall s, nlr_value (f s) = nlr_value s) ->
  preserves (frame ref) (locals (modify f)).
Proof.
  intros Ho Hn [st s] (Hnd & Hrows & Hnlr). split; [done|]. split.
  - intros k. rewrite <- Hrows. unfold total_rows, view. simpl. by rewrite Ho.
  - simpl. by rewrite Hn.
Qed.

Lemma frame_locals_get ref : preserves (frame ref) (locals (@get (emitting float))).
Proof. by intros [st s] H. Qed.

Lemma frame_subscript2 {A} ref d geo_type geography
    (k : Z -> M (BufferedOutputStream (row float) * emitting float) A) :
  (forall v, preserves (frame ref) (k v)) ->
  preserves (frame ref) (bind (subscript2 d geo_type geography) k).
Proof.
  intros Hk. apply preserves_bind; [|done]. unfold subscript2.
  repeat case_match; try apply preserves_raise. apply preserves_subscript.
Qed.

(** A row built for a level other than the total. *)
Lemma build_row_not_total geo_type geography total :
  geo_types.str_to_int geo_type <> geo_types.GEO_TYPE_TOTAL_VALUE ->
  is_total_row (build_geo_type_row t geo_type geography total) = false.
Proof. intros H. simpl. by apply Z.eqb_neq. Qed.

(** The per-geography statements of the first block. *)
Lemma frame_emit_exposure_nested ref premium_dictionary geo_type geographies :
  String.eqb geo_type "total" = false ->
  geo_types.str_to_int geo_type <> geo_types.GEO_TYPE_TOTAL_VALUE ->
  preserves (frame ref)
    (emit_exposure_item float_truthy t premium_dictionary (geo_type, Nested geographies)).
Proof.
  intros Hkey Hlevel. unfold emit_exposure_item. rewrite Hkey.
  apply preserves_for_each. intros [geography total].
  apply frame_subscript2. intros premium_total.
  apply preserves_bind; [by apply frame_locals_modify|]. intros _.
  apply preserves_bind; [by apply frame_locals_modify|]. intros _.
  destruct (is_geo_type_schema t); [|apply preserves_ret].
  apply preserves_bind.
  - destruct (truthy_int total); [|apply preserves_ret].
    apply frame_add. by apply build_row_not_total.
  - intros _. destruct (truthy_int premium_total); [|apply preserves_ret].
    apply frame_add. by apply build_row_not_total.
Qed.

Lemma emit_exposure_total_eq premium_dictionary value st s :
  output_schema_version t = GEO_TYPE_ROW_OUTPUT_SCHEMA_VERSION ->
  let total_row := build_geo_type_row t "total" "total" (Int value) in
  emit_exposure_item float_truthy t premium_dictionary ("total", Scalar value) (st, s) =
    (if truthy_int value
     then (do_ output_stream_add OUTPUT_EXPOSURES total_row;
           output_stream_add OUTPUT_EXPOSURES total_row)
     else ret tt)
      (st, set_premium_row (dict_set (premium_row s) "total" (Int value))
             (set_exposure_row (dict_set (exposure_row s) "total" (Int value)) s)).
Proof.
  intros Hv total_row. unfold emit_exposure_item, is_geo_type_schema. rewrite Hv.
  cbn -[output_stream_add dict_set dict_get].
  unfold subscript. rewrite !dict_get_set_eq. cbn -[output_stream_add dict_set dict_get].
  by destruct (truthy_int value).
Qed.

(** The statements of the first block for the key ['total']. *)
Lemma emit_exposure_total premium_dictionary value w :
  output_schema_version t = GEO_TYPE_ROW_OUTPUT_SCHEMA_VERSION ->
  NoDup (dict_keys (buffer (fst w))) ->
  let total_row := build_geo_type_row t "total" "total" (Int value) in
  let left := emit_exposure_item float_truthy t premium_dictionary ("total", Scalar value) w in
  fst left = Ok tt
  /\ NoDup (dict_keys (buffer (fst (snd left))))
  /\ nlr_value (snd (snd left)) = nlr_value (snd w)
  /\ (forall k, total_rows k (snd left) =
                total_rows k w ++
                (if String.eqb OUTPUT_EXPOSURES k && truthy_int value
                 then [total_row; total_row] else [])).
Proof.
  intros Hv Hnd total_row left. destruct w as [st s]. subst left.
  rewrite emit_exposure_total_eq by done. fold total_row.
  set (w1 := (st, set_premium_row _ _)).
  assert (Hnd1 : NoDup (dict_keys (buffer (fst w1)))) by done.
  assert (Hrows1 : forall k, total_rows k w1 = total_rows k (st, s)) by done.
  destruct (truthy_int value).
  - unfold bind. rewrite (output_stream_add_spec _ _ w1).
    set (w2 := (fst (add OUTPUT_EXPOSURES (One total_row) (view w1)), _)).
    assert (Hw2 : w2 = snd (output_stream_add OUTPUT_EXPOSURES total_row w1))
      by (by rewrite output_stream_add_spec).
    split; [by rewrite output_stream_add_spec|].
    split; [rewrite Hw2; by do 2 apply keys_add|].
    split; [rewrite Hw2; by rewrite !nlr_value_add|].
    intros k. rewrite total_rows_add by (rewrite Hw2; by apply keys_add).
    rewrite Hw2, total_rows_add, Hrows1 by done. rewrite <- app_assoc.
    assert (Htot : is_total_row total_row = true) by done. rewrite Htot, andb_true_r.
    by destruct (String.eqb OUTPUT_EXPOSURES k).
  - split; [done|]. split; [done|]. split; [done|].
    intros k. by rewrite andb_false_r, app_nil_r.
Qed.

(** The whole loop of the first block. *)
Lemma emit_exposure_items exposure_dictionary premium_dictionary w :
  output_schema_version t = GEO_TYPE_ROW_OUTPUT_SCHEMA_VERSION ->
  NoDup (dict_keys (buffer (fst w))) ->
  let total_row :=
    build_geo_type_row t "total" "total" (Int (d_total exposure_dictionary)) in
  let left := for_each (emit_exposure_item float_truthy t premium_dictionary)
                (items exposure_dictionary) w in
  NoDup (dict_keys (buffer (fst (snd left))))
  /\ nlr_value (snd (snd left)) = nlr_value (snd w)
  /\ (forall k, total_rows k (snd left) =
                total_rows k w ++
                (if String.eqb OUTPUT_EXPOSURES k && truthy_int (d_total exposure_dictionary)
                 then [total_row; total_row] else [])).
Proof.
  intros Hv Hnd total_row left. subst left. unfold items. cbn [for_each].
  destruct (emit_exposure_total premium_dictionary (d_total exposure_dictionary) w Hv Hnd)
    as (Hok & Hnd1 & Hnlr1 & Hrows1).
  set (rest := do_ emit_exposure_item float_truthy t premium_dictionary
                     ("state", Nested (d_state exposure_dictionary));
               do_ emit_exposure_item float_truthy t premium_dictionary
                     ("county", Nested (d_county exposure_dictionary));
               do_ emit_exposure_item float_truthy t premium_dictionary
                     ("zip", Nested (d_zip exposure_dictionary));
               ret tt).
  set (head := emit_exposure_item float_truthy t premium_dictionary
                 ("total", Scalar (d_total exposure_dictionary))) in *.
  assert (Heq : (do_ head; rest) w = rest (snd (head w))).
  { unfold bind at 1. destruct (head w) as [r w1]. cbn [fst snd] in *. by subst r. }
  rewrite Heq.
  assert (Hrest : preserves (frame (snd (head w))) rest).
  { subst rest.
    repeat (apply preserves_bind;
              [by apply frame_emit_exposure_nested | intros _]).
    apply preserves_ret. }
  destruct (Hrest (snd (head w)) (frame_refl _ Hnd1)) as (Hnd2 & Hrows2 & Hnlr2).
  split; [done|]. split; [congruence|].
  intros k. by rewrite Hrows2, Hrows1.
Qed.

Lemma is_flat_schema_false :
  output_schema_version t = GEO_TYPE_ROW_OUTPUT_SCHEMA_VERSION -> is_flat_schema t = false.
Proof. unfold is_flat_schema. by intros ->. Qed.

(** The first block, from the locals [s0]: the locals that it leaves. *)
Lemma write_exposures_and_premiums_state exposure_dictionary premium_dictionary s0 :
  output_schema_version t = GEO_TYPE_ROW_OUTPUT_SCHEMA_VERSION ->
  let w_end :=
    snd (for_each (emit_exposure_item float_truthy t premium_dictionary)
           (items exposure_dictionary)
           (__init__ DEFAULT_PER_OUTPUT_MAX_ROWS DEFAULT_TOTAL_BUFFER_MAX_ROWS,
            set_premium_row [("sim_id", Int (trial_sim_id t))]
              (set_exposure_row [("sim_id", Int (trial_sim_id t))] s0))) in
  snd (write_exposures_and_premiums float_truthy t
         exposure_dictionary premium_dictionary s0)
  = set_outputs (snd (__exit__ (view w_end))) (snd w_end).
Proof.
  intros Hv w_end. unfold write_exposures_and_premiums.
  rewrite (is_flat_schema_false Hv).
  unfold bind at 1. cbn [modify]. unfold bind at 1. cbn [modify].
  unfold bind at 1. rewrite with_stream_spec. fold w_end.
  by destruct (fst _) as [[]|e].
Qed.

Lemma write_exposures_and_premiums_rows exposure_dictionary premium_dictionary s0 :
  output_schema_version t = GEO_TYPE_ROW_OUTPUT_SCHEMA_VERSION ->
  let total_row :=
    build_geo_type_row t "total" "total" (Int (d_total exposure_dictionary)) in
  let left := write_exposures_and_premiums float_truthy t
                exposure_dictionary premium_dictionary s0 in
  nlr_value (snd left) = nlr_value s0
  /\ (forall k, List.filter is_total_row (rows_of k (outputs (snd left))) =
                List.filter is_total_row (rows_of k (outputs s0)) ++
                (if String.eqb OUTPUT_EXPOSURES k && truthy_int (d_total exposure_dictionary)
                 then [total_row; total_row] else [])).
Proof.
  intros Hv total_row left. subst left.
  rewrite (write_exposures_and_premiums_state _ _ _ Hv).
  set (w0 := (__init__ DEFAULT_PER_OUTPUT_MAX_ROWS DEFAULT_TOTAL_BUFFER_MAX_ROWS,
              set_premium_row [("sim_id", Int (trial_sim_id t))]
                (set_exposure_row [("sim_id", Int (trial_sim_id t))] s0))).
  assert (Hnd0 : NoDup (dict_keys (buffer (fst w0)))) by apply NoDup_nil_2.
  destruct (emit_exposure_items exposure_dictionary premium_dictionary w0 Hv Hnd0)
    as (Hnd & Hnlr & Hrows).
  set (w_end := snd (for_each _ _ w0)) in *.
  split; [done|]. intros k. cbn [outputs set_outputs].
  rewrite (delivered_exit k (view w_end)) by done.
  change (List.filter is_total_row (delivered k (view w_end))) with (total_rows k w_end).
  rewrite Hrows. f_equal.
  unfold total_rows, delivered, view, buffer_get. cbn. by rewrite app_nil_r.
Qed.

(** C10, as amended. Under the geo-type schema the first block of
    [run_losses] adds no total-level row to the premiums output. When the
    exposure total is not zero it adds two total-level rows to the
    exposures output, both carrying the exposure total (the second is the
    row meant for the premium total); when the exposure total is zero it
    adds no total-level row at all. *)
Theorem total_premium_row_is_a_second_exposure_row
    exposure_dictionary premium_dictionary s0 :
  output_schema_version t = GEO_TYPE_ROW_OUTPUT_SCHEMA_VERSION ->
  let left := write_exposures_and_premiums float_truthy t
                exposure_dictionary premium_dictionary s0 in
  let total_row :=
    GeoTypeRow {| run_timestamp := runtime_timestamp t;
                  sim_id := trial_sim_id t;
                  geo_type := geo_types.GEO_TYPE_TOTAL_VALUE;
                  geography := "total";
                  total := Int (d_total exposure_dictionary) |} in
  List.filter is_total_row (rows_of OUTPUT_PREMIUMS (outputs (snd left)))
    = List.filter is_total_row (rows_of OUTPUT_PREMIUMS (outputs s0))
  /\ List.filter is_total_row (rows_of OUTPUT_EXPOSURES (outputs (snd left)))
    = List.filter is_total_row (rows_of OUTPUT_EXPOSURES (outputs s0)) ++
      (if Z.eqb (d_total exposure_dictionary) 0 then [] else [total_row; total_row]).
Proof.
  intros Hv left total_row. subst left.
  destruct (write_exposures_and_premiums_rows exposure_dictionary premium_dictionary s0 Hv)
    as [_ Hrows].
  split.
  - rewrite (Hrows OUTPUT_PREMIUMS). cbn. by rewrite app_nil_r.
  - rewrite (Hrows OUTPUT_EXPOSURES). f_equal. unfold truthy_int.
    by destruct (d_total exposure_dictionary =? 0).
Qed.

Lemma read_unbound_nlr_value w :
  nlr_value (snd w) = None ->
  locals (@read_nlr_value float) w = (Raise (UnboundLocalError "nlr_value"), w).
Proof.
  destruct w as [st s]. cbn [snd]. intros Hnlr.
  unfold locals, zoom, read_nlr_value, bind, get. cbn [fst snd]. by rewrite Hnlr.
Qed.

(** The statements of the second block for the key ['total']: the read of
    [nlr_value] raises. *)
Lemma emit_loss_total_eq premium_dictionary value st s :
  output_schema_version t = GEO_TYPE_ROW_OUTPUT_SCHEMA_VERSION ->
  nlr_value s = None ->
  let s2 :=
    set_nlr_row (dict_set (nlr_row s) "total"
                   (generate_loss_ratio round_div4 (d_total premium_dictionary) value))
      (set_loss_row (dict_set (loss_row s) "total" (Int value)) s) in
  emit_loss_item round_div4 float_truthy t premium_dictionary ("total", Scalar value) (st, s)
  = (Raise (UnboundLocalError "nlr_value"),
     if truthy_int value
     then snd (output_stream_add OUTPUT_LOSSES
                 (build_geo_type_row t "total" "total" (Int value)) (st, s2))
     else (st, s2)).
Proof.
  intros Hv Hnlr s2. unfold emit_loss_item, is_geo_type_schema. rewrite Hv.
  cbn -[output_stream_add dict_set generate_loss_ratio].
  fold s2. destruct (truthy_int value).
  - unfold bind at 1. rewrite output_stream_add_spec.
    unfold bind at 1. by rewrite read_unbound_nlr_value.
  - cbn [ret]. unfold bind at 1. cbn [ret].
    unfold bind at 1. by rewrite read_unbound_nlr_value.
Qed.

Lemma write_losses_and_nlr_raises loss_dictionary premium_dictionary s :
  output_schema_version t = GEO_TYPE_ROW_OUTPUT_SCHEMA_VERSION ->
  nlr_value s = None ->
  exists s',
    write_losses_and_nlr round_div4 float_truthy t loss_dictionary premium_dictionary s
      = (Raise (UnboundLocalError "nlr_value"), s')
    /\ nlr_value s' = None
    /\ outputs s' =
         outputs s ++
         (if truthy_int (d_total loss_dictionary)
          then [(OUTPUT_LOSSES,
                 Many [build_geo_type_row t "total" "total"
                         (Int (d_total loss_dictionary))])]
          else []).
Proof.
  intros Hv Hnlr.
  set (w0 := (@__init__ (row float) DEFAULT_PER_OUTPUT_MAX_ROWS DEFAULT_TOTAL_BUFFER_MAX_ROWS,
              set_nlr_row [("SimId", Int (trial_sim_id t))]
                (set_loss_row [("SimId", Int (trial_sim_id t))] s))).
  destruct (for_each (emit_loss_item round_div4 float_truthy t premium_dictionary)
              (items loss_dictionary) w0) as [r w1] eqn:Hbody.
  assert (Hw1 : (r, w1) =
            (Raise (UnboundLocalError "nlr_value"),
             if truthy_int (d_total loss_dictionary)
             then snd (output_stream_add OUTPUT_LOSSES
                         (build_geo_type_row t "total" "total"
                            (Int (d_total loss_dictionary)))
                         (fst w0,
                          set_nlr_row
                            (dict_set (nlr_row (snd w0)) "total"
                               (generate_loss_ratio round_div4
                                  (d_total premium_dictionary) (d_total loss_dictionary)))
                            (set_loss_row
                               (dict_set (loss_row (snd w0)) "total"
                                  (Int (d_total loss_dictionary))) (snd w0))))
             else (fst w0,
                   set_nlr_row
                     (dict_set (nlr_row (snd w0)) "total"
                        (generate_loss_ratio round_div4
                           (d_total premium_dictionary) (d_total loss_dictionary)))
                     (set_loss_row
                        (dict_set (loss_row (snd w0)) "total"
                           (Int (d_total loss_dictionary))) (snd w0))))).
  { rewrite <- Hbody. unfold items. cbn [for_each]. unfold bind at 1.
    subst w0. by rewrite emit_loss_total_eq. }
  injection Hw1 as -> Hw1.
  exists (set_outputs (snd (__exit__ (view w1))) (snd w1)). split.
  - unfold write_losses_and_nlr.
    unfold bind at 1. cbn [modify]. unfold bind at 1. cbn [modify].
    unfold bind at 1. rewrite with_stream_spec. fold w0. by rewrite Hbody.
  - rewrite Hw1. subst w0.
    destruct (truthy_int (d_total loss_dictionary)); cbn; by rewrite ?app_nil_r.
Qed.

End EmissionFacts.

(** ** One attempt of [run_losses] under the geo-type schema *)

Section TrialFacts.

Import generate_losses simulation_output.
Local Open Scope Z_scope.

Context {coordinates geometry float : Type}.
Context (round_div4 : Z -> Z -> float) (float_truthy : float -> bool).
Context (zip_to_prem : gmap string Z).

(** C6. Under the geo-type schema the loop of the second block meets the
    key ['total'] first and, in its branch, reads the local [nlr_value],
    which no statement has assigned yet: the block raises
    [UnboundLocalError] from any locals in which [nlr_value] is unbound,
    after at most the total-level loss row was added and before any
    per-geography statement. Nothing before the block assigns [nlr_value],
    so no attempt of [run_losses] returns. *)
Theorem nlr_value_is_read_unbound_in_total_branch (t : trial) :
  output_schema_version t = GEO_TYPE_ROW_OUTPUT_SCHEMA_VERSION ->
  (forall loss_dictionary, exists rest,
     items loss_dictionary = ("total", Scalar (d_total loss_dictionary)) :: rest)
  /\ (forall loss_dictionary premium_dictionary (s : emitting float),
        nlr_value s = None ->
        exists s',
          write_losses_and_nlr round_div4 float_truthy t loss_dictionary premium_dictionary s
            = (Raise (UnboundLocalError "nlr_value"), s')
          /\ nlr_value s' = None
          /\ outputs s' =
               outputs s ++
               (if truthy_int (d_total loss_dictionary)
                then [(OUTPUT_LOSSES,
                       Many [build_geo_type_row t "total" "total"
                               (Int (d_total loss_dictionary))])]
                else []))
  /\ (forall loss_dictionary (d : draws coordinates geometry) outputs0 r outputs1,
        run_losses_attempt round_div4 float_truthy zip_to_prem t loss_dictionary d outputs0
          = Some (r, outputs1) ->
        exists e, r = Raise e).
Proof.
  intros Hv. split; [|split].
  - intros loss_dictionary. by eexists.
  - intros loss_dictionary premium_dictionary s Hnlr.
    by apply write_losses_and_nlr_raises.
  - intros loss_dictionary d outputs0 r outputs1. unfold run_losses_attempt.
    destruct (sample_states _ _ _) as [[[]|e] sampled]; [|intros [= <- <-]; eauto].
    destruct (write_exposures_and_premiums _ _ _ _ _) as [r1 s1] eqn:Hfirst.
    assert (Hnlr : nlr_value s1 = None).
    { pose proof (write_exposures_and_premiums_rows float_truthy t
                    (exposure_dictionary sampled) (premium_dictionary sampled)
                    {| outputs := outputs0; exposure_row := []; premium_row := [];
                       loss_row := []; nlr_row := []; nlr_value := None |} Hv) as [H _].
      by rewrite Hfirst in H. }
    destruct r1 as [[]|e]; [|intros [= <- <-]; eauto].
    destruct (generate_storms _ _ _ _) as [[storms n]|]; [|done].
    destruct (for_each _ storms loss_dictionary) as [[[]|e] losses]; [|intros [= <- <-]; eauto].
    destruct (write_losses_and_nlr_raises round_div4 float_truthy t
                losses (premium_dictionary sampled) s1 Hv Hnlr) as (s' & -> & _).
    intros [= <- <-]. eauto.
Qed.

End TrialFacts.

Module emission_examples.

Import generate_losses simulation_output sampling_examples.
Local Open Scope Z_scope.

(** A trial of the default schema, locals before the first block, and
    dictionaries after the sampling of one property. *)
Definition geo_type_trial : trial :=
  {| trial_sim_id := 7; runtime_timestamp := 1700000000;
     output_schema_version := DEFAULT_OUTPUT_SCHEMA_VERSION |}.

Definition fresh_locals : emitting unit :=
  {| outputs := []; exposure_row := []; premium_row := [];
     loss_row := []; nlr_row := []; nlr_value := None |}.

Definition one_exposure : geo_dict :=
  {| d_total := 100000;
     d_state := [("AR", 100000); ("GA", 0)];
     d_county := [("Stone", 100000); ("Catoosa", 0)];
     d_zip := [("72560", 100000); ("30736", 0)] |}.

Definition one_premium : geo_dict :=
  {| d_total := 100;
     d_state := [("AR", 100); ("GA", 0)];
     d_county := [("Stone", 100); ("Catoosa", 0)];
     d_zip := [("72560", 100); ("30736", 0)] |}.

(** The reading of C10 for every trial: the exposures output holds two
    total-level rows after the first block. *)
Definition exposures_hold_two_total_rows
    (exposure_dictionary premium_dictionary : geo_dict) : Prop :=
  length (List.filter is_total_row
            (rows_of OUTPUT_EXPOSURES
               (outputs (snd (write_exposures_and_premiums (fun _ : unit => true)
                                geo_type_trial exposure_dictionary premium_dictionary
                                fresh_locals)))))
  = 2%nat.

End emission_examples.

Section EmissionExamples.

Import generate_losses simulation_output sampling_examples emission_examples.
Local Open Scope Z_scope.

Lemma nlr_value_is_read_unbound_in_total_branch_witness :
  exists s',
    write_losses_and_nlr (fun _ _ => tt) (fun _ => true) geo_type_trial
      zero_dict one_premium fresh_locals
    = (Raise (UnboundLocalError "nlr_value"), s')
    /\ nlr_value s' = None
    /\ outputs s' = [].
Proof.
  exact (proj1 (proj2
           (nlr_value_is_read_unbound_in_total_branch (coordinates := unit)
              (geometry := unit) (fun _ _ => tt) (fun _ => true) ∅
              geo_type_trial eq_refl))
         zero_dict one_premium fresh_locals eq_refl).
Defined.

Lemma total_premium_row_is_a_second_exposure_row_witness :
  let total_row :=
    GeoTypeRow {| run_timestamp := 1700000000; sim_id := 7; geo_type := 4;
                  geography := "total"; total := Int 100000 |} in
  List.filter is_total_row
    (rows_of OUTPUT_PREMIUMS
       (outputs (snd (write_exposures_and_premiums (fun _ : unit => true) geo_type_trial
                        one_exposure one_premium fresh_locals))))
  = []
  /\ List.filter is_total_row
       (rows_of OUTPUT_EXPOSURES
          (outputs (snd (write_exposures_and_premiums (fun _ : unit => true) geo_type_trial
                           one_exposure one_premium fresh_locals))))
     = [total_row; total_row].
Proof.
  exact (total_premium_row_is_a_second_exposure_row (fun _ : unit => true) geo_type_trial
           one_exposure one_premium fresh_locals eq_refl).
Defined.

(** C10, as stated, fails for a trial that sampled nothing: the exposure
    total is zero and the exposures output receives no total-level row. *)
Lemma no_total_row_for_an_empty_sample :
  List.filter is_total_row
    (rows_of OUTPUT_EXPOSURES
       (outputs (snd (write_exposures_and_premiums (fun _ : unit => true) geo_type_trial
                        zero_dict zero_dict fresh_locals))))
  = []
  /\ ~ exposures_hold_two_total_rows zero_dict zero_dict.
Proof.
  split; [by vm_compute|]. unfold exposures_hold_two_total_rows. by vm_compute.
Qed.

(** What the first block sends for one sampled property: the total row
    twice under the exposures kind, then the rows of the geographies. *)
Example first_block_messages :
  map fst (outputs (snd (write_exposures_and_premiums (fun _ : unit => true) geo_type_trial
                           one_exposure one_premium fresh_locals)))
  = [OUTPUT_EXPOSURES; OUTPUT_PREMIUMS]
  /\ length (rows_of OUTPUT_EXPOSURES
               (outputs (snd (write_exposures_and_premiums (fun _ : unit => true)
                                geo_type_trial one_exposure one_premium fresh_locals))))
     = 5%nat
  /\ length (rows_of OUTPUT_PREMIUMS
               (outputs (snd (write_exposures_and_premiums (fun _ : unit => true)
                                geo_type_trial one_exposure one_premium fresh_locals))))
     = 3%nat.
Proof. by vm_compute. Qed.

End EmissionExamples.

Module bigquery_examples.

Import bigquery.

(** A service that always answers with an error, and one that answers
    with errors twice before it accepts the rows. *)
Definition failing_client : Client nat :=
  {| insert_rows_response := fun _ => ["quota exceeded"];
     insert_rows_calls := [];
     get_table_calls := 0 |}.

Definition flaky_client : Client nat :=
  {| insert_rows_response := fun n => if (n <? 2)%nat then ["backend error"] else [];
     insert_rows_calls := [];
     get_table_calls := 0 |}.

Definition stream_on (c : Client nat) : BigqueryInsertStream nat :=
  {| client := c; stream_table := TableId "simulations_v2.hail_losses";
     batch_size := DEFAULT_STREAMING_INSERT_BATCH_SIZE;
     batch := Some [1; 2; 3]; total := 0 |}.

End bigquery_examples.

Section BigqueryExamples.

Import bigquery bigquery_examples.

Lemma flush_retries_insert_up_to_five_times_witness :
  (exists self',
     flush (stream_on failing_client) = (Raise (InsertErrors ["quota exceeded"]), self')
     /\ insert_rows_calls (client self') = replicate 5 [1; 2; 3]
     /\ batch self' = Some [1; 2; 3]
     /\ total self' = 0%Z)
  /\ (exists self',
     flush (stream_on flaky_client) = (Ok tt, self')
     /\ insert_rows_calls (client self') = replicate 3 [1; 2; 3]
     /\ batch self' = Some []
     /\ total self' = 3%Z).
Proof.
  split.
  - apply (proj1 (flush_retries_insert_up_to_five_times
                    (stream_on failing_client) 1 [2; 3] eq_refl)).
    intros i. discriminate.
  - apply (proj2 (flush_retries_insert_up_to_five_times
                    (stream_on flaky_client) 1 [2; 3] eq_refl));
      [discriminate | discriminate | reflexivity].
Defined.

End BigqueryExamples.

(** ** The writers that the drivers set up *)

Section SetupFacts.

Import simulation_output generate_losses.

(** A call that raises [TypeError]. *)
Definition raises_TypeError {A} (r : result A) : Prop :=
  exists msg, r = Raise (TypeError msg).

Lemma setup_csv_writer_raises fs csv_output_dir overwrite :
  raises_TypeError (setup_csv_writer fs csv_output_dir overwrite).
Proof. by eexists. Qed.

Lemma setup_bigquery_writer_raises project_id dataset :
  setup_bigquery_writer project_id dataset =
    if truthy project_id
    then Raise (TypeError
                  "__init__() missing 1 required positional argument: 'storm_type'")
    else Raise (GenericException
                  "--project_id is REQUIRED when using the --output_bigquery flag").
Proof. unfold setup_bigquery_writer. by destruct (truthy project_id). Qed.

End SetupFacts.

Section SetupTheorems.

Import simulation_output generate_losses.

(** C9, as amended. [setup_csv_writer] raises [TypeError] whatever its
    arguments, and [setup_bigquery_writer] raises whatever its arguments:
    [TypeError] when [project_id] is truthy, the configuration error of its
    own guard when it is not. Both constructors are called without their
    [storm_type] parameter. So [main] with a CSV or BigQuery output, and
    the cloud function with the BigQuery output, raise before any trial
    runs. *)
Theorem writer_setup_raises_before_any_trial :
  (forall fs csv_output_dir overwrite,
     raises_TypeError (setup_csv_writer fs csv_output_dir overwrite))
  /\ (forall project_id dataset,
        truthy project_id = true ->
        raises_TypeError (setup_bigquery_writer project_id dataset))
  /\ (forall project_id dataset,
        truthy project_id = false ->
        setup_bigquery_writer project_id dataset =
          Raise (GenericException
                   "--project_id is REQUIRED when using the --output_bigquery flag"))
  /\ (forall (W : Type) attempt worker_outcome completion_order a fs (s : driver W),
        output_csv a = true \/ output_bigquery a = true
        \/ upload_csv_to_bigquery_overwrite a = true ->
        exists e, main attempt worker_outcome completion_order a fs s = (Raise e, s))
  /\ (forall (W : Type) PROJECT_ID BIGQUERY_OUTPUT_DATASET run_losses sim_id
             (s : W * list string),
        exists e,
          cloud_main._start_simulation PROJECT_ID BIGQUERY_OUTPUT_DATASET run_losses
            cloud_main.STORM_TYPE_HAIL sim_id true s
          = (Raise e, (fst s, snd s ++ ["Starting simulation"]))).
Proof.
  split; [apply setup_csv_writer_raises|].
  split; [intros p ds Hp; rewrite setup_bigquery_writer_raises, Hp; by eexists|].
  split; [intros p ds Hp; by rewrite setup_bigquery_writer_raises, Hp|].
  split.
  - intros W attempt worker_outcome completion_order a fs s Houtput.
    unfold main. unfold bind at 1.
    destruct (validate_arguments a) as [[]|e]; cbn [lift_result ret raise]; [|by eexists].
    destruct (output_csv a) eqn:Hcsv.
    { unfold bind at 1. unfold bind at 1.
      destruct (setup_csv_writer_raises fs (VStr (csv_output_dir a))
                  (VBool (csv_overwrite a))) as [msg ->].
      cbn [lift_result raise]. by eexists. }
    unfold bind at 1. cbn [ret].
    assert (Hbq : output_bigquery a || upload_csv_to_bigquery_overwrite a = true).
    { destruct Houtput as [?|[->| ->]]; [congruence|done|by rewrite orb_true_r]. }
    rewrite Hbq. unfold bind at 1. unfold bind at 1.
    rewrite setup_bigquery_writer_raises.
    destruct (truthy (project_id_value a)); cbn [lift_result raise]; by eexists.
  - intros W PROJECT_ID BIGQUERY_OUTPUT_DATASET run_losses sim_id s.
    unfold cloud_main._start_simulation.
    change (negb (existsb (String.eqb cloud_main.STORM_TYPE_HAIL)
                    cloud_main.SUPPORTED_STORM_TYPES)) with false.
    change (String.eqb cloud_main.STORM_TYPE_HAIL cloud_main.STORM_TYPE_HAIL) with true.
    cbv iota. unfold bind at 1. cbn [cloud_main.log modify].
    unfold bind at 1. unfold bind at 1.
    rewrite setup_bigquery_writer_raises.
    destruct (truthy PROJECT_ID); cbn [raise]; by eexists.
Qed.

(** C9, as stated, fails for [setup_bigquery_writer] without a project id
    (the value of an unset [PROJECT_ID]): the exception is the one of the
    guard, not a [TypeError]. *)
Lemma setup_bigquery_writer_without_project_id_is_no_TypeError :
  setup_bigquery_writer VNone (VStr DEFAULT_DATASET)
    = Raise (GenericException
               "--project_id is REQUIRED when using the --output_bigquery flag")
  /\ ~ raises_TypeError (setup_bigquery_writer VNone (VStr DEFAULT_DATASET)).
Proof. split; [reflexivity|]. intros [msg H]. discriminate. Qed.

End SetupTheorems.

(** ** A trial that fails, in the drivers *)

Section DriverFacts.

Import generate_losses.

Context {W : Type}.
Context (attempt : Z -> nat -> M W Z).
Context (worker_outcome : Z -> result Z).
Context (completion_order : list Z -> list Z).

(** Every attempt of a simulation raises. *)
Definition always_raises (sim_id : Z) : Prop :=
  forall n w, is_ok (fst (attempt sim_id n w)) = false.

Lemma retry_on_exception_exhausted {A} (f : nat -> M W A) remaining n w :
  (forall n w, is_ok (fst (f n w)) = false) ->
  exists w', retry_on_exception remaining n f w = (Raise RetryError, w').
Proof.
  intros Hf. revert n w. induction remaining as [|remaining IH]; intros n w; simpl.
  - specialize (Hf n w). destruct (f n w) as [[a|e] w']; [done|]. by eexists.
  - specialize (Hf n w). destruct (f n w) as [[a|e] w']; [done|]. apply IH.
Qed.

Lemma run_losses_exhausted sim_id w :
  always_raises sim_id -> exists w', run_losses attempt sim_id w = (Raise RetryError, w').
Proof. intros H. by apply retry_on_exception_exhausted. Qed.

(** [list(map(f, sims))] ends with the first call that raises. *)
Lemma list_map_stops {A B} (f : A -> M W B) before sim after w0 rs w1 e w2 :
  list_map f before w0 = (Ok rs, w1) ->
  f sim w1 = (Raise e, w2) ->
  list_map f (before ++ sim :: after) w0 = (Raise e, w2).
Proof.
  revert w0 rs. induction before as [|x before IH]; intros w0 rs; simpl.
  - unfold ret. intros [= <- <-] Hsim. unfold bind. by rewrite Hsim.
  - intros Hbefore Hsim. unfold bind in Hbefore |- *.
    destruct (f x w0) as [[r|e0] w] eqn:Hx; [|done].
    destruct (list_map f before w) as [[rs'|e0] w'] eqn:Hrest; [|done].
    unfold ret in Hbefore. injection Hbefore as _ ->.
    by rewrite (IH _ _ Hrest Hsim).
Qed.

(** Collecting the results of the pool raises as soon as the result of a
    failed simulation arrives; until then it only receives results. *)
Lemma list_imap_unordered_raises arrived sim e (s : driver W) :
  sim ∈ arrived ->
  worker_outcome sim = Raise e ->
  exists e' received,
    list_imap_unordered worker_outcome arrived s =
      (Raise e', {| world := world s;
                    events := events s ++ map ResultReceived received |}).
Proof.
  intros Hin Hsim. revert s.
  induction arrived as [|x arrived IH]; intros s; [by apply elem_of_nil in Hin|].
  simpl. unfold bind at 1.
  destruct (worker_outcome x) as [r|e0] eqn:Hx; cbn [lift_result ret raise].
  - apply elem_of_cons in Hin as [->|Hin]; [congruence|].
    unfold bind at 1. cbn [emit modify].
    destruct (IH Hin {| world := world s; events := events s ++ [ResultReceived r] |})
      as (e' & received & Hrest).
    unfold bind at 1. rewrite Hrest. cbn [world events].
    exists e', (r :: received). by rewrite <- app_assoc.
  - exists e0, []. cbn [map]. rewrite app_nil_r. by destruct s.
Qed.

(** The command line without any output writer. *)
Definition no_output (a : args) : Prop :=
  output_csv a = false /\ output_bigquery a = false
  /\ upload_csv_to_bigquery_overwrite a = false.

Definition single_process (a : args) : bool :=
  negb (multiprocessing a) || bool_decide (num_processes a = Some 1%Z).

Lemma main_single_process a fs (s : driver W) :
  no_output a -> single_process a = true ->
  main attempt worker_outcome completion_order a fs s =
    match list_map (run_losses attempt) (seqZ 0 (num_simulations a)) (world s) with
    | (Ok _, w) => (Ok tt, {| world := w; events := events s ++ [SerialOutputCreated []] |})
    | (Raise e, w) =>
        (Raise e, {| world := w; events := events s ++ [SerialOutputCreated []] |})
    end.
Proof.
  intros (Hcsv & Hbq & Hup) Hsingle. unfold main, validate_arguments.
  rewrite Hcsv, Hbq, Hup. unfold single_process in Hsingle. rewrite Hsingle.
  cbn [lift_result orb app]. unfold bind at 1. cbn [ret]. unfold bind at 1. cbn [ret].
  unfold bind at 1. cbn [ret]. unfold bind at 1. cbn [emit modify].
  unfold bind at 1. unfold zoom. cbn [world events].
  by destruct (list_map _ _ _) as [[rs|e] w].
Qed.

Lemma main_pool a fs (s : driver W) :
  no_output a -> single_process a = false ->
  exists rest,
    main attempt worker_outcome completion_order a fs s =
      (do_ list_imap_unordered worker_outcome
             (completion_order (seqZ 0 (num_simulations a)));
       rest)
        {| world := world s;
           events := events s ++ [PoolCreated; LoggingThreadStarted;
                                  OutputProcessStarted []] |}.
Proof.
  intros (Hcsv & Hbq & Hup) Hsingle. unfold main, validate_arguments.
  rewrite Hcsv, Hbq, Hup. unfold single_process in Hsingle. rewrite Hsingle.
  cbn [lift_result orb app]. unfold bind at 1. cbn [ret]. unfold bind at 1. cbn [ret].
  unfold bind at 1. cbn [ret].
  unfold bind at 1. cbn [emit modify]. unfold bind at 1. cbn [emit modify].
  unfold bind at 1. cbn [emit modify]. cbn [world events].
  eexists. rewrite <- !app_assoc. reflexivity.
Qed.

End DriverFacts.

Section DriverTheorems.

Import generate_losses.

(** C5, as amended. [main] has no handler around its trials. In the single
    process, when a trial has used up its 3 attempts, its [RetryError]
    leaves [list(map(...))] and [main]: the trials before it have run, the
    trials after it are never started, and nothing records the failure. In
    the pool, collecting the results raises when the result of a failed
    trial arrives, whatever the order of arrival, so [main] ends before
    [outputs.stop()] and the joins. Only the cloud function
    [_start_simulation], which runs one trial, catches the exception of
    its trial and logs it. *)
Theorem failed_trial_aborts_main
    {W : Type} (attempt : Z -> nat -> M W Z) (worker_outcome : Z -> result Z)
    (completion_order : list Z -> list Z) (a : args) fs (s : driver W) (sim : Z) :
  no_output a ->
  (single_process a = true ->
   forall before after rs w1,
     seqZ 0 (num_simulations a) = before ++ sim :: after ->
     list_map (run_losses attempt) before (world s) = (Ok rs, w1) ->
     always_raises attempt sim ->
     exists w2,
       run_losses attempt sim w1 = (Raise RetryError, w2)
       /\ main attempt worker_outcome completion_order a fs s =
            (Raise RetryError,
             {| world := w2; events := events s ++ [SerialOutputCreated []] |}))
  /\ (single_process a = false ->
      forall e,
        sim ∈ completion_order (seqZ 0 (num_simulations a)) ->
        worker_outcome sim = Raise e ->
        exists e' received,
          main attempt worker_outcome completion_order a fs s =
            (Raise e',
             {| world := world s;
                events := events s ++
                          [PoolCreated; LoggingThreadStarted; OutputProcessStarted []] ++
                          map ResultReceived received |}))
  /\ (forall (W' : Type) PROJECT_ID BIGQUERY_OUTPUT_DATASET
             (trial : list simulation_output.BigqueryRowWriter -> Z -> M W' Z)
             sim_id (s' : W' * list string),
        fst (cloud_main._start_simulation PROJECT_ID BIGQUERY_OUTPUT_DATASET trial
               cloud_main.STORM_TYPE_HAIL sim_id false s') = Ok tt).
Proof.
  intros Hno. split; [|split].
  - intros Hsingle before after rs w1 Hsims Hbefore Hsim.
    destruct (run_losses_exhausted attempt sim w1 Hsim) as [w2 Hfail].
    exists w2. split; [done|].
    rewrite main_single_process by done. rewrite Hsims.
    by rewrite (list_map_stops _ _ _ _ _ _ _ _ _ Hbefore Hfail).
  - intros Hpool e Hin Hsim.
    destruct (main_pool attempt worker_outcome completion_order a fs s Hno Hpool)
      as [rest ->].
    destruct (list_imap_unordered_raises worker_outcome _ sim e
                {| world := world s;
                   events := events s ++ [PoolCreated; LoggingThreadStarted;
                                          OutputProcessStarted []] |} Hin Hsim)
      as (e' & received & Hraise).
    exists e', received. unfold bind at 1. rewrite Hraise. cbn [world events].
    by rewrite <- app_assoc.
  - intros W' PROJECT_ID BIGQUERY_OUTPUT_DATASET trial sim_id s'.
    unfold cloud_main._start_simulation.
    change (negb (existsb (String.eqb cloud_main.STORM_TYPE_HAIL)
                    cloud_main.SUPPORTED_STORM_TYPES)) with false.
    change (String.eqb cloud_main.STORM_TYPE_HAIL cloud_main.STORM_TYPE_HAIL) with true.
    unfold bind, cloud_main.log, modify, ret. cbn [fst snd].
    by destruct (trial [] sim_id (fst s')) as [[r|e] w].
Qed.

End DriverTheorems.

Module driver_examples.

Import generate_losses.

(** Three simulations without output; simulation 1 raises in every
    attempt. The world of the single process is the list of the
    simulations whose attempts started. *)
Definition attempt (sim_id : Z) (_ : nat) : M (list Z) Z :=
  fun started =>
    if (sim_id =? 1)%Z then (Raise (UnboundLocalError "nlr_value"), started ++ [sim_id])
    else (Ok sim_id, started ++ [sim_id]).

Definition worker_outcome (sim_id : Z) : result Z :=
  if (sim_id =? 1)%Z then Raise RetryError else Ok sim_id.

Definition three_simulations (multiprocessing : bool) : args :=
  {| num_simulations := 3; multiprocessing := multiprocessing; num_processes := None;
     output_csv := false; csv_output_dir := "files/output"; csv_overwrite := false;
     upload_csv_to_bigquery_overwrite := false; output_bigquery := false;
     bigquery_dataset := "simulations_v2"; project_id := None |}.

Definition at_start : driver (list Z) := {| world := []; events := [] |}.

(** The reading of C5: [main] returns although a trial failed, and in the
    single process the trials after the failed one have run. *)
Definition failed_trial_is_isolated (multiprocessing : bool) : Prop :=
  exists s,
    main attempt worker_outcome id (three_simulations multiprocessing) ∅ at_start
      = (Ok tt, s)
    /\ (multiprocessing = false -> 2%Z ∈ world s).

End driver_examples.

Section DriverExamples.

Import generate_losses driver_examples.

Lemma failed_trial_aborts_main_witness :
  (exists w2,
     run_losses attempt 1 [0%Z] = (Raise RetryError, w2)
     /\ main attempt worker_outcome id (three_simulations false) ∅ at_start =
          (Raise RetryError, {| world := w2; events := [] ++ [SerialOutputCreated []] |}))
  /\ (exists e' received,
        main attempt worker_outcome id (three_simulations true) ∅ at_start =
          (Raise e',
           {| world := [];
              events := [] ++ [PoolCreated; LoggingThreadStarted; OutputProcessStarted []]
                        ++ map ResultReceived received |})).
Proof.
  split.
  - apply (proj1 (failed_trial_aborts_main attempt worker_outcome id
                    (three_simulations false) ∅ at_start 1
                    (conj eq_refl (conj eq_refl eq_refl)))
             eq_refl [0%Z] [2%Z] [0%Z] [0%Z] eq_refl eq_refl).
    intros n w. reflexivity.
  - apply (proj1 (proj2 (failed_trial_aborts_main attempt worker_outcome id
                           (three_simulations true) ∅ at_start 1
                           (conj eq_refl (conj eq_refl eq_refl))))
             eq_refl RetryError); [|reflexivity].
    apply list_elem_of_In. vm_compute. auto.
Defined.

(** C5, as stated, fails in both paths of [main]: simulation 1 fails, and
    in the single process simulation 2 is never started while in the pool
    the results are dropped after the first one and the shutdown steps are
    not reached. *)
Lemma main_does_not_survive_a_failed_trial :
  main attempt worker_outcome id (three_simulations false) ∅ at_start
    = (Raise RetryError,
       {| world := [0; 1; 1; 1]%Z; events := [SerialOutputCreated []] |})
  /\ main attempt worker_outcome id (three_simulations true) ∅ at_start
    = (Raise RetryError,
       {| world := [];
          events := [PoolCreated; LoggingThreadStarted; OutputProcessStarted [];
                     ResultReceived 0] |})
  /\ ~ failed_trial_is_isolated false
  /\ ~ failed_trial_is_isolated true.
Proof.
  assert (H1 : main attempt worker_outcome id (three_simulations false) ∅ at_start
               = (Raise RetryError,
                  {| world := [0; 1; 1; 1]%Z; events := [SerialOutputCreated []] |}))
    by (by vm_compute).
  assert (H2 : main attempt worker_outcome id (three_simulations true) ∅ at_start
               = (Raise RetryError,
                  {| world := [];
                     events := [PoolCreated; LoggingThreadStarted; OutputProcessStarted [];
                                ResultReceived 0] |}))
    by (by vm_compute).
  split; [done|]. split; [done|]. split.
  - intros (s & Hs & _). rewrite H1 in Hs. discriminate.
  - intros (s & Hs & _). rewrite H2 in Hs. discriminate.
Qed.

End DriverExamples.

(** ** LocalCsvWriter *)

Section CsvFacts.

Import simulation_output.

Implicit Types (self : LocalCsvWriter) (fs : filesystem) (row : dict string).
Implicit Types (file_writer : DictWriter).

(** The body of the loop of [write_rows]. *)
Definition write_row (filepath : string) row : M (LocalCsvWriter * filesystem) unit :=
  do file_writer <- get_writer filepath (dict_keys row);
  writerow file_writer row.

(** The records of a file, none for a file that does not exist. *)
Definition contents fs (filepath : string) : list (list string) :=
  match fs !! filepath with
  | Some l => l
  | None => []
  end.

Lemma contents_insert fs filepath l : contents (<[filepath := l]> fs) filepath = l.
Proof. unfold contents. by rewrite lookup_insert_eq. Qed.

(** The records that a writer makes of rows. *)
Definition records file_writer (rows : list (dict string)) : list (list string) :=
  map (_dict_to_list file_writer) rows.

Lemma write_rows_unfold name rows self fs :
  write_rows name rows (self, fs) =
    for_each (write_row (format_filepath self name)) (as_list rows) (self, fs).
Proof. reflexivity. Qed.

Lemma existsb_eqb_elem (k : string) (l : list string) :
  k ∈ l -> existsb (String.eqb k) l = true.
Proof.
  induction 1 as [k l|k k' l _ IH]; simpl.
  - by rewrite String.eqb_refl.
  - by rewrite IH, orb_true_r.
Qed.

Lemma wrong_fields_own_keys filepath row :
  wrong_fields {| filehandle := filepath; fieldnames := dict_keys row |} row = [].
Proof.
  unfold wrong_fields. cbn [fieldnames].
  assert (H : forall l, (forall k, k ∈ l -> k ∈ dict_keys row) ->
            filter (fun k => negb (existsb (String.eqb k) (dict_keys row))) l = []).
  { induction l as [|k l IH]; intros Hl; [done|].
    rewrite filter_cons. rewrite (existsb_eqb_elem k (dict_keys row)).
    - cbn. rewrite decide_False by (by intros []). apply IH.
      intros k' Hk'. apply Hl. by apply elem_of_cons; right.
    - apply Hl. by apply elem_of_cons; left. }
  by apply H.
Qed.

(** Writing rows to a file that the writer has open. *)
Lemma write_to_open_file filepath file_writer rows self fs r self' fs' :
  file_writers self !! filepath = Some file_writer ->
  filehandle file_writer = filepath ->
  for_each (write_row filepath) rows (self, fs) = (r, (self', fs')) ->
  self' = self
  /\ (forall p, p <> filepath -> fs' !! p = fs !! p)
  /\ (r = Ok tt ->
      fs' = match rows with
            | [] => fs
            | _ => <[filepath := contents fs filepath ++ records file_writer rows]> fs
            end).
Proof.
  intros Hopen Hhandle. revert fs.
  induction rows as [|row rest IH]; intros fs; simpl.
  - unfold ret. by intros [= <- <- <-].
  - unfold bind at 1. unfold write_row at 1. unfold bind at 1.
    unfold get_writer at 1. rewrite Hopen. unfold writerow at 1.
    destruct (truthy_list (wrong_fields file_writer row)).
    { by intros [= <- <- <-]. }
    rewrite Hhandle. fold (contents fs filepath).
    intros Hrest. apply IH in Hrest as (-> & Hframe & Hcontent).
    split; [done|]. split.
    + intros p Hp. rewrite Hframe by done. by rewrite lookup_insert_ne.
    + intros Hr. rewrite (Hcontent Hr). destruct rest as [|row' rest]; [done|].
      rewrite contents_insert, insert_insert_eq. f_equal.
      unfold records. cbn [map]. by rewrite <- app_assoc.
Qed.

(** The first write to a file that the writer has not opened yet. *)
Lemma write_to_new_file filepath row rest self fs r self' fs' :
  file_writers self !! filepath = None ->
  for_each (write_row filepath) (row :: rest) (self, fs) = (r, (self', fs')) ->
  let file_writer := {| filehandle := filepath; fieldnames := dict_keys row |} in
  self' = {| output_dir := output_dir self; storm_type := storm_type self;
             file_writers := <[filepath := file_writer]> (file_writers self);
             overwrite := overwrite self |}
  /\ (forall p, p <> filepath -> fs' !! p = fs !! p)
  /\ (r = Ok tt -> fs' = <[filepath := records file_writer (row :: rest)]> fs).
Proof.
  intros Hclosed Hrest file_writer. cbn [for_each] in Hrest.
  unfold bind at 1 in Hrest. unfold write_row at 1 in Hrest.
  unfold bind at 1 in Hrest. unfold get_writer at 1 in Hrest. rewrite Hclosed in Hrest.
  unfold writerow at 1 in Hrest. rewrite wrong_fields_own_keys in Hrest.
  cbn [truthy_list filehandle] in Hrest. unfold open_w in Hrest.
  rewrite lookup_insert_eq, insert_insert_eq in Hrest. cbn [app] in Hrest.
  fold file_writer in Hrest.
  eapply (write_to_open_file filepath file_writer) in Hrest
    as (-> & Hframe & Hcontent); [| by cbn; rewrite lookup_insert_eq | done].
  split; [done|]. split.
  - intros p Hp. rewrite Hframe by done. by rewrite lookup_insert_ne.
  - intros Hr. rewrite (Hcontent Hr). destruct rest as [|row' rest]; [done|].
    by rewrite contents_insert, insert_insert_eq.
Qed.

End CsvFacts.

Section CsvTheorems.

Import simulation_output.

(** Every open writer writes the file it is filed under. *)
Definition handles_match (self : LocalCsvWriter) : Prop :=
  forall p file_writer,
    file_writers self !! p = Some file_writer -> filehandle file_writer = p.

(** C8, as amended. The rows of an output kind go to the one file
    [{dir}/{storm_type}_{output_kind}.csv] (the slash is left out when
    [dir] ends with one) and no other file or writer is touched. The file
    is opened, that is created or truncated, at the first write of its
    kind and its writer is kept from then on, with the columns of that
    first row. No header is written: after the first write the file holds
    one record for each row written and nothing before them. *)
Theorem csv_rows_go_to_one_file_without_header
    (self : LocalCsvWriter) (fs : filesystem) (name : string)
    (rows : one_or_many (dict string)) r self' fs' :
  handles_match self ->
  write_rows name rows (self, fs) = (r, (self', fs')) ->
  let filepath := format_filepath self name in
  filepath = output_dir self +:+ (if endswith_slash (output_dir self) then "" else "/")
             +:+ storm_type self +:+ "_" +:+ name +:+ ".csv"
  /\ format_filepath self' name = filepath
  /\ handles_match self'
  /\ (forall p, p <> filepath ->
        fs' !! p = fs !! p /\ file_writers self' !! p = file_writers self !! p)
  /\ (forall file_writer,
        file_writers self !! filepath = Some file_writer ->
        file_writers self' !! filepath = Some file_writer)
  /\ (as_list rows <> [] -> is_Some (file_writers self' !! filepath))
  /\ (r = Ok tt ->
      match file_writers self !! filepath, as_list rows with
      | _, [] => fs' = fs /\ self' = self
      | Some file_writer, row :: rest =>
          fs' !! filepath =
            Some (contents fs filepath ++ records file_writer (row :: rest))
      | None, row :: rest =>
          file_writers self' !! filepath =
            Some {| filehandle := filepath; fieldnames := dict_keys row |}
          /\ fs' !! filepath =
               Some (records {| filehandle := filepath; fieldnames := dict_keys row |}
                       (row :: rest))
      end).
Proof.
  intros Hmatch Hrun filepath. rewrite write_rows_unfold in Hrun. fold filepath in Hrun.
  split.
  { subst filepath. unfold format_filepath. by destruct (endswith_slash (output_dir self)). }
  destruct (file_writers self !! filepath) as [file_writer|] eqn:Hopen.
  - pose proof (write_to_open_file filepath file_writer _ _ _ _ _ _
                  Hopen (Hmatch _ _ Hopen) Hrun) as (Hself & Hframe & Hcontent).
    subst self'.
    split; [done|]. split; [done|]. split; [by intros p Hp; split; [apply Hframe|]|].
    split; [by intros fw [= ->]|]. split; [by intros _; eexists|].
    intros Hr. specialize (Hcontent Hr).
    destruct (as_list rows) as [|row rest]; [done|].
    by rewrite Hcontent, lookup_insert_eq.
  - destruct (as_list rows) as [|row rest] eqn:Hrows.
    { cbn [for_each] in Hrun. unfold ret in Hrun. injection Hrun as <- <- <-.
      split; [done|]. split; [done|]. split; [done|]. split; [done|].
      split; [done|]. done. }
    pose proof (write_to_new_file filepath row rest _ _ _ _ _ Hopen Hrun)
      as (Hself & Hframe & Hcontent).
    subst self'.
    split; [done|]. split.
    { intros p fw. cbn [file_writers]. destruct (decide (p = filepath)) as [->|Hp].
      - rewrite lookup_insert_eq. by intros [= <-].
      - rewrite lookup_insert_ne by done. apply Hmatch. }
    split.
    { intros p Hp. split; [by apply Hframe|]. cbn [file_writers].
      by rewrite lookup_insert_ne. }
    split; [done|]. split.
    { intros _. cbn [file_writers]. rewrite lookup_insert_eq. by eexists. }
    intros Hr. cbn [file_writers]. rewrite lookup_insert_eq. split; [done|].
    by rewrite (Hcontent Hr), lookup_insert_eq.
Qed.

End CsvTheorems.

Module csv_examples.

Import simulation_output.

(** A writer that has written nothing, an empty file system, and one row
    of the losses output. *)
Definition hail_writer : LocalCsvWriter :=
  {| output_dir := "files/output"; storm_type := "hail";
     file_writers := ∅; overwrite := true |}.

Definition losses_row : dict string := [("SimId", "7"); ("total", "20000")].

Definition losses_file := "files/output/hail_losses.csv".

(** The reading of C8: the first write puts the names of the columns in
    the file before the first record. *)
Definition header_is_written_first (fs : filesystem) (filepath : string)
    (row : dict string) : Prop :=
  exists data, fs !! filepath = Some (dict_keys row :: data).

End csv_examples.

Section CsvExamples.

Import simulation_output csv_examples.

Lemma csv_rows_go_to_one_file_without_header_witness :
  file_writers (fst (snd (write_rows OUTPUT_LOSSES (One losses_row) (hail_writer, ∅))))
    !! losses_file
  = Some {| filehandle := losses_file; fieldnames := ["SimId"; "total"] |}
  /\ snd (snd (write_rows OUTPUT_LOSSES (One losses_row) (hail_writer, ∅))) !! losses_file
     = Some [["7"; "20000"]].
Proof.
  assert (Hmatch : handles_match hail_writer).
  { intros p fw H. cbn in H. by rewrite lookup_empty in H. }
  exact (proj2 (proj2 (proj2 (proj2 (proj2 (proj2
           (csv_rows_go_to_one_file_without_header hail_writer ∅ OUTPUT_LOSSES
              (One losses_row) (Ok tt)
              (fst (snd (write_rows OUTPUT_LOSSES (One losses_row) (hail_writer, ∅))))
              (snd (snd (write_rows OUTPUT_LOSSES (One losses_row) (hail_writer, ∅))))
              Hmatch eq_refl)))))) eq_refl).
Defined.

(** C8, as stated, fails at the first write of a kind: the file holds the
    record of the row and no header before it. *)
Lemma first_write_writes_no_header :
  snd (snd (write_rows OUTPUT_LOSSES (One losses_row) (hail_writer, ∅))) !! losses_file
    = Some [["7"; "20000"]]
  /\ ~ header_is_written_first
        (snd (snd (write_rows OUTPUT_LOSSES (One losses_row) (hail_writer, ∅))))
        losses_file losses_row.
Proof.
  assert (H : snd (snd (write_rows OUTPUT_LOSSES (One losses_row) (hail_writer, ∅)))
              !! losses_file = Some [["7"; "20000"]]) by (by vm_compute).
  split; [done|]. intros [data Hdata]. rewrite H in Hdata. discriminate.
Qed.

End CsvExamples.

(** ** The embedding against the tests of the repository *)

Section RepositoryTests.

Import simulation_output.

(** [test_buffered_output_flushes_when_output_max_reached] *)
Example buffered_output_flushes_when_output_max_reached :
  with_stream (fun o : OutputFanout nat => o) (fun o _ => o) 2 DEFAULT_TOTAL_BUFFER_MAX_ROWS
    (do_ stream_add (fun o => o) (fun o _ => o) OUTPUT_PREMIUMS (Many [1]);
     do_ stream_add (fun o => o) (fun o _ => o) OUTPUT_LOSSES (Many [2; 3]);
     stream_add (fun o => o) (fun o _ => o) OUTPUT_PREMIUMS (One 4))
    []
  = (Ok tt, [ (OUTPUT_PREMIUMS, Many [1]); (OUTPUT_LOSSES, Many [2; 3]);
              (OUTPUT_PREMIUMS, Many [4]) ]).
Proof. reflexivity. Qed.

(** [test_buffered_output_flushes_when_buffer_max_reached] *)
Example buffered_output_flushes_when_buffer_max_reached :
  with_stream (fun o : OutputFanout nat => o) (fun o _ => o) DEFAULT_PER_OUTPUT_MAX_ROWS 2
    (do_ stream_add (fun o => o) (fun o _ => o) OUTPUT_PREMIUMS (Many [1; 2]);
     do_ stream_add (fun o => o) (fun o _ => o) OUTPUT_LOSSES (Many [3; 4]);
     stream_add (fun o => o) (fun o _ => o) OUTPUT_PREMIUMS (One 4))
    []
  = (Ok tt, [ (OUTPUT_PREMIUMS, Many [1; 2]); (OUTPUT_LOSSES, Many [3; 4]);
              (OUTPUT_PREMIUMS, Many [4]) ]).
Proof. reflexivity. Qed.

(** A body that raises after its first [add] is flushed all the same. *)
Example buffered_output_flushes_when_the_body_raises :
  with_stream (fun o : OutputFanout nat => o) (fun o _ => o)
    DEFAULT_PER_OUTPUT_MAX_ROWS DEFAULT_TOTAL_BUFFER_MAX_ROWS
    (do_ stream_add (fun o => o) (fun o _ => o) OUTPUT_LOSSES (One 1);
     do_ @raise _ unit (KeyError "Stone");
     stream_add (fun o => o) (fun o _ => o) OUTPUT_LOSSES (One 2))
    []
  = (Raise (KeyError "Stone"), [ (OUTPUT_LOSSES, Many [1]) ]).
Proof. reflexivity. Qed.

(** [test_format_column_name_for_output] and the columns of the
    specification. *)
Example format_column_name_for_output_cases :
  format_column_name_for_output "NothingShouldBeReplaced" None "_"
    = "NothingShouldBeReplaced"
  /\ format_column_name_for_output "NothingShouldBeReplaced" (Some "prefixed") "_"
     = "prefixed_NothingShouldBeReplaced"
  /\ format_column_name_for_output "Replaced.with under-scores" None "_"
     = "Replaced_with_under_scores"
  /\ format_column_name_for_output "Custom.replacement" None "+" = "Custom+replacement"
  /\ format_column_name_for_output "Saint.Louis City" None "_" = "Saint_Louis_City"
  /\ format_column_name_for_output "72401" (Some "zip") "_" = "zip_72401".
Proof. repeat split; reflexivity. Qed.

(** [test_csv_writer_builds_filepath] and
    [test_csv_writer_raises_if_file_exists_no_overwite] *)
Example csv_writer_builds_filepath :
  format_filepath {| output_dir := "/fake/path"; storm_type := "fakestorm";
                     file_writers := ∅; overwrite := true |} "losses"
  = "/fake/path/fakestorm_losses.csv".
Proof. reflexivity. Qed.

Example csv_writer_raises_if_file_exists_no_overwrite :
  new_LocalCsvWriter {[ "/fake/path/fakestorm_nlr.csv" := [] ]}
    [VStr "/fake/path"; VStr "fakestorm"] [("overwrite", VBool false)]
  = Raise (InitializationError
             "File exists and overwrite is not enabled: /fake/path/fakestorm_nlr.csv").
Proof. by vm_compute. Qed.

(** [test_bigquery_writer_format_tablename] *)
Example bigquery_writer_format_tablename :
  (fun w => match w with
            | Ok w => Some (format_tablename w "losses")
            | Raise _ => None
            end)
    (new_BigqueryRowWriter [VStr "fake-project"; VStr "hail"] [])
  = Some "simulations_v2.hail_losses".
Proof. reflexivity. Qed.

(** [test_geo_types]: the codes of the levels. *)
Example str_to_int_cases :
  geo_types.str_to_int "total" = 4%Z /\ geo_types.str_to_int "state" = 1%Z
  /\ geo_types.str_to_int "county" = 2%Z /\ geo_types.str_to_int "zip" = 3%Z
  /\ geo_types.str_to_int " Total " = 4%Z /\ geo_types.str_to_int "parish" = (-1)%Z.
Proof. repeat split; reflexivity. Qed.

(** [test_test_batch_flushes_when_batch_exceeds_and_at_end_of_context] *)
Example batch_flushes_when_batch_size_is_reached :
  let accepting : bigquery.Client nat :=
    {| bigquery.insert_rows_response := fun _ => [];
       bigquery.insert_rows_calls := []; bigquery.get_table_calls := 0 |} in
  let entered :=
    bigquery.__enter__
      {| bigquery.client := accepting; bigquery.stream_table := bigquery.TableId "fake.table";
         bigquery.batch_size := 2; bigquery.batch := None; bigquery.total := 0 |} in
  let after :=
    snd ((do_ bigquery.insert (One 1);
          do_ bigquery.insert (One 2);
          do_ bigquery.insert (One 3);
          bigquery.__exit__) entered) in
  bigquery.insert_rows_calls (bigquery.client after) = [[1; 2]; [3]]
  /\ bigquery.total after = 3%Z
  /\ bigquery.batch after = Some [].
Proof. repeat split; reflexivity. Qed.

(** The loss ratio of the specification without a premium. *)
Example generate_loss_ratio_without_premium (loss : Z) :
  generate_losses.generate_loss_ratio (fun _ _ => tt) 0 loss = generate_losses.Int 0.
Proof. reflexivity. Qed.

End RepositoryTests.

(** * Further properties of the code *)

(** ** [BufferedOutputStream]: rows added and rows sent *)

Section StreamDelivery.

Import simulation_output.

Context {Row : Type}.
Implicit Types (self : BufferedOutputStream Row) (outputs : OutputFanout Row).
Implicit Types (b : dict (list Row)) (w : BufferedOutputStream Row * OutputFanout Row).
Implicit Types (calls : list (string * rows_arg Row)).

Lemma delivered_add_all k calls w :
  NoDup (dict_keys (buffer (fst w))) ->
  delivered k (add_all calls w) = delivered k w ++ rows_of k calls.
Proof.
  revert w. induction calls as [|[name rows] calls IH]; intros w Hnd; simpl.
  - by rewrite app_nil_r.
  - rewrite IH by (by apply add_keys_NoDup).
    rewrite delivered_add by done. by rewrite <- app_assoc.
Qed.

(** The number of rows that the buffer holds. *)
Definition buffered_rows b : Z :=
  foldr (fun item n => Z.of_nat (length (snd item)) + n)%Z 0%Z b.

Lemma buffered_rows_extend b name (rows : list Row) :
  buffered_rows (dict_set b name (buffer_get b name ++ rows)) =
    (buffered_rows b + Z.of_nat (length rows))%Z.
Proof.
  unfold buffer_get. induction b as [|[k' old] b IH]; simpl.
  - lia.
  - destruct (String.eqb k' name) eqn:E; simpl.
    + rewrite length_app. lia.
    + rewrite IH. lia.
Qed.






End StreamDelivery.

(** ** The stream on a fanout whose [send] may raise *)

Section AnyFanoutFacts.

Import simulation_output.

Context {Row F : Type} (outputs_send : string -> rows_arg Row -> M F unit).
Implicit Types (self : BufferedOutputStream Row) (outputs : F).
Implicit Types (b : dict (list Row)) (w : BufferedOutputStream Row * F).
Implicit Types (calls : list (string * rows_arg Row)).

(** One [send] for each of a sequence of messages, up to the first that
    raises. *)
Definition sends (messages : list (string * rows_arg Row)) : M F unit :=
  for_each (fun m => outputs_send (fst m) (snd m)) messages.

(** A sequence of [add] calls, up to the first that raises. *)
Definition adds calls : M (BufferedOutputStream Row * F) unit :=
  for_each (fun call => BufferedOutputStream_add outputs_send (fst call) (snd call)) calls.

Lemma sends_app messages1 messages2 outputs :
  sends (messages1 ++ messages2) outputs =
    (do_ sends messages1; sends messages2) outputs.
Proof.
  revert outputs. induction messages1 as [|m messages1 IH]; intros outputs.
  - done.
  - cbn [app]. unfold sends in *. cbn [for_each]. unfold bind in *.
    destruct (outputs_send (fst m) (snd m) outputs) as [[[]|e] outputs1]; [|done].
    apply IH.
Qed.

(** The loop of [flush] sends the messages of the flush. *)
Lemma flush_loop b self outputs :
  for_each
    (fun item =>
       if truthy_list (snd item)
       then on_outputs (outputs_send (fst item) (Many (snd item)))
       else ret tt)
    b (self, outputs) =
    (fst (sends (flush_messages b) outputs), (self, snd (sends (flush_messages b) outputs))).
Proof.
  revert outputs. induction b as [|[k rows] b IH]; intros outputs; [done|].
  rewrite flush_messages_cons. cbn [for_each fst snd]. unfold bind at 1.
  destruct (truthy_list rows).
  - cbn [app]. unfold sends at 1 2. cbn [for_each fst snd]. unfold bind.
    unfold on_outputs, zoom. cbn [fst snd].
    destruct (outputs_send k (Many rows) outputs) as [[[]|e] outputs1]; [|done].
    apply IH.
  - cbn [ret app]. apply IH.
Qed.

(** [flush]: the messages are sent up to the first [send] that raises; the
    buffer is emptied only when every [send] returned. *)
Lemma BufferedOutputStream_flush_spec self outputs :
  BufferedOutputStream_flush outputs_send (self, outputs) =
    match sends (flush_messages (buffer self)) outputs with
    | (Ok _, outputs) => (Ok tt, (_init_buffer (count_flush self), outputs))
    | (Raise e, outputs) => (Raise e, (count_flush self, outputs))
    end.
Proof.
  unfold BufferedOutputStream_flush. unfold bind at 1. unfold on_stream at 1, zoom at 1.
  cbn [modify fst snd]. unfold bind at 1. unfold on_stream at 1, zoom at 1.
  cbn [get fst snd]. unfold bind at 1. cbn [count_flush buffer].
  rewrite flush_loop.
  destruct (sends (flush_messages (buffer self)) outputs) as [[[]|e] outputs1]; done.
Qed.

Lemma BufferedOutputStream_add_spec name rows self outputs :
  BufferedOutputStream_add outputs_send name rows (self, outputs) =
    if threshold_reached name (extend name (as_list rows) self)
    then BufferedOutputStream_flush outputs_send (extend name (as_list rows) self, outputs)
    else (Ok tt, (extend name (as_list rows) self, outputs)).
Proof.
  unfold BufferedOutputStream_add. unfold bind at 1. unfold on_stream at 1, zoom at 1.
  cbn [modify fst snd]. unfold bind at 1. unfold on_stream at 1, zoom at 1.
  cbn [get fst snd]. by destruct (threshold_reached _ _).
Qed.


(** What every state of a stream has, whatever happened before: its
    thresholds, distinct kinds in the buffer, and a counter that is the
    number of rows buffered. *)
Definition stream_invariant (per_max total_max : Z) self : Prop :=
  per_output_max_rows self = per_max
  /\ total_buffer_max_rows self = total_max
  /\ NoDup (dict_keys (buffer self))
  /\ total_in_buffer self = buffered_rows (buffer self).

Lemma flush_invariant per_max total_max w :
  stream_invariant per_max total_max (fst w) ->
  stream_invariant per_max total_max
    (fst (snd (BufferedOutputStream_flush outputs_send w))).
Proof.
  destruct w as [self outputs]. intros (Hper & Htot & Hnd & Hcount).
  rewrite BufferedOutputStream_flush_spec.
  destruct (sends _ _) as [[[]|e] outputs1]; cbn [fst snd].
  - repeat split; try done. apply NoDup_nil_2.
  - by repeat split.
Qed.

Lemma extend_invariant per_max total_max name (rows : list Row) self :
  stream_invariant per_max total_max self ->
  stream_invariant per_max total_max (extend name rows self).
Proof.
  intros (Hper & Htot & Hnd & Hcount). repeat split; try done.
  - by apply extend_keys_NoDup.
  - unfold extend. cbn [total_in_buffer buffer]. rewrite buffered_rows_extend. lia.
Qed.

Lemma add_invariant per_max total_max name rows w :
  stream_invariant per_max total_max (fst w) ->
  stream_invariant per_max total_max
    (fst (snd (BufferedOutputStream_add outputs_send name rows w))).
Proof.
  destruct w as [self outputs]. intros Hinv. rewrite BufferedOutputStream_add_spec.
  destruct (threshold_reached _ _).
  - apply flush_invariant. by apply extend_invariant.
  - by apply extend_invariant.
Qed.

Lemma adds_invariant per_max total_max calls w :
  stream_invariant per_max total_max (fst w) ->
  stream_invariant per_max total_max (fst (snd (adds calls w))).
Proof.
  revert w. induction calls as [|[name rows] calls IH]; intros w Hinv; [done|].
  unfold adds in *. cbn [for_each fst snd]. unfold bind.
  pose proof (add_invariant per_max total_max name rows w Hinv) as Hadd.
  destruct (BufferedOutputStream_add outputs_send name rows w) as [[[]|e] w1]; [|done].
  by apply IH.
Qed.

Lemma entered_invariant per_max total_max outputs :
  stream_invariant per_max total_max
    (fst (snd (BufferedOutputStream__enter__ (F := F)
                 (__init__ per_max total_max, outputs)))).
Proof. repeat split; try done. apply NoDup_nil_2. Qed.

Lemma flush_messages_not_empty b :
  Forall (fun m : string * rows_arg Row => as_list (snd m) <> []) (flush_messages b).
Proof.
  induction b as [|[k rows] b IH]; [constructor|].
  rewrite flush_messages_cons. destruct rows as [|r rows]; [done|].
  cbn [truthy_list app]. by constructor.
Qed.

(** C3, as amended. For the stream that any sequence of [add] calls leaves
    in a [with] block, whether they all returned or one of them raised,
    on any fanout:
    - [add] appends its rows to those buffered for its kind, leaves the
      other kinds as they are and adds the number of its rows to the
      counter, which is the number of rows buffered; a kind enters the
      buffer at its first [add] since the buffer was emptied, behind the
      kinds already there;
    - an [add] after which its kind holds [per_output_max_rows] rows or
      more, or the buffer [total_buffer_max_rows] or more, calls [flush]
      once; any other [add] calls no flush and returns;
    - [flush] calls [send] once for each kind whose buffer is not empty,
      with all the rows buffered for it, no kind twice, in the order of
      the kinds in the buffer. When every [send] returns, the buffer is
      emptied and the counter set to 0. When a [send] raises, [flush]
      stops there and raises: the buffer and the counter stay as they
      were. With nothing buffered nothing is sent;
    - leaving the [with] block, whether its body returned or raised, calls
      [flush] once on what the body left; an exception of this flush
      leaves the block, otherwise the outcome of the body does.
    The defaults are 500 and 5000. *)
Theorem buffered_stream_flushes_once_at_threshold_and_at_exit
    (per_max total_max : Z) (outputs0 : F) calls (name : string) (rows : rows_arg Row) :
  let entered := snd (BufferedOutputStream__enter__ (__init__ per_max total_max, outputs0)) in
  let w := snd (adds calls entered) in
  let self := fst w in
  let before := buffer_get (buffer self) name in
  let added := match rows with One row => [row] | Many rows => rows end in
  let extended := extend name added self in
  let reached :=
    ((per_max <=? Z.of_nat (length (before ++ added)))
     || (total_max <=? total_in_buffer self + Z.of_nat (length added)))%Z in
  let flushed self messages outputs :=
    match sends messages outputs with
    | (Ok _, outputs) =>
        (Ok tt,
         ({| per_output_max_rows := per_max; total_buffer_max_rows := total_max;
             total_in_buffer := 0; buffer := [];
             flush_calls := S (flush_calls self) |}, outputs))
    | (Raise e, outputs) =>
        (Raise e,
         ({| per_output_max_rows := per_max; total_buffer_max_rows := total_max;
             total_in_buffer := total_in_buffer self; buffer := buffer self;
             flush_calls := S (flush_calls self) |}, outputs))
    end in
  (buffer_get (buffer extended) name = before ++ added
   /\ (forall k, k <> name -> buffer_get (buffer extended) k = buffer_get (buffer self) k)
   /\ total_in_buffer extended = (total_in_buffer self + Z.of_nat (length added))%Z
   /\ total_in_buffer self = buffered_rows (buffer self)
   /\ flush_calls extended = flush_calls self
   /\ dict_keys (buffer extended) =
        match dict_get (buffer self) name with
        | Some _ => dict_keys (buffer self)
        | None => dict_keys (buffer self) ++ [name]
        end)
  /\ BufferedOutputStream_add outputs_send name rows w =
       (if reached then flushed extended (flush_messages (buffer extended)) (snd w)
        else (Ok tt, (extended, snd w)))
  /\ (BufferedOutputStream_flush outputs_send w =
        flushed self (flush_messages (buffer self)) (snd w)
      /\ NoDup (map fst (flush_messages (buffer self)))
      /\ sublist (map fst (flush_messages (buffer self))) (dict_keys (buffer self))
      /\ (forall k, rows_of k (flush_messages (buffer self)) = buffer_get (buffer self) k)
      /\ Forall (fun m => as_list (snd m) <> []) (flush_messages (buffer self))
      /\ (Forall (fun item => snd item = []) (buffer self) ->
          flush_messages (buffer self) = []))
  /\ (forall (A : Type) (body : M (BufferedOutputStream Row * F) A),
        with_BufferedOutputStream outputs_send per_max total_max body outputs0 =
          match BufferedOutputStream_flush outputs_send (snd (body entered)) with
          | (Ok _, w') => (fst (body entered), snd w')
          | (Raise e, w') => (Raise e, snd w')
          end)
  /\ (DEFAULT_PER_OUTPUT_MAX_ROWS = 500%Z /\ DEFAULT_TOTAL_BUFFER_MAX_ROWS = 5000%Z).
Proof.
  intros entered w self before added extended reached flushed.
  assert (Hinv : stream_invariant per_max total_max self).
  { subst self w entered. apply adds_invariant, entered_invariant. }
  assert (Hext : stream_invariant per_max total_max extended).
  { by apply extend_invariant. }
  assert (Hflush : forall self0 outputs, stream_invariant per_max total_max self0 ->
            BufferedOutputStream_flush outputs_send (self0, outputs) =
              flushed self0 (flush_messages (buffer self0)) outputs).
  { intros self0 outputs (Hper & Htot & _). rewrite BufferedOutputStream_flush_spec.
    subst flushed. cbv beta. unfold _init_buffer, count_flush. cbn.
    rewrite Hper, Htot. by destruct (sends _ _) as [[[]|e] outputs1]. }
  destruct Hinv as (Hper & Htot & Hnd & Hcount).
  split; [|split; [|split; [|split]]].
  - subst extended. unfold extend. cbn [buffer total_in_buffer].
    split; [|split; [|split; [|split; [|split]]]].
    + by rewrite buffer_get_set, String.eqb_refl.
    + intros k Hk. rewrite buffer_get_set.
      destruct (String.eqb name k) eqn:E; [|done].
      apply String.eqb_eq in E. congruence.
    + done.
    + done.
    + done.
    + apply (extend_keys name added self).
  - destruct w as [self0 outputs] eqn:Hw. cbn [fst snd] in *. subst self.
    rewrite BufferedOutputStream_add_spec.
    change (as_list rows) with added. fold extended.
    assert (Hreached : threshold_reached name extended = reached).
    { unfold threshold_reached, reached. subst extended before. unfold extend.
      cbn [per_output_max_rows total_buffer_max_rows buffer total_in_buffer].
      by rewrite buffer_get_set, String.eqb_refl, Hper, Htot. }
    rewrite Hreached. destruct reached; [|done]. by apply Hflush.
  - split; [|split; [|split; [|split; [|split]]]].
    + destruct w as [self0 outputs] eqn:Hw. cbn [fst snd] in *. subst self.
      apply Hflush. by repeat split.
    + eapply sublist_NoDup; [exact Hnd|apply flush_messages_keys_sublist].
    + apply flush_messages_keys_sublist.
    + intros k. by apply rows_of_flush_messages.
    + apply flush_messages_not_empty.
    + apply flush_messages_empty.
  - intros A body. unfold with_BufferedOutputStream. cbv zeta.
    change (BufferedOutputStream__enter__ (__init__ per_max total_max, outputs0))
      with (Ok tt, entered).
    unfold BufferedOutputStream__exit__.
    by destruct (body entered) as [r w'].
  - done.
Qed.

Lemma adds_delivered calls w self outputs :
  NoDup (dict_keys (buffer (fst w))) ->
  adds calls w = (Ok tt, (self, outputs)) ->
  exists sent,
    sends sent (snd w) = (Ok tt, outputs)
    /\ forall k, rows_of k sent ++ buffer_get (buffer self) k =
                 buffer_get (buffer (fst w)) k ++ rows_of k calls.
Proof.
  revert w. induction calls as [|[name rows] calls IH]; intros [self0 outputs0] Hnd.
  - intros [= -> ->]. exists []. split; [done|]. intros k. cbn [fst].
    unfold rows_of. simpl. by rewrite app_nil_r.
  - unfold adds in *. cbn [for_each fst snd]. unfold bind at 1.
    rewrite BufferedOutputStream_add_spec.
    assert (Hext : forall k,
              buffer_get (buffer (extend name (as_list rows) self0)) k =
                buffer_get (buffer self0) k ++ (if String.eqb name k then as_list rows else [])).
    { intros k. unfold extend. cbn [buffer]. rewrite buffer_get_set.
      destruct (String.eqb name k) eqn:E; [|by rewrite app_nil_r].
      apply String.eqb_eq in E. by subst k. }
    assert (Hndx : NoDup (dict_keys (buffer (extend name (as_list rows) self0)))).
    { by apply extend_keys_NoDup. }
    destruct (threshold_reached _ _).
    + rewrite BufferedOutputStream_flush_spec.
      destruct (sends (flush_messages _) outputs0) as [[[]|e] outputs1] eqn:Hsent; [|done].
      intros Hrest. apply IH in Hrest as (sent & Hsends & Hrows);
        [|cbn; apply NoDup_nil_2].
      cbn [fst snd] in *.
      exists (flush_messages (buffer (extend name (as_list rows) self0)) ++ sent). split.
      * rewrite sends_app. unfold bind. by rewrite Hsent.
      * intros k. rewrite rows_of_app, <- app_assoc, Hrows.
        rewrite rows_of_flush_messages by done. rewrite Hext.
        unfold rows_of at 2. cbn [flat_map fst snd]. fold (rows_of k calls).
        unfold buffer_get. cbn. by rewrite <- app_assoc.
    + intros Hrest. apply IH in Hrest as (sent & Hsends & Hrows); [|done].
      cbn [fst snd] in *. exists sent. split; [done|].
      intros k. rewrite Hrows, Hext. unfold rows_of at 2. cbn [flat_map fst snd].
      fold (rows_of k calls). by rewrite <- app_assoc.
Qed.

(** X1. As long as no [send] raises, a stream opened by [with] neither
    loses, repeats nor reorders the rows of a kind. When the [add] calls
    of the block have returned, what the fanout was sent is a sequence of
    messages whose rows of each kind, followed by those waiting in the
    buffer, are the rows that the [add] calls were given for it, in the
    order given; and when the flush that leaves the block returns too,
    the block returns and the fanout was sent all of them. *)
Theorem buffered_stream_delivers_every_row_once
    (per_max total_max : Z) (outputs0 : F) calls self outputs :
  let entered := snd (BufferedOutputStream__enter__ (__init__ per_max total_max, outputs0)) in
  adds calls entered = (Ok tt, (self, outputs)) ->
  (exists sent,
     sends sent outputs0 = (Ok tt, outputs)
     /\ forall k, rows_of k sent ++ buffer_get (buffer self) k = rows_of k calls)
  /\ (forall outputs',
        sends (flush_messages (buffer self)) outputs = (Ok tt, outputs') ->
        with_BufferedOutputStream outputs_send per_max total_max (adds calls) outputs0
          = (Ok tt, outputs')
        /\ exists sent,
             sends sent outputs0 = (Ok tt, outputs')
             /\ forall k, rows_of k sent = rows_of k calls).
Proof.
  intros entered Hadds.
  destruct (adds_delivered calls entered self outputs) as (sent & Hsends & Hrows);
    [cbn; apply NoDup_nil_2|done|].
  assert (Hsends0 : sends sent outputs0 = (Ok tt, outputs)) by exact Hsends.
  assert (Hrows0 : forall k, rows_of k sent ++ buffer_get (buffer self) k = rows_of k calls)
    by exact Hrows.
  clear Hsends Hrows.
  assert (Hnd : NoDup (dict_keys (buffer self))).
  { pose proof (adds_invariant per_max total_max calls entered
                  (entered_invariant per_max total_max outputs0)) as (_ & _ & Hnd & _).
    by rewrite Hadds in Hnd. }
  split.
  - by exists sent.
  - intros outputs' Hexit. split.
    + unfold with_BufferedOutputStream. cbv zeta.
      change (BufferedOutputStream__enter__ (__init__ per_max total_max, outputs0))
        with (Ok tt, entered).
      cbv beta iota. rewrite Hadds. unfold BufferedOutputStream__exit__.
      by rewrite BufferedOutputStream_flush_spec, Hexit.
    + exists (sent ++ flush_messages (buffer self)). split.
      * rewrite sends_app. unfold bind. by rewrite Hsends0.
      * intros k. by rewrite rows_of_app, rows_of_flush_messages, Hrows0.
Qed.

End AnyFanoutFacts.

Section MessagesFanout.

Import simulation_output.

Context {Row : Type}.

(** The fanout that is the list of the messages it was sent. *)
Definition send_message (output_name : string) (rows : rows_arg Row)
    : M (OutputFanout Row) unit :=
  modify (send output_name rows).

Lemma sends_messages (messages : list (string * rows_arg Row)) (outputs : OutputFanout Row) :
  sends send_message messages outputs = (Ok tt, outputs ++ messages).
Proof.
  revert outputs. induction messages as [|m messages IH]; intros outputs.
  - cbn. by rewrite app_nil_r.
  - unfold sends in *. cbn [for_each]. unfold bind. cbn [send_message modify].
    rewrite IH. unfold send. rewrite <- app_assoc. by destruct m.
Qed.

(** On the list of messages, [flush] and [add] are the functions of the
    same names on that list, and return. *)
Lemma BufferedOutputStream_flush_on_messages
    (w : BufferedOutputStream Row * OutputFanout Row) :
  BufferedOutputStream_flush send_message w = (Ok tt, flush w).
Proof.
  destruct w as [self outputs]. rewrite BufferedOutputStream_flush_spec, sends_messages.
  by rewrite flush_spec.
Qed.

Lemma BufferedOutputStream_add_on_messages name rows
    (w : BufferedOutputStream Row * OutputFanout Row) :
  BufferedOutputStream_add send_message name rows w = (Ok tt, add name rows w).
Proof.
  destruct w as [self outputs]. rewrite BufferedOutputStream_add_spec, add_spec.
  cbn [fst snd]. destruct (threshold_reached _ _); [|done].
  apply BufferedOutputStream_flush_on_messages.
Qed.

End MessagesFanout.

Module stream_examples.

Import simulation_output.

(** A fanout whose writer fails on the premiums: its [send] raises for
    this kind and takes the message for any other. *)
Definition refusing_premiums (output_name : string) (rows : rows_arg nat)
    : M (OutputFanout nat) unit :=
  fun outputs =>
    if String.eqb output_name OUTPUT_PREMIUMS
    then (Raise (ValueError "dict contains fields not in fieldnames"), outputs)
    else (Ok tt, outputs ++ [(output_name, rows)]).

(** A stream that flushes at 3 rows of a kind, after one row of the
    exposures and one of the premiums were added. *)
Definition two_kinds_buffered : BufferedOutputStream nat * OutputFanout nat :=
  snd (adds refusing_premiums [(OUTPUT_EXPOSURES, One 1); (OUTPUT_PREMIUMS, One 2)]
         (__init__ 3 5000, [])).

(** The reading of C3 for a flush: it empties the buffer and sets the
    counter to 0. *)
Definition flush_empties_the_buffer
    (outputs_send : string -> rows_arg nat -> M (OutputFanout nat) unit)
    (w : BufferedOutputStream nat * OutputFanout nat) : Prop :=
  let flushed := fst (snd (BufferedOutputStream_flush outputs_send w)) in
  buffer flushed = [] /\ total_in_buffer flushed = 0%Z.

End stream_examples.

Section StreamExamples.

Import simulation_output stream_examples.
Local Open Scope Z_scope.

(** A flush in which a [send] raises does not empty the buffer: the kinds
    sent before the failure are sent again by the flush that leaves the
    block. *)
Lemma flush_interrupted_by_send_keeps_the_buffer :
  BufferedOutputStream_flush refusing_premiums two_kinds_buffered =
    (Raise (ValueError "dict contains fields not in fieldnames"),
     ({| per_output_max_rows := 3; total_buffer_max_rows := 5000;
         total_in_buffer := 2;
         buffer := [(OUTPUT_EXPOSURES, [1%nat]); (OUTPUT_PREMIUMS, [2%nat])];
         flush_calls := 1 |},
      [(OUTPUT_EXPOSURES, Many [1%nat])]))
  /\ ~ flush_empties_the_buffer refusing_premiums two_kinds_buffered
  /\ with_BufferedOutputStream refusing_premiums 3 5000
       (adds refusing_premiums
          [(OUTPUT_EXPOSURES, One 1%nat); (OUTPUT_PREMIUMS, One 2%nat);
           (OUTPUT_EXPOSURES, Many [3%nat; 4%nat])]) [] =
       (Raise (ValueError "dict contains fields not in fieldnames"),
        [(OUTPUT_EXPOSURES, Many [1; 3; 4]%nat); (OUTPUT_EXPOSURES, Many [1; 3; 4]%nat)]).
Proof.
  split; [by vm_compute|]. split; [|by vm_compute].
  intros [Hempty _]. vm_compute in Hempty. discriminate.
Qed.

(** The stream after three [add] calls on kinds that the fanout takes. *)
Definition after_three_adds : BufferedOutputStream nat * OutputFanout nat :=
  snd (adds refusing_premiums
         [(OUTPUT_EXPOSURES, One 1%nat); (OUTPUT_LOSSES, One 2%nat);
          (OUTPUT_EXPOSURES, Many [3%nat; 4%nat])]
         (__init__ 3 5000, [])).

Lemma buffered_stream_delivers_every_row_once_witness :
  let calls := [(OUTPUT_EXPOSURES, One 1%nat); (OUTPUT_LOSSES, One 2%nat);
                (OUTPUT_EXPOSURES, Many [3%nat; 4%nat])] in
  (exists sent,
     sends refusing_premiums sent [] = (Ok tt, snd after_three_adds)
     /\ forall k, rows_of k sent ++ buffer_get (buffer (fst after_three_adds)) k
                  = rows_of k calls)
  /\ (forall outputs',
        sends refusing_premiums (flush_messages (buffer (fst after_three_adds)))
          (snd after_three_adds) = (Ok tt, outputs') ->
        with_BufferedOutputStream refusing_premiums 3 5000 (adds refusing_premiums calls) []
          = (Ok tt, outputs')
        /\ exists sent,
             sends refusing_premiums sent [] = (Ok tt, outputs')
             /\ forall k, rows_of k sent = rows_of k calls).
Proof.
  apply (buffered_stream_delivers_every_row_once refusing_premiums 3 5000 []
           [(OUTPUT_EXPOSURES, One 1%nat); (OUTPUT_LOSSES, One 2%nat);
            (OUTPUT_EXPOSURES, Many [3%nat; 4%nat])]
           (fst after_three_adds) (snd after_three_adds)).
  reflexivity.
Defined.

End StreamExamples.


(** ** [Bigquery.insert_rows] and the streams and writers built on it *)

Section InsertRowsFacts.

Import bigquery.

Context {Row : Type}.
Implicit Types (c : Client Row) (t : @table) (rows : list Row).
Implicit Types (self : BigqueryInsertStream Row).

Lemma attempted_get_table t rows c :
  get_table_calls (attempted t rows c) =
    match t with
    | Table _ => get_table_calls c
    | _ => S (get_table_calls c)
    end.
Proof. by destruct t. Qed.

Lemma iter_attempted_get_table t rows n c :
  get_table_calls (Nat.iter n (attempted t rows) c) =
    match t with
    | Table _ => get_table_calls c
    | _ => (get_table_calls c + n)%nat
    end.
Proof.
  induction n as [|n IH]; simpl.
  - destruct t; lia.
  - rewrite attempted_get_table, IH. destruct t; lia.
Qed.

(** Among the answers to the next [remaining + 1] calls there is a first
    one without errors, or they all carry errors. *)
Lemma first_clean_answer (response : nat -> list string) (n remaining : nat) :
  exists k, (k <= remaining)%nat
    /\ (forall i, (i < k)%nat -> response (n + i)%nat <> [])
    /\ (k = remaining \/ response (n + k)%nat = []).
Proof.
  induction remaining as [|remaining (k & Hk & Hfail & Hstop)].
  - exists 0%nat. split; [lia|]. split; [intros i Hi; lia|by left].
  - destruct (response (n + k)%nat) as [|e errors] eqn:E.
    + exists k. split; [lia|]. split; [done|by right].
    + destruct Hstop as [->|Hstop]; [|congruence].
      exists (S remaining). split; [lia|]. split; [|by left].
      intros i Hi. destruct (decide (i = remaining)) as [->|Hne].
      * congruence.
      * apply Hfail. lia.
Qed.

(** The outcome of [Bigquery.insert_rows], whatever the service answers. *)
Lemma insert_rows_outcome t rows c :
  exists k, (k < 5)%nat
    /\ insert_rows t rows c =
         (Ok (insert_rows_response c (length (insert_rows_calls c) + k)),
          Nat.iter (S k) (attempted t rows) c)
    /\ (forall i, (i < k)%nat ->
          insert_rows_response c (length (insert_rows_calls c) + i) <> [])
    /\ (k = 4%nat \/ insert_rows_response c (length (insert_rows_calls c) + k) = []).
Proof.
  destruct (first_clean_answer (insert_rows_response c) (length (insert_rows_calls c)) 4)
    as (k & Hk & Hfail & Hstop).
  exists k. split; [lia|]. split; [|done].
  unfold insert_rows. change (INSERT_ROW_RETRY_MAX_RETRIES - 1)%nat with 4%nat.
  by apply retry_stops_at.
Qed.

(** [flush] on a batch that is not empty, from the outcome of the insert. *)
Lemma flush_outcome self row rows errors c' :
  batch self = Some (row :: rows) ->
  insert_rows (stream_table self) (row :: rows) (client self) = (Ok errors, c') ->
  flush self =
    if truthy_list errors then (Raise (InsertErrors errors), set_client c' self)
    else (Ok tt, {| client := c'; stream_table := stream_table self;
                    batch_size := batch_size self; batch := Some [];
                    total := (total self + Z.of_nat (length (row :: rows)))%Z |}).
Proof.
  intros Hbatch Hrun. unfold flush, bind, get, zoom. rewrite Hbatch, Hrun.
  by destruct errors.
Qed.

Lemma flush_empty self : batch self = Some [] -> flush self = (Ok tt, self).
Proof. intros Hbatch. unfold flush, bind, get. by rewrite Hbatch. Qed.

(** The stream after the two statements of [insert] that extend the
    batch. *)
Definition extended (rows : one_or_many Row) self (b : list Row) : BigqueryInsertStream Row :=
  {| client := client self; stream_table := stream_table self;
     batch_size := batch_size self;
     batch := Some (b ++ simulation_output.as_list rows);
     total := total self |}.

Lemma insert_spec (rows : one_or_many Row) self b :
  batch self = Some b ->
  insert rows self =
    if (batch_size self <=? Z.of_nat (length (b ++ simulation_output.as_list rows)))%Z
    then flush (extended rows self b)
    else (Ok tt, extended rows self b).
Proof.
  intros Hbatch. unfold insert, bind, get, put, ret. rewrite Hbatch. unfold extended.
  destruct rows; cbn [simulation_output.as_list]; by destruct (_ <=? _)%Z.
Qed.

(** A successful [flush] empties the batch and counts its rows. *)
Lemma flush_ok self self' b :
  batch self = Some b ->
  flush self = (Ok tt, self') ->
  batch self' = Some []
  /\ total self' = (total self + Z.of_nat (length b))%Z
  /\ batch_size self' = batch_size self.
Proof.
  intros Hbatch. destruct b as [|row rows].
  - rewrite flush_empty by done. intros [= <-]. rewrite Hbatch. simpl.
    split; [done|]. split; [lia|done].
  - destruct (insert_rows_outcome (stream_table self) (row :: rows) (client self))
      as (k & _ & Hrun & _).
    rewrite (flush_outcome _ _ _ _ _ Hbatch Hrun).
    destruct (truthy_list _); [done|]. by intros [= <-].
Qed.

End InsertRowsFacts.

Section InsertStreamFacts.

Import bigquery.

Context {Row : Type}.
Implicit Types (c : Client Row) (t : @table) (rows : list Row).
Implicit Types (self : BigqueryInsertStream Row) (inserts : list (one_or_many Row)).

(** A service that answers every call without errors. *)
Definition accepts c : Prop := forall n, insert_rows_response c n = [].

Lemma insert_rows_accepted t rows c :
  accepts c -> insert_rows t rows c = (Ok [], attempted t rows c).
Proof.
  intros Hc. destruct (insert_rows_outcome t rows c) as (k & Hk & Hrun & Hfail & Hstop).
  destruct k as [|k].
  - by rewrite Hrun, Hc.
  - specialize (Hfail 0%nat ltac:(lia)). by rewrite Hc in Hfail.
Qed.

(** The rows that a sequence of [insert] calls is given. *)
Definition rows_in inserts : list Row := flat_map simulation_output.as_list inserts.

Definition at_most (m : Z) inserts : Prop :=
  Forall (fun arg => (Z.of_nat (length (simulation_output.as_list arg)) <= m)%Z) inserts.

Lemma at_most_exists inserts : exists m, at_most m inserts.
Proof.
  induction inserts as [|arg inserts [m Hm]].
  - exists 0%Z. constructor.
  - exists (Z.max m (Z.of_nat (length (simulation_output.as_list arg)))).
    constructor; [lia|]. eapply Forall_impl; [exact Hm|]. simpl. intros. lia.
Qed.

Lemma inserts_accepted inserts (m : Z) self b :
  accepts (client self) ->
  batch self = Some b ->
  (Z.of_nat (length b) < batch_size self)%Z ->
  at_most m inserts ->
  exists self' sent b',
    for_each insert inserts self = (Ok tt, self')
    /\ insert_rows_calls (client self') = insert_rows_calls (client self) ++ sent
    /\ accepts (client self')
    /\ batch self' = Some b'
    /\ (Z.of_nat (length b') < batch_size self)%Z
    /\ concat sent ++ b' = b ++ rows_in inserts
    /\ Forall (fun x => (batch_size self <= Z.of_nat (length x) < batch_size self + m)%Z) sent
    /\ total self' = (total self + Z.of_nat (length (concat sent)))%Z
    /\ batch_size self' = batch_size self
    /\ stream_table self' = stream_table self.
Proof.
  revert self b. induction inserts as [|arg inserts IH]; intros self b Hc Hbatch Hb Hm.
  - exists self, [], b. simpl. rewrite app_nil_r.
    repeat split; try done. { by rewrite app_nil_r. } lia.
  - apply Forall_cons in Hm as [Harg Hm].
    cbn [for_each]. unfold bind at 1. rewrite (insert_spec _ _ _ Hbatch).
    destruct (_ <=? _)%Z eqn:Hfull.
    + apply Z.leb_le in Hfull.
      destruct (b ++ simulation_output.as_list arg) as [|row0 rows0] eqn:Hext;
        [simpl in Hfull; lia|].
      assert (Hbatch1 : batch (extended arg self b) = Some (row0 :: rows0)).
      { unfold extended. cbn [batch]. by rewrite Hext. }
      rewrite (flush_outcome _ _ _ _ _ Hbatch1
                 (insert_rows_accepted _ _ _ Hc)). cbn [truthy_list].
      match goal with |- context [for_each insert inserts ?s] => set (self1 := s) end.
      destruct (IH self1 [] ) as (self' & sent & b' & Hrun & Hcalls & Hc' & Hb' & Hlen
                                  & Hrows' & Hsent & Htotal & Hsize & Htable).
      { intros n. subst self1. cbn [client]. by rewrite attempted_response. }
      { done. }
      { subst self1. cbn [batch_size extended]. simpl. lia. }
      { done. }
      exists self', ((row0 :: rows0) :: sent), b'. rewrite Hrun.
      subst self1. cbn [client batch_size total stream_table extended] in *.
      rewrite attempted_calls in Hcalls.
      repeat split; try done.
      * by rewrite Hcalls, <- app_assoc.
      * cbn [concat]. rewrite <- app_assoc, Hrows'. cbn [rows_in flat_map app].
        by rewrite (app_assoc b), Hext.
      * constructor; [|done]. rewrite <- Hext in *. rewrite length_app in *. lia.
      * rewrite Htotal. cbn [concat]. rewrite !length_app. cbn [length]. lia.
    + apply Z.leb_gt in Hfull.
      destruct (IH (extended arg self b) (b ++ simulation_output.as_list arg))
        as (self' & sent & b' & Hrun & Hcalls & Hc' & Hb' & Hlen
            & Hrows' & Hsent & Htotal & Hsize & Htable); try done.
      exists self', sent, b'. rewrite Hrun.
      cbn [client batch_size total stream_table extended] in *.
      repeat split; try done.
      rewrite Hrows'. cbn [rows_in flat_map]. by rewrite <- app_assoc.
Qed.

Lemma for_each_map {St A B} (f : A -> B) (body : B -> M St unit) (l : list A) :
  for_each body (map f l) = for_each (fun x => body (f x)) l.
Proof. induction l as [|x l IH]; simpl; [done|]. by rewrite IH. Qed.

Lemma init_ok c t (size : Z) self :
  __init__ c t size = Ok self ->
  (0 < size)%Z
  /\ self = {| client := c; stream_table := t; batch_size := size;
               batch := None; total := 0 |}.
Proof.
  unfold __init__. destruct (size <=? 0)%Z eqn:E; [done|].
  apply Z.leb_gt in E. by intros [= <-].
Qed.

(** The block around a sequence of inserts, on a service that accepts
    every call. *)
Lemma with_inserts_accepted inserts (m : Z) c t (size : Z) self :
  accepts c ->
  __init__ c t size = Ok self ->
  at_most m inserts ->
  exists self' sent last,
    with_insert_stream (for_each insert inserts) self = (Ok tt, self')
    /\ insert_rows_calls (client self') = insert_rows_calls c ++ sent ++ last
    /\ concat (sent ++ last) = rows_in inserts
    /\ Forall (fun x => (size <= Z.of_nat (length x) < size + m)%Z) sent
    /\ (last = [] \/ exists l, last = [l] /\ (0 < Z.of_nat (length l) < size)%Z)
    /\ total self' = Z.of_nat (length (rows_in inserts))
    /\ batch self' = Some [].
Proof.
  intros Hc Hinit Hm. apply init_ok in Hinit as [Hsize ->].
  unfold with_insert_stream, __enter__, __exit__. cbn [client stream_table batch_size].
  match goal with |- context [for_each insert inserts ?s] => set (self0 := s) end.
  destruct (inserts_accepted inserts m self0 [] Hc eq_refl) as
    (self1 & sent & b' & Hrun & Hcalls & Hc' & Hb' & Hlen & Hrows & Hsent & Htotal
     & Hsize' & Htable); [simpl; lia|done|].
  rewrite Hrun. subst self0. cbn [client batch_size total stream_table] in *.
  simpl in Hrows.
  destruct b' as [|row0 rows0].
  - rewrite (flush_empty _ Hb'). exists self1, sent, [].
    rewrite !app_nil_r in *. repeat split; try done; [by left|].
    rewrite Htotal, Hrows. lia.
  - rewrite (flush_outcome _ _ _ _ _ Hb' (insert_rows_accepted _ _ _ Hc')).
    cbn [truthy_list]. eexists _, sent, [row0 :: rows0].
    split; [reflexivity|]. cbn [client total batch].
    rewrite attempted_calls, Hcalls.
    repeat split; try done.
    + by rewrite <- app_assoc.
    + rewrite concat_app. cbn [concat]. by rewrite app_nil_r.
    + right. eexists. split; [done|]. simpl in *. lia.
    + rewrite Htotal, <- Hrows, !length_app. cbn [length]. lia.
Qed.

(** X4. A [BigqueryInsertStream] used in a [with] block on a service that
    accepts every call sends every inserted row exactly once, in the order
    inserted: the batches handed to the insert primitive, concatenated, are
    the rows inserted; every batch sent by an [insert] holds at least
    [batch_size] rows, the batch sent when the block is left, if any,
    fewer; the block returns, with [total] the number of rows inserted and
    the batch empty. *)
Theorem insert_stream_sends_every_row_once inserts c t (size : Z) self :
  accepts c ->
  __init__ c t size = Ok self ->
  exists self' sent last,
    with_insert_stream (for_each insert inserts) self = (Ok tt, self')
    /\ insert_rows_calls (client self') = insert_rows_calls c ++ sent ++ last
    /\ concat (sent ++ last) = rows_in inserts
    /\ Forall (fun x => (size <= Z.of_nat (length x))%Z) sent
    /\ (last = [] \/ exists l, last = [l] /\ (0 < Z.of_nat (length l) < size)%Z)
    /\ total self' = Z.of_nat (length (rows_in inserts))
    /\ batch self' = Some [].
Proof.
  intros Hc Hinit. destruct (at_most_exists inserts) as [m Hm].
  destruct (with_inserts_accepted inserts m c t size self Hc Hinit Hm)
    as (self' & sent & last & Hrun & Hcalls & Hrows & Hsent & Hlast & Htotal & Hbatch).
  exists self', sent, last. repeat split; try done.
  eapply Forall_impl; [exact Hsent|]. simpl. intros. lia.
Qed.

End InsertStreamFacts.

Section InsertStreamTheorems.

Import bigquery.

Context {Row : Type}.
Implicit Types (c : Client Row) (t : @table) (rows : list Row).
Implicit Types (self : BigqueryInsertStream Row) (inserts : list (one_or_many Row)).

Lemma rows_in_singles rows : rows_in (map One rows) = rows.
Proof. induction rows as [|row rows IH]; [done|]. unfold rows_in in *. simpl. by rewrite IH. Qed.

(** X5. [stream_local_file_to_table] on a service that accepts every call
    sends the rows of the file in batches of exactly
    [DEFAULT_STREAMING_INSERT_BATCH_SIZE] = 10000 rows, in the order of the
    file, followed by one shorter batch for the rows left over, if any; no
    row is sent twice or left out, and the function returns. *)
Theorem stream_local_file_to_table_sends_batches_of_10000 t rows c :
  accepts c ->
  exists c' sent last,
    write_table.stream_local_file_to_table t rows c = (Ok tt, c')
    /\ insert_rows_calls c' = insert_rows_calls c ++ sent ++ last
    /\ concat (sent ++ last) = rows
    /\ Forall (fun x => Z.of_nat (length x) = 10000%Z) sent
    /\ (last = [] \/ exists l, last = [l] /\ (0 < Z.of_nat (length l) < 10000)%Z).
Proof.
  intros Hc. unfold write_table.stream_local_file_to_table.
  destruct (__init__ c t DEFAULT_STREAMING_INSERT_BATCH_SIZE) as [self|e] eqn:Hinit; [|done].
  assert (Hm : at_most 1 (map One rows)).
  { unfold at_most. apply Forall_map. apply Forall_forall. intros row _. simpl. lia. }
  destruct (with_inserts_accepted (map One rows) 1 c t _ self Hc Hinit Hm)
    as (self' & sent & last & Hrun & Hcalls & Hrows & Hsent & Hlast & _).
  rewrite for_each_map in Hrun. rewrite Hrun.
  exists (client self'), sent, last. rewrite rows_in_singles in Hrows.
  repeat split; try done.
  eapply Forall_impl; [exact Hsent|]. simpl. unfold DEFAULT_STREAMING_INSERT_BATCH_SIZE.
  intros. lia.
Qed.

(** The rows of the stream: those counted in [total] and those waiting in
    the batch. *)
Lemma inserts_conserve_rows inserts self self' b :
  batch self = Some b ->
  (Z.of_nat (length b) < batch_size self)%Z ->
  for_each insert inserts self = (Ok tt, self') ->
  exists b',
    batch self' = Some b'
    /\ (Z.of_nat (length b') < batch_size self)%Z
    /\ (total self' + Z.of_nat (length b') =
        total self + Z.of_nat (length b) + Z.of_nat (length (rows_in inserts)))%Z.
Proof.
  revert self b. induction inserts as [|arg inserts IH]; intros self b Hbatch Hb.
  - simpl. unfold ret. intros [= <-]. exists b. simpl. split; [done|]. split; lia.
  - cbn [for_each]. unfold bind at 1. rewrite (insert_spec _ _ _ Hbatch).
    destruct (_ <=? _)%Z eqn:Hfull.
    + destruct (flush (extended arg self b)) as [[[]|e] self1] eqn:Hflush; [|done].
      apply (flush_ok (extended arg self b) self1
               (b ++ simulation_output.as_list arg) eq_refl)
        in Hflush as (Hbatch1 & Htotal1 & Hsize1).
      intros Hrest. destruct (IH self1 [] Hbatch1) as (b' & Hb' & Hlen & Hcount); [|done|].
      { rewrite Hsize1. simpl. lia. }
      exists b'. rewrite Hsize1 in *. cbn [batch_size total extended] in *.
      split; [done|]. split; [done|].
      rewrite Hcount, Htotal1. unfold rows_in. cbn [flat_map].
      rewrite !length_app. simpl. lia.
    + apply Z.leb_gt in Hfull. intros Hrest.
      destruct (IH (extended arg self b) _ eq_refl Hfull Hrest) as (b' & Hb' & Hlen & Hcount).
      exists b'. cbn [batch_size total extended] in *.
      split; [done|]. split; [done|].
      rewrite Hcount. unfold rows_in. cbn [flat_map]. rewrite !length_app. lia.
Qed.

(** X6. Whatever the service answers, as long as the [insert] calls of a
    [with] block return, the batch of the stream holds fewer than
    [batch_size] rows after each of them, and the rows counted in [total]
    together with those waiting in the batch are the rows inserted. *)
Theorem insert_keeps_the_batch_below_batch_size inserts c t (size : Z) self self' :
  __init__ c t size = Ok self ->
  for_each insert inserts (__enter__ self) = (Ok tt, self') ->
  exists b',
    batch self' = Some b'
    /\ (Z.of_nat (length b') < size)%Z
    /\ (total self' + Z.of_nat (length b') = Z.of_nat (length (rows_in inserts)))%Z.
Proof.
  intros Hinit Hrun. apply init_ok in Hinit as [Hsize ->].
  destruct (inserts_conserve_rows inserts
              (__enter__ {| client := c; stream_table := t; batch_size := size;
                            batch := None; total := 0 |})
              self' [] eq_refl ltac:(simpl; lia) Hrun)
    as (b' & Hb' & Hlen & Hcount).
  exists b'. simpl in *. split; [done|]. split; lia.
Qed.

(** X7. A flush that failed inside the block is attempted again when the
    block is left. On a service that answers every call with errors, a
    block whose body is one [insert] of at least [batch_size] rows calls
    the insert primitive 10 times with these rows, 5 from [insert] and 5
    from [__exit__], and raises [BigqueryInsertStream.Errors] with the
    errors of the tenth call; no row is counted in [total] and the rows
    stay in the batch. *)
Theorem failed_flush_is_attempted_again_at_exit (arg : one_or_many Row) c t (size : Z) self :
  let response := insert_rows_response c in
  let n := length (insert_rows_calls c) in
  (forall i, response (n + i)%nat <> []) ->
  __init__ c t size = Ok self ->
  (size <= Z.of_nat (length (simulation_output.as_list arg)))%Z ->
  exists self',
    with_insert_stream (insert arg) self = (Raise (InsertErrors (response (n + 9)%nat)), self')
    /\ insert_rows_calls (client self') =
         insert_rows_calls c ++ replicate 10 (simulation_output.as_list arg)
    /\ total self' = 0%Z
    /\ batch self' = Some (simulation_output.as_list arg).
Proof.
  intros response n Hfail Hinit Hfull. apply init_ok in Hinit as [Hsize ->].
  set (self0 := {| client := c; stream_table := t; batch_size := size;
                   batch := Some []; total := 0 |}).
  pose proof (insert_spec arg self0 [] eq_refl) as Hinsert.
  unfold with_insert_stream, __exit__.
  change (__enter__ _) with self0. rewrite Hinsert. cbn [batch_size app self0].
  apply Z.leb_le in Hfull. rewrite Hfull. apply Z.leb_le in Hfull.
  destruct (simulation_output.as_list arg) as [|row0 rows0] eqn:Harg; [simpl in Hfull; lia|].
  assert (Hbatch1 : batch (extended arg self0 []) = Some (row0 :: rows0)).
  { unfold extended. cbn [batch app]. by rewrite Harg. }
  pose proof (retry_stops_at 4 4 t (row0 :: rows0) c ltac:(lia) (fun i _ => Hfail i)
                (or_introl eq_refl)) as Hfirst.
  fold n response in Hfirst.
  rewrite (flush_outcome _ _ _ _ _ Hbatch1 Hfirst).
  pose proof (Hfail 4%nat) as H4. destruct (response (n + 4)%nat) as [|e4 errors4] eqn:E4; [done|].
  cbn [truthy_list].
  set (c1 := Nat.iter 5 (attempted t (row0 :: rows0)) c).
  assert (Hresponse1 : insert_rows_response c1 = response).
  { subst c1. apply iter_attempted_response. }
  assert (Hcalls1 : insert_rows_calls c1 = insert_rows_calls c ++ replicate 5 (row0 :: rows0)).
  { subst c1. apply iter_attempted_calls. }
  assert (Hfail1 : forall i, (i < 4)%nat ->
            insert_rows_response c1 (length (insert_rows_calls c1) + i) <> []).
  { intros i _. rewrite Hresponse1, Hcalls1, length_app, length_replicate.
    fold n. rewrite <- Nat.add_assoc. apply Hfail. }
  pose proof (retry_stops_at 4 4 t (row0 :: rows0) c1 ltac:(lia) Hfail1
                (or_introl eq_refl)) as Hsecond.
  rewrite Hresponse1, Hcalls1, length_app, length_replicate in Hsecond. fold n in Hsecond.
  replace (n + 5 + 4)%nat with (n + 9)%nat in Hsecond by lia.
  assert (Hbatch2 : batch (set_client c1 (extended arg self0 [])) = Some (row0 :: rows0)).
  { exact Hbatch1. }
  rewrite (flush_outcome _ _ _ _ _ Hbatch2 Hsecond).
  pose proof (Hfail 9%nat) as H9. destruct (response (n + 9)%nat) as [|e9 errors9] eqn:E9; [done|].
  cbn [truthy_list]. eexists. split; [reflexivity|].
  cbn [client set_client total batch extended app]. rewrite Harg.
  split; [|done].
  rewrite iter_attempted_calls, Hcalls1, <- app_assoc.
  f_equal.
Qed.

End InsertStreamTheorems.

(** ** [Bigquery.insert_rows] on a client whose calls may raise *)

Section AnyClientFacts.

Import bigquery.

Context {Row C : Type}.
Context (Client_get_table : @table -> M C (@table)).
Context (Client_insert_rows : @table -> list Row -> M C (list string)).
Context (TableReference_from_string : string -> string -> result string).

(** The state after [n] runs of a computation. *)
Definition after_runs {St A} (f : M St A) (n : nat) (s : St) : St :=
  Nat.iter n (fun s => snd (f s)) s.

Lemma after_runs_succ {St A} (f : M St A) n s :
  after_runs f (S n) s = after_runs f n (snd (f s)).
Proof. unfold after_runs. by rewrite Nat.iter_succ_r. Qed.

(** [retry_if_result] runs [f] until a run raises, or returns a falsy
    result, or the runs allowed are used up, and ends as that run ends. *)
Lemma retry_if_result_outcome {St A} (is_truthy : A -> bool) remaining (f : M St A) s :
  exists k, (k <= remaining)%nat
    /\ (forall i, (i < k)%nat ->
          exists a, fst (f (after_runs f i s)) = Ok a /\ is_truthy a = true)
    /\ retry_if_result is_truthy remaining f s = f (after_runs f k s)
    /\ (k = remaining
        \/ (exists a, fst (f (after_runs f k s)) = Ok a /\ is_truthy a = false)
        \/ (exists e, fst (f (after_runs f k s)) = Raise e)).
Proof.
  revert s. induction remaining as [|remaining IH]; intros s.
  - exists 0%nat. split; [lia|]. split; [intros i Hi; lia|]. split; [|by left].
    change (after_runs f 0 s) with s. cbn [retry_if_result]. unfold bind, ret.
    destruct (f s) as [[a|e] s1]; [|done]. by destruct (is_truthy a).
  - destruct (f s) as [[a|e] s1] eqn:Hrun.
    + destruct (is_truthy a) eqn:Ha.
      * destruct (IH s1) as (k & Hk & Hfail & Hretry & Hstop).
        exists (S k). split; [lia|].
        assert (Hs1 : forall n, after_runs f (S n) s = after_runs f n s1).
        { intros n. by rewrite after_runs_succ, Hrun. }
        split; [|split].
        -- intros i Hi. destruct i as [|i].
           ++ exists a. change (after_runs f 0 s) with s. by rewrite Hrun.
           ++ rewrite Hs1. apply Hfail. lia.
        -- cbn [retry_if_result]. unfold bind at 1. rewrite Hrun, Ha, Hs1. exact Hretry.
        -- rewrite Hs1. destruct Hstop as [->|Hstop]; [by left|by right].
      * exists 0%nat. split; [lia|]. split; [intros i Hi; lia|].
        change (after_runs f 0 s) with s. split.
        -- cbn [retry_if_result]. unfold bind at 1. by rewrite Hrun, Ha.
        -- right. left. exists a. by rewrite Hrun.
    + exists 0%nat. split; [lia|]. split; [intros i Hi; lia|].
      change (after_runs f 0 s) with s. split.
      * cbn [retry_if_result]. unfold bind at 1. by rewrite Hrun.
      * right. right. exists e. by rewrite Hrun.
Qed.

(** X3. [Bigquery.insert_rows] makes at least 1 and at most 5 attempts,
    each the lookup of the table, when it was given as a reference or as
    a name, followed by one call of [client.insert_rows] with the same
    rows. It stops at the first attempt in which a call of the client
    raises, or which the service answers without errors, or at the fifth,
    and ends as this attempt ends: an exception of the client is not
    retried and leaves [Bigquery.insert_rows], and errors that the fifth
    attempt returns are returned. *)
Theorem insert_rows_stops_at_the_first_clean_answer (t : @table) (rows : list Row) (c : C) :
  let attempt := Bigquery_insert_rows_attempt Client_get_table Client_insert_rows t rows in
  (forall c,
     attempt c =
       match t with
       | Table _ => Client_insert_rows t rows c
       | _ =>
           match Client_get_table t c with
           | (Ok t', c') => Client_insert_rows t' rows c'
           | (Raise e, c') => (Raise e, c')
           end
       end)
  /\ exists k, (k < 5)%nat
       /\ (forall i, (i < k)%nat ->
             exists errors,
               fst (attempt (after_runs attempt i c)) = Ok errors /\ errors <> [])
       /\ Bigquery_insert_rows Client_get_table Client_insert_rows t rows c =
            attempt (after_runs attempt k c)
       /\ (k = 4%nat
           \/ fst (attempt (after_runs attempt k c)) = Ok []
           \/ exists e, fst (attempt (after_runs attempt k c)) = Raise e).
Proof.
  intros attempt. split.
  - intros c0. unfold attempt, Bigquery_insert_rows_attempt.
    destruct t; unfold bind, ret.
    + by destruct (Client_insert_rows _ rows c0) as [[errors|e] c1].
    + destruct (Client_get_table _ c0) as [[t'|e] c1]; [|done].
      by destruct (Client_insert_rows t' rows c1) as [[errors|e] c2].
    + destruct (Client_get_table _ c0) as [[t'|e] c1]; [|done].
      by destruct (Client_insert_rows t' rows c1) as [[errors|e] c2].
  - destruct (retry_if_result_outcome truthy_list 4 attempt c)
      as (k & Hk & Hfail & Hrun & Hstop).
    exists k. split; [lia|]. split; [|split].
    + intros i Hi. destruct (Hfail i Hi) as (errors & Hi1 & Hi2).
      exists errors. split; [done|]. by destruct errors.
    + exact Hrun.
    + destruct Hstop as [->|[(errors & H1 & H2)|Hraise]]; [by left| |by right; right].
      right. left. by destruct errors.
Qed.

(** [write_rows] on a name that [Bigquery.table_reference] accepts. *)
Lemma write_rows_on_reference
    (w : simulation_output.BigqueryRowWriter) (output_name : string) (rows : list Row) (c : C)
    (table_id : string) :
  let write_rows :=
    simulation_output.BigqueryRowWriter_write_rows Client_get_table Client_insert_rows
      TableReference_from_string in
  let attempt : M C (list string) :=
    fun c =>
      match Client_get_table (TableReference table_id) c with
      | (Ok t, c') => Client_insert_rows t rows c'
      | (Raise e, c') => (Raise e, c')
      end in
  TableReference_from_string (simulation_output.format_tablename w output_name)
    (simulation_output.bq_project_id w) = Ok table_id ->
  (exists k, (k < 5)%nat
     /\ (forall i, (i < k)%nat ->
           exists errors,
             fst (attempt (after_runs attempt i c)) = Ok errors /\ errors <> [])
     /\ write_rows (simulation_output.BigqueryRowWriter_lazy_initialize w)
          output_name rows c =
          (match fst (attempt (after_runs attempt k c)) with
           | Ok _ => Ok tt
           | Raise e => Raise e
           end,
           snd (attempt (after_runs attempt k c)))
     /\ (k = 4%nat
         \/ fst (attempt (after_runs attempt k c)) = Ok []
         \/ exists e, fst (attempt (after_runs attempt k c)) = Raise e))
  /\ (simulation_output.bq_client w = None ->
      write_rows w output_name rows c =
        (Raise (AttributeError "'NoneType' object has no attribute 'get_table'"), c)).
Proof.
  intros write_rows attempt Hname.
  unfold write_rows, simulation_output.BigqueryRowWriter_write_rows.
  change (simulation_output.format_tablename
            (simulation_output.BigqueryRowWriter_lazy_initialize w) output_name)
    with (simulation_output.format_tablename w output_name).
  cbn [simulation_output.bq_project_id simulation_output.bq_client
       simulation_output.BigqueryRowWriter_lazy_initialize].
  unfold simulation_output.table_reference. rewrite Hname. split.
  - destruct (insert_rows_stops_at_the_first_clean_answer (TableReference table_id) rows c)
      as (Hattempt & k & Hk & Hfail & Hrun & Hstop).
    cbv zeta in Hattempt, Hfail, Hrun, Hstop.
    assert (Heq : forall c0,
              Bigquery_insert_rows_attempt Client_get_table Client_insert_rows
                (TableReference table_id) rows c0 = attempt c0) by exact Hattempt.
    assert (Hafter : forall n,
              after_runs (Bigquery_insert_rows_attempt Client_get_table Client_insert_rows
                            (TableReference table_id) rows) n c = after_runs attempt n c).
    { intros n. generalize c. induction n as [|n IH]; intros c0; [done|].
      rewrite !after_runs_succ, Heq. apply IH. }
    exists k. split; [done|]. split; [|split].
    + intros i Hi. destruct (Hfail i Hi) as (errors & H1 & H2). exists errors.
      by rewrite <- Hafter, <- Heq.
    + unfold bind at 1. cbn [ret]. unfold bind at 1. rewrite Hrun, Heq, Hafter.
      by destruct (attempt (after_runs attempt k c)) as [[errors|e] c1].
    + by rewrite <- Hafter, <- Heq.
  - intros ->. by unfold bind.
Qed.

(** X8. [BigqueryRowWriter.write_rows] drops the errors of the insert. On
    a writer whose client was created by [lazy_initialize], once
    [Bigquery.table_reference] has accepted the name
    [{dataset}.{storm_type}_{output_name}], it makes 1 to 5 attempts, each
    the lookup of the table followed by the insert of the rows, and
    returns whenever the last attempt returned, also when this was the
    fifth and the service answered it with errors. It raises only what
    the client library raises: the [ValueError] of the name before any
    attempt, or the exception of a lookup or of an insert, which ends the
    attempts. Without [lazy_initialize] it raises [AttributeError] and
    the client is not called. *)
Theorem bigquery_writer_drops_insert_errors
    (w : simulation_output.BigqueryRowWriter) (output_name : string) (rows : list Row) (c : C) :
  let write_rows :=
    simulation_output.BigqueryRowWriter_write_rows Client_get_table Client_insert_rows
      TableReference_from_string in
  let tablename :=
    simulation_output.bq_dataset w +:+ "." +:+ simulation_output.bq_storm_type w
    +:+ "_" +:+ output_name in
  match TableReference_from_string tablename (simulation_output.bq_project_id w) with
  | Raise e =>
      write_rows (simulation_output.BigqueryRowWriter_lazy_initialize w) output_name rows c
        = (Raise e, c)
      /\ write_rows w output_name rows c = (Raise e, c)
  | Ok table_id =>
      let attempt : M C (list string) :=
        fun c =>
          match Client_get_table (TableReference table_id) c with
          | (Ok t, c') => Client_insert_rows t rows c'
          | (Raise e, c') => (Raise e, c')
          end in
      (exists k, (k < 5)%nat
         /\ (forall i, (i < k)%nat ->
               exists errors,
                 fst (attempt (after_runs attempt i c)) = Ok errors /\ errors <> [])
         /\ write_rows (simulation_output.BigqueryRowWriter_lazy_initialize w)
              output_name rows c =
              (match fst (attempt (after_runs attempt k c)) with
               | Ok _ => Ok tt
               | Raise e => Raise e
               end,
               snd (attempt (after_runs attempt k c)))
         /\ (k = 4%nat
             \/ fst (attempt (after_runs attempt k c)) = Ok []
             \/ exists e, fst (attempt (after_runs attempt k c)) = Raise e))
      /\ (simulation_output.bq_client w = None ->
          write_rows w output_name rows c =
            (Raise (AttributeError "'NoneType' object has no attribute 'get_table'"), c))
  end.
Proof.
  intros write_rows tablename.
  change tablename with (simulation_output.format_tablename w output_name).
  assert (Hlazy : simulation_output.format_tablename
                    (simulation_output.BigqueryRowWriter_lazy_initialize w) output_name
                  = simulation_output.format_tablename w output_name) by done.
  destruct (TableReference_from_string (simulation_output.format_tablename w output_name)
              (simulation_output.bq_project_id w)) as [table_id|e] eqn:Hname.
  - exact (write_rows_on_reference w output_name rows c table_id Hname).
  - unfold write_rows, simulation_output.BigqueryRowWriter_write_rows,
      simulation_output.table_reference.
    rewrite Hlazy.
    cbn [simulation_output.bq_project_id simulation_output.BigqueryRowWriter_lazy_initialize].
    by rewrite Hname.
Qed.

End AnyClientFacts.

(** The recorded client is a client whose calls return. *)
Lemma insert_rows_on_recorded_client {Row} (t : @bigquery.table)
    (rows : list Row) (c : bigquery.Client Row) :
  bigquery.insert_rows t rows c =
    bigquery.Bigquery_insert_rows bigquery.client_get_table bigquery.client_insert_rows
      t rows c.
Proof. reflexivity. Qed.

(** ** The two fanouts *)

Section FanoutFacts.

Import simulation_output.

Context {W Row : Type} (_checkLevel : Py.value -> Py.result Z).
Implicit Types (output_writers : list (RowWriter W Row)).
Implicit Types (sends : OutputFanout Row) (late : list (message Row)) (w : W).
Implicit Types (s : simulation_logging.root_logger * W).

(** The queue after a sequence of [send] calls. *)
Definition sent_to_queue sends (output_queue : list (message Row)) : list (message Row) :=
  fold_left (fun output_queue m => MultiprocessingOutput_send (fst m) (snd m) output_queue)
            sends output_queue.

(** [SerialOutput.send] for each of a sequence of messages. *)
Definition sent_serially output_writers sends : M W unit :=
  for_each (fun m => SerialOutput_send output_writers (fst m) (snd m)) sends.

Lemma sent_to_queue_spec sends output_queue :
  sent_to_queue sends output_queue =
    output_queue ++ map (fun m => RowsMessage (fst m) (snd m)) sends.
Proof.
  revert output_queue. induction sends as [|m sends IH]; intros output_queue; simpl.
  - by rewrite app_nil_r.
  - unfold sent_to_queue in *. simpl. rewrite IH. unfold MultiprocessingOutput_send.
    by rewrite <- app_assoc.
Qed.

Lemma process_queue_loop_sends output_writers sends (rest : list (message Row))
    (k : M W (option (list (message Row)))) w :
  (forall w, process_queue_loop rest output_writers w = k w) ->
  process_queue_loop (map (fun m => RowsMessage (fst m) (snd m)) sends ++ rest)
    output_writers w =
    (do_ sent_serially output_writers sends; k) w.
Proof.
  intros Hrest. revert w. induction sends as [|[output_name rows] sends IH]; intros w.
  - simpl. unfold sent_serially, bind, ret. simpl. apply Hrest.
  - cbn [map app process_queue_loop fst snd]. unfold sent_serially in *.
    cbn [for_each fst snd]. unfold SerialOutput_send at 1. unfold bind in *.
    destruct (for_each _ output_writers w) as [[[]|e] w1]; [|done].
    apply IH.
Qed.

Lemma bind_ext {St A B} (m : M St A) (f g : A -> M St B) (st : St) :
  (forall a st, f a st = g a st) -> bind m f st = bind m g st.
Proof. intros H. unfold bind. destruct (m st) as [[a|e] st1]; [apply H|done]. Qed.

Lemma on_writers_bind {A B} (m : M W A) (f : A -> M W B) s :
  (do x <- on_writers m; on_writers (f x)) s = on_writers (do x <- m; f x) s.
Proof. unfold on_writers, zoom, bind. by destruct (m (snd s)) as [[a|e] w1]. Qed.

Lemma process_queue_sends output_writers sends (rest : list (message Row))
    (k : M W (option (list (message Row)))) s :
  (forall w, process_queue_loop rest output_writers w = k w) ->
  (do_ on_writers (for_each RowWriter_lazy_initialize output_writers);
   on_writers (process_queue_loop
                 (map (fun m => RowsMessage (fst m) (snd m)) sends ++ rest) output_writers)) s
  = on_writers (do_ SerialOutput__init__ output_writers;
                do_ sent_serially output_writers sends;
                k) s.
Proof.
  intros Hrest. rewrite on_writers_bind. unfold on_writers, zoom, SerialOutput__init__.
  rewrite (bind_ext _ _ (fun _ => do_ sent_serially output_writers sends; k)); [done|].
  intros _ w. by apply process_queue_loop_sends.
Qed.

(** X9. The output process writes what [SerialOutput] writes. For the queue
    that a sequence of [MultiprocessingOutput.send] calls followed by
    [stop] leaves, [process_queue], once it has its logger, initialises the
    writers, hands every message to every writer, in the order sent and in
    the order of the writers, exactly as [SerialOutput] does for the same
    [send] calls, and returns at the stop signal; what was put on the queue
    after the signal is left unread. Without a stop signal on the queue,
    [process_queue] does not return: it ends blocked in [get], or with the
    exception of a writer. When [get_logger] raises, no writer is
    initialised and nothing is read from the queue. *)
Theorem output_process_writes_what_serial_output_writes
    output_writers sends late logging_queue log_level s :
  let get_logger := simulation_logging.get_logger _checkLevel (-1) logging_queue log_level in
  process_queue _checkLevel (MultiprocessingOutput_stop (sent_to_queue sends []) ++ late)
    output_writers logging_queue log_level s =
    (do_ on_logger get_logger;
     on_writers (do_ SerialOutput__init__ output_writers;
                 do_ sent_serially output_writers sends;
                 ret (Some late))) s
  /\ process_queue _checkLevel (sent_to_queue sends []) output_writers
       logging_queue log_level s =
       (do_ on_logger get_logger;
        on_writers (do_ SerialOutput__init__ output_writers;
                    do_ sent_serially output_writers sends;
                    ret None)) s
  /\ forall e logger output_queue,
       get_logger (fst s) = (Raise e, logger) ->
       process_queue _checkLevel output_queue output_writers logging_queue log_level s
         = (Raise e, (logger, snd s)).
Proof.
  intros get_logger.
  unfold process_queue, MultiprocessingOutput_stop.
  rewrite sent_to_queue_spec. cbn [app]. fold get_logger.
  split; [|split].
  - apply bind_ext. intros _ s1. rewrite <- app_assoc. by apply process_queue_sends.
  - apply bind_ext. intros _ s1. rewrite <- (app_nil_r (map _ sends)).
    by apply process_queue_sends.
  - intros e logger output_queue Hraise. unfold bind at 1, on_logger, zoom.
    by rewrite Hraise.
Qed.

End FanoutFacts.

(** ** The logger of a process *)

Section LoggingFacts.

Import simulation_logging.

Context (_checkLevel : value -> result Z).

(** A sequence of [get_logger] calls in one process, each with its
    [sim_id], [logging_queue] and [log_level]. *)
Definition get_loggers (calls : list (Z * option string * value)) : M root_logger unit :=
  for_each (fun call =>
              do_ get_logger _checkLevel (fst (fst call)) (snd (fst call)) (snd call);
              ret tt)
           calls.

Lemma get_loggers_cons sim_id logging_queue log_level calls logger :
  get_loggers ((sim_id, logging_queue, log_level) :: calls) logger =
    match get_logger _checkLevel sim_id logging_queue log_level logger with
    | (Ok _, logger) => get_loggers calls logger
    | (Raise e, logger) => (Raise e, logger)
    end.
Proof.
  unfold get_loggers. cbn [for_each fst snd]. unfold bind at 1. unfold bind at 1.
  by destruct (get_logger _ _ _ _ _) as [[a|e] logger'].
Qed.

Lemma get_logger_with_handlers sim_id logging_queue log_level logger :
  truthy_list (handlers logger) = true ->
  get_logger _checkLevel sim_id logging_queue log_level logger =
    (Ok {| extra_sim_id := sim_id |}, logger).
Proof.
  intros Hh. unfold get_logger, bind, get, ret. destruct logging_queue; [|done].
  by rewrite Hh.
Qed.

Lemma get_loggers_with_handlers calls logger :
  truthy_list (handlers logger) = true -> get_loggers calls logger = (Ok tt, logger).
Proof.
  intros Hh. induction calls as [|[[sim_id q] lvl] calls IH]; [done|].
  by rewrite get_loggers_cons, get_logger_with_handlers.
Qed.

Lemma get_logger_first sim_id logging_queue log_level logger :
  handlers logger = [] ->
  handlers (snd (get_logger _checkLevel sim_id (Some logging_queue) log_level logger)) =
    [QueueHandler logging_queue].
Proof.
  intros Hh. unfold get_logger, bind, get, modify, ret, raise. rewrite Hh.
  cbn [truthy_list negb].
  destruct (truthy log_level); [destruct (_checkLevel log_level)|]; simpl; by rewrite Hh.
Qed.

Lemma get_logger_without_queue sim_id log_level logger :
  get_logger _checkLevel sim_id None log_level logger =
    (Ok {| extra_sim_id := sim_id |}, logger).
Proof. done. Qed.

(** X10. However often [get_logger] is called in a process, the root
    logger gets at most one [QueueHandler]: a root logger that has a
    handler is left as it is by every call, its level included; on a root
    logger without handlers the first call that is given a queue attaches
    the handler of that queue, and no later call attaches another. *)
Theorem get_logger_attaches_at_most_one_queue_handler calls logger :
  handlers (snd (get_loggers calls logger)) =
    match handlers logger with
    | [] =>
        match omap (fun call => snd (fst call)) calls with
        | logging_queue :: _ => [QueueHandler logging_queue]
        | [] => []
        end
    | _ => handlers logger
    end
  /\ (truthy_list (handlers logger) = true ->
      get_loggers calls logger = (Ok tt, logger)).
Proof.
  split; [|apply get_loggers_with_handlers].
  destruct (handlers logger) as [|h hs] eqn:Hh.
  - induction calls as [|[[sim_id q] lvl] calls IH]; [done|].
    rewrite get_loggers_cons. destruct q as [q|].
    + cbn [omap list_omap fst snd].
      pose proof (get_logger_first sim_id q lvl logger Hh) as Hfirst.
      destruct (get_logger _ _ _ _ _) as [[a|e] logger']; cbn [snd] in Hfirst; [|done].
      rewrite get_loggers_with_handlers; [done|]. by rewrite Hfirst.
    + rewrite get_logger_without_queue. exact IH.
  - rewrite get_loggers_with_handlers; [done|]. by rewrite Hh.
Qed.

End LoggingFacts.

(** ** The cloud functions of [main.py] *)

Section CloudFacts.

Import cloud_main.

Context {W : Type}.
Context (PROJECT_ID BIGQUERY_OUTPUT_DATASET : value).
Context (PUBSUB_TOPIC : string) (SKIP_PUBSUB : bool).
Context (publish_outcome : json -> simulation_message -> result unit).
Context (client_outcome : result unit).
Context (int_of_str : string -> option Z).
Context (run_losses : Z -> json -> list simulation_output.BigqueryRowWriter -> Z -> M W Z).

(** The messages of a run, one for each simulation. *)
Definition messages_of (storm_type : json) (num_sims : Z) (output_bigquery states : json)
    (run_timestamp : Z) : list simulation_message :=
  map (fun sim_id => {| msg_storm_type := storm_type;
                        msg_sim_id := sim_id;
                        msg_output_bigquery := output_bigquery;
                        msg_state := states;
                        msg_run_timestamp := run_timestamp |})
      (seqZ 0 num_sims).

(** The messages that the service takes before it first refuses one. *)
Fixpoint accepted (topic : json) (messages : list simulation_message)
    : list simulation_message :=
  match messages with
  | [] => []
  | message :: rest =>
      if is_ok (publish_outcome topic message) then message :: accepted topic rest else []
  end.

Definition all_accepted (topic : json) (messages : list simulation_message) : bool :=
  forallb (fun message => is_ok (publish_outcome topic message)) messages.

(** The values that [_trigger_simulations] works with after its
    defaults. *)
Definition storm_type_or_default (storm_type : json) : json :=
  if truthy_json storm_type then storm_type else JStr DEFAULT_STORM_TYPE.
Definition num_sims_or_default (num_sims : Z) : Z :=
  if truthy_int num_sims then num_sims else DEFAULT_NUM_SIMS.
Definition output_bigquery_or_default (output_bigquery : json) : json :=
  match output_bigquery with
  | JNull => JBool DEFAULT_OUTPUT_BIGQUERY
  | _ => output_bigquery
  end.
Definition topic_or_default (topic : json) : json :=
  if truthy_json topic then topic else JStr PUBSUB_TOPIC.

Lemma for_each_cons {St A} (body : A -> M St unit) (x : A) (l : list A) (s : St) :
  for_each body (x :: l) s =
    match body x s with
    | (Ok _, s1) => for_each body l s1
    | (Raise e, s1) => (Raise e, s1)
    end.
Proof. simpl. unfold bind. by destruct (body x s) as [[[]|e] s1]. Qed.

Lemma publish_body (topic : json) (message : simulation_message) (s : pubsub) :
  (do_ trigger_logging "Triggering Sim"; publish publish_outcome topic message) s =
    match publish_outcome topic message with
    | Ok _ => (Ok tt, {| published := published s ++ [(topic, message)];
                         trigger_log := trigger_log s ++ ["Triggering Sim"] |})
    | Raise e => (Raise e, {| published := published s;
                              trigger_log := trigger_log s ++ ["Triggering Sim"] |})
    end.
Proof.
  unfold bind, trigger_logging, publish, modify, raise.
  by destruct (publish_outcome topic message).
Qed.

Lemma publish_loop (topic : json) (mk : Z -> simulation_message) (sims : list Z) (s : pubsub) :
  let run :=
    for_each (fun sim_id =>
                if SKIP_PUBSUB then trigger_logging "***DEBUG MODE*** Skipping Sim"
                else
                  do_ trigger_logging "Triggering Sim";
                  publish publish_outcome topic (mk sim_id))
             sims s in
  published (snd run) =
    published s ++ (if SKIP_PUBSUB then []
                    else map (pair topic) (accepted topic (map mk sims)))
  /\ is_ok (fst run) = SKIP_PUBSUB || all_accepted topic (map mk sims).
Proof.
  revert s. induction sims as [|sim_id sims IH]; intros s; cbn zeta.
  - simpl. rewrite orb_true_r. destruct SKIP_PUBSUB; by rewrite app_nil_r.
  - rewrite for_each_cons. cbn [map accepted all_accepted forallb].
    destruct SKIP_PUBSUB eqn:Hskip; cbv beta match.
    + cbn [trigger_logging modify]. destruct (IH
        {| published := published s;
           trigger_log := trigger_log s ++ ["***DEBUG MODE*** Skipping Sim"] |}) as [IH1 IH2].
      cbv beta match zeta in IH1, IH2. by rewrite IH1, IH2.
    + rewrite publish_body.
      destruct (publish_outcome topic (mk sim_id)) as [[]|e]; cbn [is_ok].
      * destruct (IH {| published := published s ++ [(topic, mk sim_id)];
                        trigger_log := trigger_log s ++ ["Triggering Sim"] |}) as [IH1 IH2].
        cbv beta match zeta in IH1, IH2. rewrite IH1, IH2. cbn [published map orb andb].
        by rewrite <- app_assoc.
      * cbn [fst snd published is_ok orb andb map]. by rewrite app_nil_r.
Qed.

(** [_trigger_simulations] around its loop. *)
Lemma _trigger_simulations_run storm_type num_sims output_bigquery states topic now s :
  exists log1,
    _trigger_simulations PUBSUB_TOPIC SKIP_PUBSUB publish_outcome client_outcome
      storm_type num_sims output_bigquery states topic now s =
    match client_outcome with
    | Raise e => (Raise e, {| published := published s; trigger_log := log1 |})
    | Ok _ =>
    match
      for_each
        (fun sim_id =>
           if SKIP_PUBSUB then trigger_logging "***DEBUG MODE*** Skipping Sim"
           else
             do_ trigger_logging "Triggering Sim";
             publish publish_outcome (topic_or_default topic)
               {| msg_storm_type := storm_type_or_default storm_type;
                  msg_sim_id := sim_id;
                  msg_output_bigquery := output_bigquery_or_default output_bigquery;
                  msg_state := states;
                  msg_run_timestamp := now |})
        (seqZ 0 (num_sims_or_default num_sims))
        {| published := published s; trigger_log := log1 |}
    with
    | (Ok _, s1) =>
        (Ok now, {| published := published s1;
                    trigger_log := trigger_log s1 ++ ["All simulation events sent."] |})
    | (Raise e, s1) => (Raise e, s1)
    end
    end.
Proof.
  unfold _trigger_simulations.
  fold (storm_type_or_default storm_type) (num_sims_or_default num_sims)
       (output_bigquery_or_default output_bigquery) (topic_or_default topic).
  destruct s as [pub log]. cbn [published].
  destruct (negb _).
  - exists ((log ++ ["Unsupported storm type. Ignoring request"]) ++ ["Starting simulations"]).
    unfold bind at 1. cbn [trigger_logging modify]. unfold bind at 1.
    cbn [trigger_logging modify published trigger_log]. unfold bind at 1.
    destruct client_outcome as [[]|e]; [|done]. cbn [ret]. unfold bind at 1.
    destruct (for_each _ _ _) as [[[]|e] s1]; [|done].
    unfold bind. by cbn [trigger_logging modify ret].
  - exists (log ++ ["Starting simulations"]).
    unfold bind at 1. cbn [ret]. unfold bind at 1.
    cbn [trigger_logging modify published trigger_log]. unfold bind at 1.
    destruct client_outcome as [[]|e]; [|done]. cbn [ret]. unfold bind at 1.
    destruct (for_each _ _ _) as [[[]|e] s1]; [|done].
    unfold bind. by cbn [trigger_logging modify ret].
Qed.

Lemma _trigger_simulations_spec storm_type num_sims output_bigquery states topic now s :
  let run := _trigger_simulations PUBSUB_TOPIC SKIP_PUBSUB publish_outcome client_outcome
               storm_type num_sims output_bigquery states topic now s in
  let messages := messages_of (storm_type_or_default storm_type)
                    (num_sims_or_default num_sims)
                    (output_bigquery_or_default output_bigquery) states now in
  published (snd run) =
    published s ++ (if negb (is_ok client_outcome) || SKIP_PUBSUB then []
                    else map (pair (topic_or_default topic))
                           (accepted (topic_or_default topic) messages))
  /\ is_ok (fst run) =
       is_ok client_outcome
       && (SKIP_PUBSUB || all_accepted (topic_or_default topic) messages)
  /\ (is_ok (fst run) = true -> fst run = Ok now).
Proof.
  cbn zeta.
  destruct (_trigger_simulations_run storm_type num_sims output_bigquery states topic now s)
    as [log1 ->].
  destruct client_outcome as [[]|e0]; cbn [is_ok negb orb andb];
    [|cbn [fst snd published is_ok]; by rewrite app_nil_r].
  match goal with |- context [for_each ?body ?sims ?s0] =>
    pose proof (publish_loop (topic_or_default topic)
                  (fun sim_id => {| msg_storm_type := storm_type_or_default storm_type;
                                    msg_sim_id := sim_id;
                                    msg_output_bigquery :=
                                      output_bigquery_or_default output_bigquery;
                                    msg_state := states;
                                    msg_run_timestamp := now |})
                  sims s0) as [Hpub Hok];
    cbn zeta in Hpub, Hok;
    destruct (for_each body sims s0) as [[[]|e] s1]
  end.
  - cbn [fst snd published is_ok] in *. unfold messages_of. by rewrite Hpub, <- Hok.
  - cbn [fst snd published is_ok] in *. unfold messages_of. by rewrite Hpub, <- Hok.
Qed.

(** X11. [_trigger_simulations] publishes one message for each simulation
    id from 0, in this order and on one topic, all with the same run
    timestamp, until the service refuses one: 3 messages when [num_sims] is
    0, none when it is negative. A storm type that is not supported is
    logged and the messages are published all the same. With
    [SKIP_PUBSUB], or when [Publisher.client()] raises, nothing is
    published. The function returns the run timestamp unless the creation
    of the client or a publication raised. *)
Theorem trigger_publishes_one_message_per_simulation
    storm_type num_sims output_bigquery states topic now s :
  let run := _trigger_simulations PUBSUB_TOPIC SKIP_PUBSUB publish_outcome client_outcome
               storm_type num_sims output_bigquery states topic now s in
  let storm_type := if truthy_json storm_type then storm_type else JStr "hail" in
  let num_sims := if (num_sims =? 0)%Z then 3%Z else num_sims in
  let output_bigquery :=
    match output_bigquery with JNull => JBool true | _ => output_bigquery end in
  let topic := if truthy_json topic then topic else JStr PUBSUB_TOPIC in
  let messages := messages_of storm_type num_sims output_bigquery states now in
  published (snd run) =
    published s ++ (if negb (is_ok client_outcome) || SKIP_PUBSUB then []
                    else map (pair topic) (accepted topic messages))
  /\ is_ok (fst run) = is_ok client_outcome && (SKIP_PUBSUB || all_accepted topic messages)
  /\ (is_ok (fst run) = true -> fst run = Ok now)
  /\ map msg_sim_id messages = seqZ 0 num_sims.
Proof.
  cbn zeta.
  destruct (_trigger_simulations_spec storm_type num_sims output_bigquery states topic now s)
    as (Hpub & Hok & Hnow).
  cbn zeta in Hpub, Hok, Hnow.
  unfold storm_type_or_default, num_sims_or_default, output_bigquery_or_default,
    topic_or_default, truthy_int in *.
  change DEFAULT_STORM_TYPE with "hail" in *. change DEFAULT_NUM_SIMS with 3%Z in *.
  change DEFAULT_OUTPUT_BIGQUERY with true in *.
  assert (Hids : forall st n ob, map msg_sim_id (messages_of st n ob states now) = seqZ 0 n).
  { intros st n ob. unfold messages_of. rewrite map_map. apply map_id. }
  destruct (num_sims =? 0)%Z; cbn [negb] in *; by rewrite Hids.
Qed.

End CloudFacts.

Section CloudTheorems.

Import cloud_main.

Context {W : Type}.
Context (PROJECT_ID BIGQUERY_OUTPUT_DATASET : value).
Context (PUBSUB_TOPIC : string) (SKIP_PUBSUB : bool).
Context (publish_outcome : json -> simulation_message -> result unit).
Context (client_outcome : result unit).
Context (int_of_str : string -> option Z).
Context (run_losses : Z -> json -> list simulation_output.BigqueryRowWriter -> Z -> M W Z).

(** The handler on a JSON object that is not empty. *)
Lemma trigger_simulation_events_object (r : request) (now : Z) (s : pubsub) member members :
  String.eqb (method r) "GET" = false ->
  get_json r = Some (JObject (member :: members)) ->
  trigger_simulation_events PUBSUB_TOPIC SKIP_PUBSUB publish_outcome client_outcome
    int_of_str r now s =
    let d := member :: members in
    let s0 := {| published := published s;
                 trigger_log := trigger_log s ++ ["Incoming simulation request"] |} in
    match int_of_json int_of_str (json_get d "num_sims" (JInt 3)) with
    | Ok num_sims =>
        match _trigger_simulations PUBSUB_TOPIC SKIP_PUBSUB publish_outcome client_outcome
                (json_get d "storm_type" JNull) num_sims
                (json_get d "output_bigquery" JNull) (json_get d "states" JNull)
                (json_get d "topic" JNull) now s0 with
        | (Ok run_timestamp, s1) => (Ok (ResponseTimestamp run_timestamp), s1)
        | (Raise _, s1) =>
            (Ok ResponseOK,
             {| published := published s1;
                trigger_log := trigger_log s1 ++
                  ["Failed to trigger simulations. Failing quietly."] |})
        end
    | Raise _ =>
        (Ok ResponseOK,
         {| published := published s0;
            trigger_log := trigger_log s0 ++
              ["Failed to trigger simulations. Failing quietly."] |})
    end.
Proof.
  intros Hget Hbody. unfold trigger_simulation_events. rewrite Hget, Hbody.
  cbn [truthy_json truthy_list negb]. unfold bind. cbn [trigger_logging modify].
  change DEFAULT_NUM_SIMS with 3%Z. cbn zeta.
  by destruct (int_of_json _ _).
Qed.

(** X12. The HTTP handler fails quietly. A GET and a POST without a JSON
    body, or with an empty one, are answered ['OK'] with nothing published.
    A POST with a JSON object that is not empty never raises: when
    [int(num_sims)] raises nothing is published and the answer is ['OK'];
    otherwise the answer is the run timestamp when every message was
    published and ['OK'] when the creation of the client or a publication
    raised, the messages published before it staying on the topic. A body
    that is truthy and not an object raises [AttributeError]. *)
Theorem trigger_handler_fails_quietly (r : request) (now : Z) (s : pubsub) :
  let run := trigger_simulation_events PUBSUB_TOPIC SKIP_PUBSUB publish_outcome
               client_outcome int_of_str r now s in
  (String.eqb (method r) "GET" = true -> run = (Ok ResponseOK, s))
  /\ (String.eqb (method r) "GET" = false ->
      match get_json r with
      | None => fst run = Ok ResponseOK /\ published (snd run) = published s
      | Some (JObject members) =>
          match members, int_of_json int_of_str (json_get members "num_sims" (JInt 3)) with
          | [], _ | _, Raise _ => fst run = Ok ResponseOK /\ published (snd run) = published s
          | _, Ok num_sims =>
              let topic :=
                if truthy_json (json_get members "topic" JNull)
                then json_get members "topic" JNull else JStr PUBSUB_TOPIC in
              let messages :=
                messages_of
                  (if truthy_json (json_get members "storm_type" JNull)
                   then json_get members "storm_type" JNull else JStr "hail")
                  (if (num_sims =? 0)%Z then 3%Z else num_sims)
                  match json_get members "output_bigquery" JNull with
                  | JNull => JBool true
                  | _ => json_get members "output_bigquery" JNull
                  end
                  (json_get members "states" JNull) now in
              published (snd run) =
                published s ++
                (if negb (is_ok client_outcome) || SKIP_PUBSUB then []
                 else map (pair topic) (accepted publish_outcome topic messages))
              /\ fst run =
                   Ok (if is_ok client_outcome
                          && (SKIP_PUBSUB || all_accepted publish_outcome topic messages)
                       then ResponseTimestamp now else ResponseOK)
          end
      | Some body =>
          if truthy_json body
          then run = (Raise (AttributeError "object has no attribute 'get'"),
                      {| published := published s;
                         trigger_log := trigger_log s ++ ["Incoming simulation request"] |})
          else fst run = Ok ResponseOK /\ published (snd run) = published s
      end).
Proof.
  cbn zeta. split.
  - unfold trigger_simulation_events. by intros ->.
  - intros Hget. destruct (get_json r) as [body|] eqn:Hbody.
    2: { unfold trigger_simulation_events. by rewrite Hget, Hbody. }
    destruct body as [|b|z|str|items|members].
    + unfold trigger_simulation_events. by rewrite Hget, Hbody.
    + unfold trigger_simulation_events. rewrite Hget, Hbody. by destruct b.
    + unfold trigger_simulation_events. rewrite Hget, Hbody.
      unfold truthy_json, truthy_int. by destruct (z =? 0)%Z.
    + unfold trigger_simulation_events. rewrite Hget, Hbody. by destruct str.
    + unfold trigger_simulation_events. rewrite Hget, Hbody. by destruct items.
    + destruct members as [|member members].
      { unfold trigger_simulation_events. by rewrite Hget, Hbody. }
      rewrite (trigger_simulation_events_object r now s member members Hget Hbody).
      cbv zeta.
      destruct (int_of_json int_of_str (json_get (member :: members) "num_sims" (JInt 3)))
        as [num_sims|e]; [|done].
      match goal with |- context [_trigger_simulations _ _ _ _ ?st ?n ?ob ?states ?topic now ?s0] =>
        destruct (_trigger_simulations_spec PUBSUB_TOPIC SKIP_PUBSUB publish_outcome
                    client_outcome
                    st n ob states topic now s0) as (Hpub & Hok & Hnow);
        cbn zeta in Hpub, Hok, Hnow;
        destruct (_trigger_simulations _ _ _ _ st n ob states topic now s0) as [[ts|e] s1]
      end.
      * cbn [fst snd published is_ok] in *.
        unfold storm_type_or_default, num_sims_or_default, output_bigquery_or_default,
          topic_or_default, truthy_int in *.
        change DEFAULT_STORM_TYPE with "hail" in *. change DEFAULT_NUM_SIMS with 3%Z in *.
        change DEFAULT_OUTPUT_BIGQUERY with true in *.
        specialize (Hnow eq_refl). injection Hnow as ->.
        destruct (num_sims =? 0)%Z; cbn [negb] in *; by rewrite <- Hok.
      * cbn [fst snd published is_ok] in *.
        unfold storm_type_or_default, num_sims_or_default, output_bigquery_or_default,
          topic_or_default, truthy_int in *.
        change DEFAULT_STORM_TYPE with "hail" in *. change DEFAULT_NUM_SIMS with 3%Z in *.
        change DEFAULT_OUTPUT_BIGQUERY with true in *.
        destruct (num_sims =? 0)%Z; cbn [negb] in *; by rewrite <- Hok.
Qed.

(** What [_start_simulation] does to the state of the trial: the trial runs
    for the storm type ['hail'] without the BigQuery output, and in no
    other case. *)
Lemma _start_simulation_world
    (trial : list simulation_output.BigqueryRowWriter -> Z -> M W Z)
    (storm_type : string) (sim_id : Z) (output_bigquery : bool) (s : W * list string) :
  fst (snd (_start_simulation PROJECT_ID BIGQUERY_OUTPUT_DATASET trial
              storm_type sim_id output_bigquery s)) =
    if String.eqb storm_type "hail" && negb output_bigquery
    then snd (trial [] sim_id (fst s)) else fst s.
Proof.
  unfold _start_simulation, SUPPORTED_STORM_TYPES, STORM_TYPE_HAIL. cbn [existsb].
  rewrite orb_false_r. destruct (String.eqb storm_type "hail"); cbn [negb andb]; [|done].
  unfold bind at 1. cbn [log modify]. unfold bind at 1. unfold bind at 1.
  destruct output_bigquery; cbn [negb].
  - rewrite setup_bigquery_writer_raises. by destruct (truthy PROJECT_ID).
  - unfold bind at 1. cbn [log modify ret fst snd].
    by destruct (trial [] sim_id (fst s)) as [[a|e] w].
Qed.

(** X13. [run_storm_simulation] consumes every event: it returns whatever
    the event holds and whatever the trial does. The trial runs only for an
    event that has [sim_id] and [run_timestamp], whose [storm_type] is
    absent or ['hail'], and whose [output_bigquery] is present and falsy;
    in every other case, the default [output_bigquery] = [True] included,
    the state that the trial acts on is left as it was. *)
Theorem run_storm_simulation_runs_the_trial_only_without_output
    (cloud_event : result event_data) (s : W * list string) :
  let run := run_storm_simulation PROJECT_ID BIGQUERY_OUTPUT_DATASET run_losses
               cloud_event s in
  fst run = Ok tt
  /\ fst (snd run) =
       match cloud_event with
       | Ok data =>
           match data_sim_id data, data_run_timestamp data with
           | Some sim_id, Some run_timestamp =>
               if json_eq_str (default (JStr "hail") (data_storm_type data)) "hail"
                  && negb (truthy_json (default (JBool true) (data_output_bigquery data)))
               then snd (run_losses run_timestamp (default JNull (data_state data))
                           [] sim_id (fst s))
               else fst s
           | _, _ => fst s
           end
       | Raise _ => fst s
       end.
Proof.
  cbn zeta. unfold run_storm_simulation.
  destruct cloud_event as [data|e]; [|done].
  destruct (data_sim_id data) as [sim_id|]; [|done].
  destruct (data_run_timestamp data) as [run_timestamp|]; [|done].
  change DEFAULT_STORM_TYPE with "hail". change DEFAULT_OUTPUT_BIGQUERY with true.
  destruct (default (JStr "hail") (data_storm_type data)) as [|b|z|storm_type|items|members];
    try done.
  cbn [json_eq_str].
  pose proof (_start_simulation_world
                (run_losses run_timestamp (default JNull (data_state data)))
                storm_type sim_id
                (truthy_json (default (JBool true) (data_output_bigquery data))) s) as Hworld.
  destruct (_start_simulation _ _ _ _ _ _ _) as [[[]|e] [w log]]; cbn [fst snd] in *;
    by rewrite Hworld.
Qed.

End CloudTheorems.

(** ** Geography types *)

Section GeoTypeFacts.

Import geo_types.

Fixpoint all_space (s : string) : bool :=
  match s with
  | EmptyString => true
  | String c rest => is_py_space c && all_space rest
  end.

Lemma lstrip_all_space ws : all_space ws = true -> lstrip ws = "".
Proof.
  induction ws as [|c ws IH]; [done|]. simpl.
  intros [Hc Hws]%andb_true_iff. rewrite Hc. by apply IH.
Qed.

Lemma lstrip_app_space ws s : all_space ws = true -> lstrip (ws +:+ s) = lstrip s.
Proof.
  induction ws as [|c ws IH]; [done|]. simpl.
  intros [Hc Hws]%andb_true_iff. rewrite Hc. by apply IH.
Qed.

Lemma rstrip_all_space ws : all_space ws = true -> rstrip ws = "".
Proof.
  induction ws as [|c ws IH]; [done|]. simpl.
  intros [Hc Hws]%andb_true_iff. by rewrite IH, Hc.
Qed.

Lemma rstrip_app_space s ws : all_space ws = true -> rstrip (s +:+ ws) = rstrip s.
Proof.
  intros Hws. induction s as [|c s IH]; simpl.
  - by apply rstrip_all_space.
  - by rewrite IH.
Qed.

Lemma strip_app_space s ws : all_space ws = true -> strip (s +:+ ws) = strip s.
Proof.
  intros Hws. unfold strip. induction s as [|c s IH]; simpl.
  - by rewrite lstrip_all_space.
  - destruct (is_py_space c); [exact IH|].
    change (String c (s +:+ ws)) with (String c s +:+ ws). by apply rstrip_app_space.
Qed.

Lemma strip_pad ws1 s ws2 :
  all_space ws1 = true -> all_space ws2 = true -> strip (ws1 +:+ s +:+ ws2) = strip s.
Proof.
  intros H1 H2. unfold strip. rewrite lstrip_app_space by done.
  by apply strip_app_space.
Qed.

Lemma lower_ascii_idemp c : lower_ascii (lower_ascii c) = lower_ascii c.
Proof. by destruct c as [[] [] [] [] [] [] [] []]. Qed.

Lemma is_py_space_lower c : is_py_space (lower_ascii c) = is_py_space c.
Proof. by destruct c as [[] [] [] [] [] [] [] []]. Qed.

Lemma lower_lstrip s : lower (lstrip s) = lstrip (lower s).
Proof.
  induction s as [|c s IH]; [done|]. simpl. rewrite is_py_space_lower.
  by destruct (is_py_space c).
Qed.

Lemma lower_rstrip s : lower (rstrip s) = rstrip (lower s).
Proof.
  induction s as [|c s IH]; [done|]. simpl. rewrite <- IH, is_py_space_lower.
  destruct (rstrip s); simpl; [|done]. by destruct (is_py_space c).
Qed.

Lemma lower_strip s : lower (strip s) = strip (lower s).
Proof. unfold strip. by rewrite lower_rstrip, lower_lstrip. Qed.

(** X14. [int_to_str] followed by [str_to_int] gives back each of the four
    codes 1 to 4 and sends every other int, 0 included, to
    [GEO_TYPE_UNKNOWN] = -1; [str_to_int] followed by [int_to_str] gives
    the name in lower case and without the white space around it when it
    is one of the five names of the mapping, and ['_unknown_geo_type_']
    for every other string. The strings are those of code points below
    256, with the white space and the lower case that [str.strip()] and
    [str.lower()] give them: the no-break space U+00A0 and the next line
    U+0085 are stripped as the ASCII white space is. *)
Theorem geo_type_codes_and_names_round_trip :
  (forall v : Z,
     str_to_int (int_to_str v) = if ((1 <=? v) && (v <=? 4))%Z then v else (-1)%Z)
  /\ (forall s : string,
        int_to_str (str_to_int s) =
          match dict_get GEO_TYPE_MAPPINGS (lower (strip s)) with
          | Some _ => lower (strip s)
          | None => "_unknown_geo_type_"
          end)
  /\ (forall c : ascii,
        is_py_space c = true <->
        nat_of_ascii c ∈ [9; 10; 11; 12; 13; 28; 29; 30; 31; 32; 133; 160]%nat)
  /\ (let nbsp := String (ascii_of_nat 160) "" in
      str_to_int (nbsp +:+ "Zip" +:+ nbsp) = 3%Z
      /\ int_to_str (str_to_int (nbsp +:+ "Zip" +:+ nbsp)) = "zip").
Proof.
  split; [|split; [|split]].
  - intros v. unfold int_to_str, GEO_TYPE_MAPPINGS. cbn [int_to_str_loop].
    unfold GEO_TYPE_TOTAL_VALUE, GEO_TYPE_STATE_VALUE, GEO_TYPE_COUNTY_VALUE,
      GEO_TYPE_ZIP_VALUE, GEO_TYPE_UNKNOWN.
    destruct (v =? 4)%Z eqn:E4; [apply Z.eqb_eq in E4; by subst|].
    destruct (v =? 1)%Z eqn:E1; [apply Z.eqb_eq in E1; by subst|].
    destruct (v =? 2)%Z eqn:E2; [apply Z.eqb_eq in E2; by subst|].
    destruct (v =? 3)%Z eqn:E3; [apply Z.eqb_eq in E3; by subst|].
    apply Z.eqb_neq in E1, E2, E3, E4.
    replace ((1 <=? v) && (v <=? 4))%Z with false.
    + by destruct (v =? -1)%Z.
    + symmetry. apply andb_false_iff.
      destruct (Z.leb_spec 1 v); [right|by left]. apply Z.leb_gt. lia.
  - intros s. unfold str_to_int. set (k := lower (strip s)).
    unfold GEO_TYPE_MAPPINGS. cbn [dict_get].
    unfold GEO_TYPE_TOTAL_STR, GEO_TYPE_STATE_STR, GEO_TYPE_COUNTY_STR, GEO_TYPE_ZIP_STR,
      GEO_TYPE_UNKNOWN_STR.
    destruct (String.eqb "total" k) eqn:E1; [by apply String.eqb_eq in E1 as <-|].
    destruct (String.eqb "state" k) eqn:E2; [by apply String.eqb_eq in E2 as <-|].
    destruct (String.eqb "county" k) eqn:E3; [by apply String.eqb_eq in E3 as <-|].
    destruct (String.eqb "zip" k) eqn:E4; [by apply String.eqb_eq in E4 as <-|].
    destruct (String.eqb "_unknown_geo_type_" k) eqn:E5;
      [by apply String.eqb_eq in E5 as <-|done].
  - intros c.
    assert (H : is_py_space c =
                bool_decide (nat_of_ascii c
                             ∈ [9; 10; 11; 12; 13; 28; 29; 30; 31; 32; 133; 160]%nat))
      by (by destruct c as [[] [] [] [] [] [] [] []]; vm_compute).
    rewrite H. apply bool_decide_eq_true.
  - split; reflexivity.
Qed.

(** X15. [str_to_int] looks at a name without the white space around it
    and without the case of its ASCII letters: two strings that differ
    only in these have the same code. *)
Theorem str_to_int_ignores_case_and_surrounding_space (ws1 ws2 s s' : string) :
  all_space ws1 = true ->
  all_space ws2 = true ->
  lower s = lower s' ->
  str_to_int (ws1 +:+ s +:+ ws2) = str_to_int s'.
Proof.
  intros H1 H2 Hcase. unfold str_to_int.
  by rewrite strip_pad, !lower_strip, Hcase.
Qed.

End GeoTypeFacts.

(** ** Column names, file paths and table names *)

Section NameFacts.

Import simulation_output.

(** [c in s] *)
Fixpoint has_char (c : ascii) (s : string) : bool :=
  match s with
  | EmptyString => false
  | String c' rest => Ascii.eqb c' c || has_char c rest
  end.

Lemma has_char_app c s1 s2 : has_char c (s1 +:+ s2) = has_char c s1 || has_char c s2.
Proof. induction s1 as [|c' s1 IH]; simpl; [done|]. by rewrite IH, orb_assoc. Qed.

Lemma replace_char_removes c by_ s :
  has_char c by_ = false -> has_char c (replace_char c by_ s) = false.
Proof.
  intros Hby. induction s as [|c' s IH]; simpl; [done|].
  destruct (Ascii.eqb c' c) eqn:E.
  - by rewrite has_char_app, Hby, IH.
  - simpl. by rewrite E, IH.
Qed.

Lemma replace_char_keeps_absent c c' by_ s :
  has_char c' by_ = false -> has_char c' s = false ->
  has_char c' (replace_char c by_ s) = false.
Proof.
  intros Hby. induction s as [|c0 s IH]; simpl; [done|].
  intros [H0 Hs]%orb_false_iff. destruct (Ascii.eqb c0 c).
  - by rewrite has_char_app, Hby, IH.
  - simpl. by rewrite H0, IH.
Qed.

Lemma replace_char_absent c by_ s : has_char c s = false -> replace_char c by_ s = s.
Proof.
  induction s as [|c' s IH]; simpl; [done|].
  intros [-> Hs]%orb_false_iff. by rewrite IH.
Qed.

(** The loop of [format_column_name_for_output] over a list of invalid
    characters. *)
Definition replace_all (invalid : list ascii) (by_ : string) (s : string) : string :=
  fold_left (fun name invalid_char => replace_char invalid_char by_ name) invalid s.

Definition free_of (invalid : list ascii) (s : string) : Prop :=
  Forall (fun c => has_char c s = false) invalid.

Lemma replace_all_free handled invalid by_ s :
  free_of (handled ++ invalid) by_ ->
  free_of handled s ->
  free_of (handled ++ invalid) (replace_all invalid by_ s).
Proof.
  revert handled s. induction invalid as [|c invalid IH]; intros handled s Hby Hs.
  - by rewrite app_nil_r.
  - cbn [replace_all fold_left]. fold (replace_all invalid by_ (replace_char c by_ s)).
    replace (handled ++ c :: invalid) with ((handled ++ [c]) ++ invalid) in *
      by (by rewrite <- app_assoc).
    apply IH; [done|].
    apply Forall_app in Hby as [Hby _]. apply Forall_app in Hby as [Hhandled Hc].
    apply Forall_app. split.
    + unfold free_of in *. rewrite Forall_forall in *. intros c' Hc'.
      apply replace_char_keeps_absent; [by apply Hhandled|by apply Hs].
    + apply Forall_singleton. apply replace_char_removes.
      by inversion Hc.
Qed.

Lemma replace_all_unchanged invalid by_ s :
  free_of invalid s -> replace_all invalid by_ s = s.
Proof.
  induction invalid as [|c invalid IH]; [done|].
  intros [Hc Hs]%Forall_cons. cbn [replace_all fold_left].
  rewrite replace_char_absent by done. by apply IH.
Qed.

(** X16. [format_column_name_for_output] without a prefix returns a name
    without any of the invalid characters [' '], ['.'] and ['-'], for a
    replacement string that holds none of them (as the default ['_']); a
    name without these characters is returned as it is, so formatting a
    name twice is formatting it once. *)
Theorem formatted_column_name_has_no_invalid_character (column_name by_ : string) :
  free_of INVALID_OUTPUT_COLUMN_CHARACTERS by_ ->
  free_of INVALID_OUTPUT_COLUMN_CHARACTERS (format_column_name_for_output column_name None by_)
  /\ (free_of INVALID_OUTPUT_COLUMN_CHARACTERS column_name ->
      format_column_name_for_output column_name None by_ = column_name)
  /\ format_column_name_for_output
       (format_column_name_for_output column_name None by_) None by_ =
     format_column_name_for_output column_name None by_.
Proof.
  intros Hby. unfold format_column_name_for_output.
  fold (replace_all INVALID_OUTPUT_COLUMN_CHARACTERS by_ column_name).
  assert (Hfree : free_of INVALID_OUTPUT_COLUMN_CHARACTERS
                    (replace_all INVALID_OUTPUT_COLUMN_CHARACTERS by_ column_name)).
  { apply (replace_all_free [] INVALID_OUTPUT_COLUMN_CHARACTERS); [done|constructor]. }
  split; [done|]. split.
  - apply replace_all_unchanged.
  - fold (replace_all INVALID_OUTPUT_COLUMN_CHARACTERS by_
            (replace_all INVALID_OUTPUT_COLUMN_CHARACTERS by_ column_name)).
    by apply replace_all_unchanged.
Qed.

Lemma append_inj_l (p a b : string) : p +:+ a = p +:+ b -> a = b.
Proof. induction p as [|c p IH]; simpl; [done|]. intros [= H]. by apply IH. Qed.

Lemma append_length (a b : string) :
  String.length (a +:+ b) = (String.length a + String.length b)%nat.
Proof. induction a as [|c a IH]; simpl; [done|]. by rewrite IH. Qed.

Lemma append_inj_r (a b q : string) : a +:+ q = b +:+ q -> a = b.
Proof.
  revert b. induction a as [|c a IH]; intros b H.
  - destruct b as [|c' b]; [done|].
    apply (f_equal String.length) in H. rewrite !append_length in H. simpl in H. lia.
  - destruct b as [|c' b].
    + apply (f_equal String.length) in H. rewrite !append_length in H. simpl in H. lia.
    + cbn in H. injection H as -> H. f_equal. by apply IH.
Qed.

(** X17. Two output kinds never share a CSV file or a table: for one
    writer, [format_filepath], and [format_tablename] as well, give
    different names for different output names. *)
Theorem output_kinds_have_files_and_tables_of_their_own
    (csv_writer : LocalCsvWriter) (bigquery_writer : BigqueryRowWriter)
    (output_name1 output_name2 : string) :
  output_name1 <> output_name2 ->
  format_filepath csv_writer output_name1 <> format_filepath csv_writer output_name2
  /\ format_tablename bigquery_writer output_name1
     <> format_tablename bigquery_writer output_name2.
Proof.
  unfold format_filepath, format_tablename. intros Hne. split; intros H; apply Hne.
  - do 4 apply append_inj_l in H. by apply append_inj_r in H.
  - by do 4 apply append_inj_l in H.
Qed.

(** X18. The constructor of [LocalCsvWriter] called with its two
    positional arguments raises exactly when overwriting is not enabled,
    [overwrite] being [False] or left out, and the file of one of the four
    known output kinds exists; the error names the first such file in the
    order of [ALL_OUTPUTS]. Files of other names are not looked at, and
    with [overwrite=True] no file is. *)
Theorem csv_writer_refuses_existing_output_files
    (fs : filesystem) (output_dir storm_type : string) :
  let self overwrite :=
    {| output_dir := output_dir; storm_type := storm_type;
       file_writers := ∅; overwrite := overwrite |} in
  let checked :=
    match find (fun output_name => path_exists fs (format_filepath (self false) output_name))
               ALL_OUTPUTS with
    | Some output_name =>
        Raise (InitializationError
                 ("File exists and overwrite is not enabled: "
                  +:+ format_filepath (self false) output_name))
    | None => Ok (self false)
    end in
  new_LocalCsvWriter fs [VStr output_dir; VStr storm_type] [("overwrite", VBool true)]
    = Ok (self true)
  /\ new_LocalCsvWriter fs [VStr output_dir; VStr storm_type] [("overwrite", VBool false)]
     = checked
  /\ new_LocalCsvWriter fs [VStr output_dir; VStr storm_type] [] = checked.
Proof.
  cbn zeta. split; [reflexivity|].
  assert (Hinit : forall ow,
            ow = false ->
            LocalCsvWriter__init__ fs
              [("output_dir", VStr output_dir); ("storm_type", VStr storm_type);
               ("overwrite", VBool ow)] =
            match find (fun output_name =>
                          path_exists fs
                            (format_filepath
                               {| output_dir := output_dir; storm_type := storm_type;
                                  file_writers := ∅; overwrite := false |} output_name))
                       ALL_OUTPUTS with
            | Some output_name =>
                Raise (InitializationError
                         ("File exists and overwrite is not enabled: "
                          +:+ format_filepath
                                {| output_dir := output_dir; storm_type := storm_type;
                                   file_writers := ∅; overwrite := false |} output_name))
            | None => Ok {| output_dir := output_dir; storm_type := storm_type;
                            file_writers := ∅; overwrite := false |}
            end).
  { intros ow ->. unfold LocalCsvWriter__init__. cbn [expect_str local dict_get String.eqb
      Ascii.eqb Bool.eqb truthy negb overwrite].
    change (String.eqb "output_dir" "output_dir") with true.
    change (String.eqb "output_dir" "storm_type") with false.
    change (String.eqb "storm_type" "storm_type") with true.
    change (String.eqb "output_dir" "overwrite") with false.
    change (String.eqb "storm_type" "overwrite") with false.
    change (String.eqb "overwrite" "overwrite") with true.
    cbv iota. cbn [truthy negb overwrite].
    unfold _enforce_output_files_do_not_exist.
    induction ALL_OUTPUTS as [|output_name names IH]; [done|].
    cbn [_enforce_output_files_do_not_exist_loop find].
    by destruct (path_exists fs _). }
  split; apply (Hinit false eq_refl).
Qed.

End NameFacts.

(** ** What the sampling and the storm tally add to the dictionaries *)

Section AggregationFacts.

Import generate_losses.
Local Open Scope Z_scope.

(** The sum of the values of a nested dictionary. *)
Definition sum_values (d : dict Z) : Z := foldr (fun item n => snd item + n) 0 d.

Lemma sum_values_set (d : dict Z) k old amount :
  dict_get d k = Some old ->
  sum_values (dict_set d k (old + amount)) = sum_values d + amount.
Proof.
  induction d as [|[k' v] d IH]; simpl; [done|].
  destruct (String.eqb k' k); simpl.
  - intros [= ->]. lia.
  - intros H. rewrite IH by done. lia.
Qed.

(** Every level of [d'] is the level of [d] plus [amount]. *)
Definition in_step (d d' : geo_dict) (amount : Z) : Prop :=
  d_total d' = d_total d + amount
  /\ sum_values (d_state d') = sum_values (d_state d) + amount
  /\ sum_values (d_county d') = sum_values (d_county d) + amount
  /\ sum_values (d_zip d') = sum_values (d_zip d) + amount.

Lemma in_step_refl d : in_step d d 0.
Proof. unfold in_step. lia. Qed.

Lemma in_step_trans d1 d2 d3 a b : in_step d1 d2 a -> in_step d2 d3 b -> in_step d1 d3 (a + b).
Proof. unfold in_step. lia. Qed.

Lemma iadd_levels_in_step a b c amount (d d' : geo_dict) :
  iadd_levels a b c amount d = (Ok tt, d') -> in_step d d' amount.
Proof.
  unfold iadd_levels, iadd_total, iadd_state, iadd_county, iadd_zip,
    bind, get, put, modify, subscript, ret, raise. simpl.
  destruct (dict_get (d_state d) a) as [va|] eqn:Ha; [|done]. simpl.
  destruct (dict_get (d_county d) b) as [vb|] eqn:Hb; [|done]. simpl.
  destruct (dict_get (d_zip d) c) as [vc|] eqn:Hc; [|done].
  intros [= <-]. unfold in_step. simpl.
  by rewrite !sum_values_set.
Qed.

Section Sampled.

Context {coordinates : Type} (zip_to_prem : gmap string Z).
Implicit Types (s : sampling coordinates) (p : property coordinates).

(** The feature and the premium of a sampled property. *)
Definition feature_of p : Feature coordinates :=
  {| feature_point := prop_location p;
     feature_state := prop_state p;
     feature_county := prop_county p;
     feature_zip_code := prop_zip_code p |}.

Definition premium_of p : Z :=
  Z.max 100 (default 0 (zip_to_prem !! prop_zip_code p)).

Definition limits (added : list (property coordinates)) : Z :=
  foldr (fun p n => prop_limit p + n) 0 added.

Definition premiums (added : list (property coordinates)) : Z :=
  foldr (fun p n => premium_of p + n) 0 added.

(** The locals [s'] are the locals [s] after the properties [added] were
    added. *)
Definition sampled s s' (added : list (property coordinates)) : Prop :=
  exposures s' = exposures s ++ map feature_of added
  /\ in_step (exposure_dictionary s) (exposure_dictionary s') (limits added)
  /\ in_step (premium_dictionary s) (premium_dictionary s') (premiums added).

Lemma sampled_nil s : sampled s s [].
Proof.
  unfold sampled. simpl. rewrite app_nil_r. split; [done|]. split; apply in_step_refl.
Qed.

Lemma limits_app (added1 added2 : list (property coordinates)) :
  limits (added1 ++ added2) = limits added1 + limits added2.
Proof. unfold limits. induction added1 as [|p added1 IH]; simpl; [done|]. rewrite IH. lia. Qed.

Lemma premiums_app (added1 added2 : list (property coordinates)) :
  premiums (added1 ++ added2) = premiums added1 + premiums added2.
Proof. unfold premiums. induction added1 as [|p added1 IH]; simpl; [done|]. rewrite IH. lia. Qed.

Lemma sampled_app s1 s2 s3 added1 added2 :
  sampled s1 s2 added1 -> sampled s2 s3 added2 -> sampled s1 s3 (added1 ++ added2).
Proof.
  intros (He1 & Hx1 & Hp1) (He2 & Hx2 & Hp2). unfold sampled.
  rewrite limits_app, premiums_app, He2, He1, map_app, <- app_assoc.
  split; [done|]. split; eapply in_step_trans; eauto.
Qed.

Lemma add_property_sampled p s s' :
  add_property zip_to_prem p s = (Ok tt, s') -> sampled s s' [p].
Proof.
  unfold add_property, on_exposure, on_premium, zoom, bind, modify, ret, raise.
  unfold sampled, limits, premiums, premium_of.
  destruct (zip_to_prem !! prop_zip_code p) as [rate|] eqn:Hrate; [|done].
  destruct (iadd_levels _ _ _ (prop_limit p) _) as [[[]|e] d1] eqn:E1; simpl; [|done].
  destruct (iadd_levels _ _ _ (Z.max _ _) _) as [[[]|e] d2] eqn:E2; simpl; [|done].
  intros [= <-]. simpl. rewrite ?Hrate, !Z.add_0_r. simpl.
  split; [done|]. split; by eapply iadd_levels_in_step.
Qed.

Lemma sample_properties_sampled curr_props s s' :
  sample_properties zip_to_prem curr_props s = (Ok tt, s') ->
  exists added, added `prefix_of` curr_props /\ sampled s s' added.
Proof.
  revert s. induction curr_props as [|p rest IH]; intros s; simpl.
  - unfold ret. intros [= <-]. exists []. split; [done|apply sampled_nil].
  - unfold bind at 1.
    destruct (ceiling_reached p s) as [[[]|e] s1] eqn:Hc; [| |done];
      pose proof (ceiling_reached_state _ _ _ _ Hc) as ->.
    + unfold ret. intros [= <-]. exists []. split; [apply prefix_nil|apply sampled_nil].
    + unfold bind at 1.
      destruct (add_property zip_to_prem p s) as [[[]|e] s2] eqn:Ha; [|done].
      intros Hrest. destruct (IH _ Hrest) as (added & Hprefix & Hadded).
      exists (p :: added). split; [by apply prefix_cons|].
      apply (sampled_app s s2 s' [p] added); [by apply add_property_sampled|done].
Qed.

Lemma prefix_is_sublist {A} (l1 l2 : list A) : l1 `prefix_of` l2 -> l1 `sublist_of` l2.
Proof. intros [k ->]. by apply sublist_inserts_r. Qed.

Lemma sample_states_sampled samples s s' :
  sample_states zip_to_prem samples s = (Ok tt, s') ->
  exists added, added `sublist_of` concat samples /\ sampled s s' added.
Proof.
  revert s. induction samples as [|curr_props rest IH]; intros s; simpl.
  - unfold ret. intros [= <-]. exists []. split; [done|apply sampled_nil].
  - unfold bind at 1.
    destruct (sample_properties zip_to_prem curr_props s) as [[[]|e] s1] eqn:Hp; [|done].
    destruct (sample_properties_sampled _ _ _ Hp) as (added1 & Hprefix & Hadded1).
    unfold bind, get. destruct (_ <? _).
    + unfold ret. intros [= <-]. exists added1. split; [|done].
      apply sublist_inserts_r. by apply prefix_is_sublist.
    + intros Hrest. destruct (IH _ Hrest) as (added2 & Hsub & Hadded2).
      exists (added1 ++ added2). split.
      * apply sublist_app; [by apply prefix_is_sublist|done].
      * by eapply sampled_app.
Qed.

Lemma premiums_floor (added : list (property coordinates)) :
  100 * Z.of_nat (length added) <= premiums added.
Proof.
  unfold premiums. induction added as [|p added IH]; simpl; [lia|].
  unfold premium_of at 1. lia.
Qed.

(** X19. What the sampling loops of a trial that returned have added. The
    properties added are some of the sampled ones, in their order; the
    list [exposures] got one feature for each; every level of the exposure
    dictionary (the total, the sum of the states, of the counties and of
    the zip codes) rose by the sum of their limits, and every level of the
    premium dictionary by the sum of their premiums, each premium being
    the rate of the zip code and at least 100. *)
Theorem sampling_adds_the_same_amount_at_every_level
    (samples : list (list (property coordinates))) s s' :
  sample_states zip_to_prem samples s = (Ok tt, s') ->
  exists added,
    added `sublist_of` concat samples
    /\ exposures s' = exposures s ++ map feature_of added
    /\ in_step (exposure_dictionary s) (exposure_dictionary s') (limits added)
    /\ in_step (premium_dictionary s) (premium_dictionary s') (premiums added)
    /\ 100 * Z.of_nat (length added) <= premiums added.
Proof.
  intros Hrun. destruct (sample_states_sampled _ _ _ Hrun) as (added & Hsub & He & Hx & Hp).
  exists added. repeat split; try done; try apply Hx; try apply Hp. apply premiums_floor.
Qed.

(** X20. Once the exposure total is above [total_agg_limit - 15000] the
    sampling loops add nothing more: the loop over the states, whatever
    it is given, ends at its first state and leaves the locals as they
    are. *)
Theorem sampling_is_over_above_the_total_ceiling
    (samples : list (list (property coordinates))) s :
  total_agg_limit - 15000 < d_total (exposure_dictionary s) ->
  sample_states zip_to_prem samples s = (Ok tt, s).
Proof.
  intros Hover. apply Z.ltb_lt in Hover.
  destruct samples as [|curr_props rest]; [done|].
  cbn [sample_states]. unfold bind at 1.
  assert (Hprops : sample_properties zip_to_prem curr_props s = (Ok tt, s)).
  { destruct curr_props as [|p curr_props]; [done|].
    cbn [sample_properties]. unfold bind at 1.
    unfold ceiling_reached, bind, get. by rewrite Hover. }
  rewrite Hprops. unfold bind, get. by rewrite Hover.
Qed.

End Sampled.

End AggregationFacts.

Section CeilingFacts.

Import generate_losses.
Local Open Scope Z_scope.

Context {coordinates : Type} (zip_to_prem : gmap string Z).
Implicit Types (s : sampling coordinates) (p : property coordinates).

(** No state of the exposure dictionary is above [bound]. *)
Definition states_within (bound : Z) s : Prop :=
  Forall (fun item => snd item <= bound) (d_state (exposure_dictionary s)).

Lemma dict_set_within (d : dict Z) k v bound :
  Forall (fun item => snd item <= bound) d -> v <= bound ->
  Forall (fun item => snd item <= bound) (dict_set d k v).
Proof.
  intros Hd Hv. induction Hd as [|[k' v'] d Hv' Hd IH]; simpl.
  - by constructor.
  - destruct (String.eqb k' k); by constructor.
Qed.

Lemma dict_get_within (d : dict Z) k v bound :
  Forall (fun item => snd item <= bound) d -> dict_get d k = Some v -> v <= bound.
Proof.
  intros Hd. induction Hd as [|[k' v'] d Hv' Hd IH]; simpl; [done|].
  destruct (String.eqb k' k); [by intros [= <-]|done].
Qed.

Lemma iadd_levels_state a b c amount (d : geo_dict) :
  d_state (snd (iadd_levels a b c amount d)) =
    match dict_get (d_state d) a with
    | Some va => dict_set (d_state d) a (va + amount)
    | None => d_state d
    end.
Proof.
  unfold iadd_levels, iadd_total, iadd_state, iadd_county, iadd_zip,
    bind, get, put, modify, subscript, ret, raise. simpl.
  destruct (dict_get (d_state d) a) as [va|]; [|done]. simpl.
  destruct (dict_get (d_county d) b) as [vb|]; [|done]. simpl.
  by destruct (dict_get (d_zip d) c).
Qed.

Lemma add_property_exposure p s :
  exposure_dictionary (snd (add_property zip_to_prem p s)) =
    match zip_to_prem !! prop_zip_code p with
    | Some _ =>
        snd (iadd_levels (prop_state p) (prop_county p) (prop_zip_code p) (prop_limit p)
               (exposure_dictionary s))
    | None => exposure_dictionary s
    end.
Proof.
  unfold add_property, on_exposure, on_premium, zoom, bind, modify, ret, raise.
  destruct (zip_to_prem !! prop_zip_code p) as [rate|]; [|done].
  destruct (iadd_levels _ _ _ (prop_limit p) _) as [[[]|e] d1]; simpl; [|done].
  by destruct (iadd_levels _ _ _ (Z.max _ _) _) as [[[]|e] d2].
Qed.

Lemma ceiling_reached_false_state p s s' :
  ceiling_reached p s = (Ok false, s') ->
  exists va,
    dict_get (d_state (exposure_dictionary s)) (prop_state p) = Some va
    /\ va <= state_agg_limit - 15000.
Proof.
  unfold ceiling_reached, bind, get, subscript, ret, raise. simpl.
  destruct (_ <? d_total _); [done|].
  destruct (dict_get _ _) as [va|]; [|done]. simpl.
  destruct (_ <? va) eqn:E; [done|]. intros _. exists va. split; [done|lia].
Qed.

Lemma add_property_within (limit : Z) p s va :
  dict_get (d_state (exposure_dictionary s)) (prop_state p) = Some va ->
  va <= state_agg_limit - 15000 ->
  prop_limit p <= limit ->
  states_within (state_agg_limit - 15000 + limit) s ->
  states_within (state_agg_limit - 15000 + limit) (snd (add_property zip_to_prem p s)).
Proof.
  intros Hva Hbelow Hlimit Hs. unfold states_within in *.
  rewrite add_property_exposure. destruct (zip_to_prem !! _); [|done].
  rewrite iadd_levels_state, Hva. apply dict_set_within; [done|lia].
Qed.

Lemma sample_properties_within (limit : Z) curr_props s :
  Forall (fun p => prop_limit p <= limit) curr_props ->
  states_within (state_agg_limit - 15000 + limit) s ->
  states_within (state_agg_limit - 15000 + limit)
    (snd (sample_properties zip_to_prem curr_props s)).
Proof.
  intros Hlimits. revert s. induction Hlimits as [|p rest Hp Hrest IH]; intros s Hs; [done|].
  cbn [sample_properties]. unfold bind at 1.
  destruct (ceiling_reached p s) as [[[]|e] s1] eqn:Hc;
    pose proof (ceiling_reached_state _ _ _ _ Hc) as ->; [done| |done].
  destruct (ceiling_reached_false_state _ _ _ Hc) as (va & Hva & Hbelow).
  pose proof (add_property_within limit p s va Hva Hbelow Hp Hs) as Hadded.
  unfold bind at 1. destruct (add_property zip_to_prem p s) as [[[]|e] s2]; [|done].
  by apply IH.
Qed.

(** X21. The exposure of a state stays within one limit of its ceiling:
    when no sampled property has a limit above [limit], no state of the
    exposure dictionary is above [state_agg_limit - 15000 + limit] after
    the sampling loops if none was before them, whether the loops
    returned or raised. *)
Theorem state_exposure_stays_within_one_limit_of_its_ceiling
    (limit : Z) (samples : list (list (property coordinates))) s :
  Forall (Forall (fun p => prop_limit p <= limit)) samples ->
  states_within (state_agg_limit - 15000 + limit) s ->
  states_within (state_agg_limit - 15000 + limit)
    (snd (sample_states zip_to_prem samples s)).
Proof.
  intros Hlimits. revert s.
  induction Hlimits as [|curr_props rest Hprops Hrest IH]; intros s Hs; [done|].
  cbn [sample_states]. unfold bind at 1.
  pose proof (sample_properties_within limit curr_props s Hprops Hs) as Hsampled.
  destruct (sample_properties zip_to_prem curr_props s) as [[[]|e] s1]; [|done].
  unfold bind, get. destruct (_ <? _); [done|]. by apply IH.
Qed.

End CeilingFacts.

Section TallyFacts.

Import generate_losses.
Local Open Scope Z_scope.

Context {coordinates geometry : Type}.
Implicit Types (d : draws coordinates geometry) (exposure_fc : list (Feature coordinates)).

(** The homes that the storms damaged, a home as often as it was hit. *)
Definition damaged_homes d exposure_fc (storms : list (storm.polygon geometry))
    : list (Feature coordinates) :=
  flat_map (fun storm_poly =>
              if has_coordinates d storm_poly
              then points_within_polygon d exposure_fc storm_poly else [])
           storms.

Lemma payouts_in_step (homes : list (Feature coordinates)) (loss loss' : geo_dict) :
  for_each (fun damaged_home =>
              iadd_levels (feature_state damaged_home) (feature_county damaged_home)
                (feature_zip_code damaged_home) 10000)
           homes loss = (Ok tt, loss') ->
  in_step loss loss' (10000 * Z.of_nat (length homes)).
Proof.
  revert loss. induction homes as [|home homes IH]; intros loss.
  - simpl. unfold ret. intros [= <-]. apply in_step_refl.
  - rewrite for_each_cons.
    destruct (iadd_levels _ _ _ _ loss) as [[[]|e] loss1] eqn:Hhome; [|done].
    intros Hrest. apply iadd_levels_in_step in Hhome. apply IH in Hrest.
    replace (10000 * Z.of_nat (length (home :: homes)))
      with (10000 + 10000 * Z.of_nat (length homes)) by (simpl length; lia).
    by eapply in_step_trans.
Qed.

(** X22. The storm tally pays 10000 for every damaged home at every level:
    when the loop over the storms returns, the total of the loss
    dictionary, the sum of its states, of its counties and of its zip
    codes have each risen by 10000 times the number of homes inside the
    storms that have coordinates, a home inside several storms counting
    once for each. *)
Theorem storm_tally_pays_10000_for_every_damaged_home
    d exposure_fc (storms : list (storm.polygon geometry)) (loss loss' : geo_dict) :
  for_each (tally_storm d exposure_fc) storms loss = (Ok tt, loss') ->
  in_step loss loss' (10000 * Z.of_nat (length (damaged_homes d exposure_fc storms))).
Proof.
  revert loss. induction storms as [|storm_poly storms IH]; intros loss.
  - simpl. unfold ret. intros [= <-]. apply in_step_refl.
  - rewrite for_each_cons. unfold tally_storm at 1.
    unfold damaged_homes. cbn [flat_map]. fold (damaged_homes d exposure_fc storms).
    destruct (has_coordinates d storm_poly).
    + destruct (for_each _ (points_within_polygon d exposure_fc storm_poly) loss)
        as [[[]|e] loss1] eqn:Hstorm; [|done].
      intros Hrest. apply payouts_in_step in Hstorm. apply IH in Hrest.
      rewrite length_app, Nat2Z.inj_add, Z.mul_add_distr_l.
      by eapply in_step_trans.
    + cbn [ret app]. apply IH.
Qed.

End TallyFacts.

(** ** The flat schema *)

Section FlatSchemaFacts.

Import generate_losses simulation_output.
Local Open Scope Z_scope.

Context {float : Type} (round_div4 : Z -> Z -> float) (float_truthy : float -> bool).
Context (t : trial).

Implicit Types (s : emitting float) (st : BufferedOutputStream (row float)).
Implicit Types (values : dict Z).

(** The columns that a loop over geographies sets in a flat row. *)
Definition flat_columns (columns : dict (number float)) (start : dict (number float))
    : dict (number float) :=
  fold_left (fun flat_row item => dict_set flat_row (column_name_of (fst item)) (snd item))
            columns start.

Definition ints values : dict (number float) :=
  map (fun item => (fst item, Int (snd item))) values.

(** For the geographies of [values], their premiums in [premium_level]. *)
Definition prices (premium_level values : dict Z) : dict (number float) :=
  map (fun item => (fst item, Int (default 0 (dict_get premium_level (fst item))))) values.

(** For the geographies of [values], the ratios of their losses to their
    premiums. *)
Definition ratios (premium_level values : dict Z) : dict (number float) :=
  map (fun item =>
         (fst item,
          generate_loss_ratio round_div4
            (default 0 (dict_get premium_level (fst item))) (snd item)))
      values.

(** Every geography of [values] is a key of [premium_level]. *)
Definition covers (premium_level values : dict Z) : Prop :=
  Forall (fun item => is_Some (dict_get premium_level (fst item))) values.

Definition covers_all (premium_dictionary d : geo_dict) : Prop :=
  covers (d_state premium_dictionary) (d_state d)
  /\ covers (d_county premium_dictionary) (d_county d)
  /\ covers (d_zip premium_dictionary) (d_zip d).

Lemma flat_not_geo_type :
  output_schema_version t = FLAT_ROW_OUTPUT_SCHEMA_VERSION ->
  is_geo_type_schema t = false /\ is_flat_schema t = true.
Proof. unfold is_geo_type_schema, is_flat_schema. by intros ->. Qed.

Lemma emit_exposure_total_flat premium_dictionary value st s :
  output_schema_version t = FLAT_ROW_OUTPUT_SCHEMA_VERSION ->
  emit_exposure_item float_truthy t premium_dictionary ("total", Scalar value) (st, s) =
    (Ok tt,
     (st, set_premium_row (dict_set (premium_row s) "total" (Int value))
            (set_exposure_row (dict_set (exposure_row s) "total" (Int value)) s))).
Proof.
  intros [Hgeo _]%flat_not_geo_type. unfold emit_exposure_item.
  change (String.eqb "total" "total") with true. cbv iota. rewrite Hgeo.
  unfold locals, zoom, bind, modify, get, subscript. cbn [fst snd].
  cbn [exposure_row premium_row set_exposure_row set_premium_row].
  by rewrite !dict_get_set_eq.
Qed.

Lemma emit_exposure_nested_flat premium_dictionary (geo_type : string)
    (premium_level values : dict Z) st s :
  output_schema_version t = FLAT_ROW_OUTPUT_SCHEMA_VERSION ->
  String.eqb geo_type "total" = false ->
  dict_get (items premium_dictionary) geo_type = Some (Nested premium_level) ->
  covers premium_level values ->
  emit_exposure_item float_truthy t premium_dictionary (geo_type, Nested values) (st, s) =
    (Ok tt,
     (st, set_premium_row (flat_columns (prices premium_level values) (premium_row s))
            (set_exposure_row (flat_columns (ints values) (exposure_row s)) s))).
Proof.
  intros [Hgeo _]%flat_not_geo_type Hname Hlevel Hcovers.
  unfold emit_exposure_item. rewrite Hname, Hgeo.
  revert s. induction Hcovers as [|[geography total] values [premium_total Hp] _ IH];
    intros s.
  - by destruct s.
  - rewrite for_each_cons. cbn [fst] in Hp.
    unfold subscript2 at 1. rewrite Hlevel. unfold subscript at 1. rewrite Hp.
    unfold locals, zoom, bind, modify, ret. cbn [fst snd].
    rewrite IH. cbn [prices ints map flat_columns fold_left fst snd]. rewrite Hp.
    reflexivity.
Qed.

(** The two rows of the flat schema that the first block builds. *)
Definition flat_exposure_row (exposure_dictionary : geo_dict) : dict (number float) :=
  flat_columns (ints (d_zip exposure_dictionary))
    (flat_columns (ints (d_county exposure_dictionary))
       (flat_columns (ints (d_state exposure_dictionary))
          [("sim_id", Int (trial_sim_id t));
           ("total", Int (d_total exposure_dictionary))])).

Definition flat_premium_row (exposure_dictionary premium_dictionary : geo_dict)
    : dict (number float) :=
  flat_columns (prices (d_zip premium_dictionary) (d_zip exposure_dictionary))
    (flat_columns (prices (d_county premium_dictionary) (d_county exposure_dictionary))
       (flat_columns (prices (d_state premium_dictionary) (d_state exposure_dictionary))
          [("sim_id", Int (trial_sim_id t));
           ("total", Int (d_total exposure_dictionary))])).

Lemma write_exposures_and_premiums_flat exposure_dictionary premium_dictionary s :
  output_schema_version t = FLAT_ROW_OUTPUT_SCHEMA_VERSION ->
  covers_all premium_dictionary exposure_dictionary ->
  write_exposures_and_premiums float_truthy t exposure_dictionary premium_dictionary s =
    (Ok tt,
     {| outputs := outputs s ++
          [(OUTPUT_EXPOSURES, One (FlatRow (flat_exposure_row exposure_dictionary)));
           (OUTPUT_PREMIUMS,
            One (FlatRow (flat_premium_row exposure_dictionary premium_dictionary)))];
        exposure_row := flat_exposure_row exposure_dictionary;
        premium_row := flat_premium_row exposure_dictionary premium_dictionary;
        loss_row := loss_row s; nlr_row := nlr_row s; nlr_value := nlr_value s |}).
Proof.
  intros Hv (Hstate & Hcounty & Hzip).
  unfold write_exposures_and_premiums. rewrite (proj2 (flat_not_geo_type Hv)).
  unfold bind at 1. cbn [modify]. unfold bind at 1. cbn [modify].
  unfold bind at 1. rewrite with_stream_spec.
  unfold items. rewrite for_each_cons, (emit_exposure_total_flat _ _ _ _ Hv).
  rewrite for_each_cons,
    (emit_exposure_nested_flat premium_dictionary "state" _ _ _ _ Hv eq_refl eq_refl Hstate).
  rewrite for_each_cons,
    (emit_exposure_nested_flat premium_dictionary "county" _ _ _ _ Hv eq_refl eq_refl Hcounty).
  rewrite for_each_cons,
    (emit_exposure_nested_flat premium_dictionary "zip" _ _ _ _ Hv eq_refl eq_refl Hzip).
  cbn [for_each ret fst snd]. unfold __exit__. rewrite flush_spec. cbn [fst snd].
  unfold bind, get, outputs_send, modify. cbn.
  unfold flat_exposure_row, flat_premium_row, send. cbn.
  by rewrite app_nil_r, <- app_assoc.
Qed.

Lemma emit_loss_total_flat premium_dictionary value st s :
  output_schema_version t = FLAT_ROW_OUTPUT_SCHEMA_VERSION ->
  emit_loss_item round_div4 float_truthy t premium_dictionary ("total", Scalar value) (st, s) =
    (Ok tt,
     (st, set_nlr_row
            (dict_set (nlr_row s) "total"
               (generate_loss_ratio round_div4 (d_total premium_dictionary) value))
            (set_loss_row (dict_set (loss_row s) "total" (Int value)) s))).
Proof.
  intros [Hgeo _]%flat_not_geo_type. unfold emit_loss_item.
  change (String.eqb "total" "total") with true. cbv iota. rewrite Hgeo.
  unfold locals, zoom, bind, modify, subscript_total, ret. by cbn.
Qed.

(** The local [nlr_value] after a loop over geographies. *)
Definition last_ratio (premium_level values : dict Z) (nlr_value : option (number float))
    : option (number float) :=
  fold_left (fun _ item => Some (snd item)) (ratios premium_level values) nlr_value.

Lemma emit_loss_nested_flat premium_dictionary (geo_type : string)
    (premium_level values : dict Z) st s :
  output_schema_version t = FLAT_ROW_OUTPUT_SCHEMA_VERSION ->
  String.eqb geo_type "total" = false ->
  dict_get (items premium_dictionary) geo_type = Some (Nested premium_level) ->
  covers premium_level values ->
  emit_loss_item round_div4 float_truthy t premium_dictionary (geo_type, Nested values) (st, s) =
    (Ok tt,
     (st, set_nlr_row (flat_columns (ratios premium_level values) (nlr_row s))
            (set_loss_row (flat_columns (ints values) (loss_row s))
               (set_nlr_value (last_ratio premium_level values (nlr_value s)) s)))).
Proof.
  intros [Hgeo _]%flat_not_geo_type Hname Hlevel Hcovers.
  unfold emit_loss_item. rewrite Hname, Hgeo.
  revert s. induction Hcovers as [|[geography total] values [premium Hp] _ IH];
    intros s.
  - by destruct s.
  - rewrite for_each_cons. cbn [fst] in Hp.
    match goal with |- context [for_each ?body values] =>
      set (loop := for_each body values) in *
    end.
    unfold subscript2 at 1. rewrite Hlevel. unfold subscript at 1. rewrite Hp.
    unfold locals, zoom, read_nlr_value, bind, modify, ret, get. cbn [fst snd].
    cbn [nlr_value set_nlr_value set_loss_row set_nlr_row fst snd].
    rewrite IH. unfold last_ratio.
    cbn [ratios ints map flat_columns fold_left fst snd]. rewrite Hp.
    reflexivity.
Qed.

(** The two rows of the flat schema that the second block builds. *)
Definition flat_loss_row (loss_dictionary : geo_dict) : dict (number float) :=
  flat_columns (ints (d_zip loss_dictionary))
    (flat_columns (ints (d_county loss_dictionary))
       (flat_columns (ints (d_state loss_dictionary))
          [("SimId", Int (trial_sim_id t));
           ("total", Int (d_total loss_dictionary))])).

Definition flat_nlr_row (loss_dictionary premium_dictionary : geo_dict)
    : dict (number float) :=
  flat_columns (ratios (d_zip premium_dictionary) (d_zip loss_dictionary))
    (flat_columns (ratios (d_county premium_dictionary) (d_county loss_dictionary))
       (flat_columns (ratios (d_state premium_dictionary) (d_state loss_dictionary))
          [("SimId", Int (trial_sim_id t));
           ("total",
            generate_loss_ratio round_div4 (d_total premium_dictionary)
              (d_total loss_dictionary))])).

Lemma write_losses_and_nlr_flat loss_dictionary premium_dictionary s :
  output_schema_version t = FLAT_ROW_OUTPUT_SCHEMA_VERSION ->
  covers_all premium_dictionary loss_dictionary ->
  exists nlr_value',
    write_losses_and_nlr round_div4 float_truthy t loss_dictionary premium_dictionary s =
      (Ok tt,
       {| outputs := outputs s ++
            [(OUTPUT_LOSSES, One (FlatRow (flat_loss_row loss_dictionary)));
             (OUTPUT_NLR,
              One (FlatRow (flat_nlr_row loss_dictionary premium_dictionary)))];
          exposure_row := exposure_row s;
          premium_row := premium_row s;
          loss_row := flat_loss_row loss_dictionary;
          nlr_row := flat_nlr_row loss_dictionary premium_dictionary;
          nlr_value := nlr_value' |}).
Proof.
  intros Hv (Hstate & Hcounty & Hzip).
  unfold write_losses_and_nlr. rewrite (proj2 (flat_not_geo_type Hv)).
  unfold bind at 1. cbn [modify]. unfold bind at 1. cbn [modify].
  unfold bind at 1. rewrite with_stream_spec.
  unfold items. rewrite for_each_cons, (emit_loss_total_flat _ _ _ _ Hv).
  rewrite for_each_cons,
    (emit_loss_nested_flat premium_dictionary "state" _ _ _ _ Hv eq_refl eq_refl Hstate).
  rewrite for_each_cons,
    (emit_loss_nested_flat premium_dictionary "county" _ _ _ _ Hv eq_refl eq_refl Hcounty).
  rewrite for_each_cons,
    (emit_loss_nested_flat premium_dictionary "zip" _ _ _ _ Hv eq_refl eq_refl Hzip).
  cbn [for_each ret fst snd]. unfold __exit__. rewrite flush_spec. cbn [fst snd].
  unfold bind, get, outputs_send, modify. cbn.
  unfold flat_loss_row, flat_nlr_row, send. cbn.
  eexists. by rewrite app_nil_r, <- app_assoc.
Qed.

End FlatSchemaFacts.

(** ** The keys of the dictionaries of a trial *)

Section KeyFacts.

Import generate_losses.
Local Open Scope Z_scope.

(** [d'] has the keys of [d] at every level. *)
Definition same_keys (d d' : geo_dict) : Prop :=
  dict_keys (d_state d') = dict_keys (d_state d)
  /\ dict_keys (d_county d') = dict_keys (d_county d)
  /\ dict_keys (d_zip d') = dict_keys (d_zip d).

Lemma same_keys_refl d : same_keys d d.
Proof. done. Qed.

Lemma same_keys_trans d1 d2 d3 : same_keys d1 d2 -> same_keys d2 d3 -> same_keys d1 d3.
Proof. intros (? & ? & ?) (? & ? & ?). unfold same_keys. split; [|split]; congruence. Qed.

Lemma iadd_levels_keys a b c amount (d : geo_dict) :
  same_keys d (snd (iadd_levels a b c amount d)).
Proof.
  unfold iadd_levels, iadd_total, iadd_state, iadd_county, iadd_zip,
    bind, get, put, modify, subscript, ret, raise, same_keys. simpl.
  destruct (dict_get (d_state d) a) as [va|] eqn:Ha; [|done]. simpl.
  destruct (dict_get (d_county d) b) as [vb|] eqn:Hb; simpl.
  2: { by rewrite dict_keys_set_present by eauto. }
  destruct (dict_get (d_zip d) c) as [vc|] eqn:Hc; simpl;
    rewrite !dict_keys_set_present by eauto; done.
Qed.

Lemma payouts_keys {coordinates} (homes : list (Feature coordinates)) (loss : geo_dict) :
  same_keys loss
    (snd (for_each (fun damaged_home =>
                      iadd_levels (feature_state damaged_home) (feature_county damaged_home)
                        (feature_zip_code damaged_home) 10000)
                   homes loss)).
Proof.
  revert loss. induction homes as [|home homes IH]; intros loss; [done|].
  rewrite for_each_cons.
  pose proof (iadd_levels_keys (feature_state home) (feature_county home)
                (feature_zip_code home) 10000 loss) as Hhome.
  destruct (iadd_levels _ _ _ _ loss) as [[[]|e] loss1]; [|done].
  eapply same_keys_trans; [exact Hhome|apply IH].
Qed.

Lemma tally_keys {coordinates geometry} (d : draws coordinates geometry)
    (exposure_fc : list (Feature coordinates)) (storms : list (storm.polygon geometry))
    (loss : geo_dict) :
  same_keys loss (snd (for_each (tally_storm d exposure_fc) storms loss)).
Proof.
  revert loss. induction storms as [|storm_poly storms IH]; intros loss; [done|].
  rewrite for_each_cons.
  assert (Hstorm : same_keys loss (snd (tally_storm d exposure_fc storm_poly loss))).
  { unfold tally_storm. destruct (has_coordinates d storm_poly); [apply payouts_keys|done]. }
  destruct (tally_storm d exposure_fc storm_poly loss) as [[[]|e] loss1]; [|done].
  eapply same_keys_trans; [exact Hstorm|apply IH].
Qed.

Section Sampled.

Context {coordinates : Type} (zip_to_prem : gmap string Z).
Implicit Types (s : sampling coordinates) (p : property coordinates).

(** The two dictionaries of [s'] have the keys of those of [s]. *)
Definition same_sample_keys s s' : Prop :=
  same_keys (exposure_dictionary s) (exposure_dictionary s')
  /\ same_keys (premium_dictionary s) (premium_dictionary s').

Lemma add_property_keys p s : same_sample_keys s (snd (add_property zip_to_prem p s)).
Proof.
  unfold add_property, on_exposure, on_premium, zoom, bind, modify, ret, raise,
    same_sample_keys.
  destruct (zip_to_prem !! prop_zip_code p) as [rate|]; [|done].
  pose proof (iadd_levels_keys (prop_state p) (prop_county p) (prop_zip_code p)
                (prop_limit p) (exposure_dictionary s)) as He.
  destruct (iadd_levels _ _ _ (prop_limit p) _) as [[[]|e] d1]; simpl in *; [|done].
  pose proof (iadd_levels_keys (prop_state p) (prop_county p) (prop_zip_code p)
                (Z.max 100 rate) (premium_dictionary s)) as Hp.
  by destruct (iadd_levels _ _ _ (Z.max _ _) _) as [[[]|e] d2]; simpl in *.
Qed.

Lemma same_sample_keys_trans s1 s2 s3 :
  same_sample_keys s1 s2 -> same_sample_keys s2 s3 -> same_sample_keys s1 s3.
Proof. intros [? ?] [? ?]. split; by eapply same_keys_trans. Qed.

Lemma sample_properties_keys curr_props s :
  same_sample_keys s (snd (sample_properties zip_to_prem curr_props s)).
Proof.
  revert s. induction curr_props as [|p rest IH]; intros s; [done|].
  cbn [sample_properties]. unfold bind at 1.
  destruct (ceiling_reached p s) as [[[]|e] s1] eqn:Hc;
    pose proof (ceiling_reached_state _ _ _ _ Hc) as ->; [done| |done].
  unfold bind at 1. pose proof (add_property_keys p s) as Hadd.
  destruct (add_property zip_to_prem p s) as [[[]|e] s2]; [|done].
  eapply same_sample_keys_trans; [exact Hadd|apply IH].
Qed.

Lemma sample_states_keys (samples : list (list (property coordinates))) s :
  same_sample_keys s (snd (sample_states zip_to_prem samples s)).
Proof.
  revert s. induction samples as [|curr_props rest IH]; intros s; [done|].
  cbn [sample_states]. unfold bind at 1.
  pose proof (sample_properties_keys curr_props s) as Hprops.
  destruct (sample_properties zip_to_prem curr_props s) as [[[]|e] s1]; [|done].
  unfold bind, get. destruct (_ <? _); [done|].
  eapply same_sample_keys_trans; [exact Hprops|apply IH].
Qed.

End Sampled.

Lemma dict_get_key {V} (d : dict V) k : k ∈ dict_keys d -> is_Some (dict_get d k).
Proof.
  unfold dict_keys. induction d as [|[k' v] d IH]; simpl.
  - by intros ?%elem_of_nil.
  - destruct (String.eqb k' k) eqn:E; [by eexists|].
    intros [->|Hk]%elem_of_cons; [by rewrite String.eqb_refl in E|by apply IH].
Qed.

End KeyFacts.

Section FlatTrialFacts.

Import generate_losses simulation_output.
Local Open Scope Z_scope.

Context {coordinates geometry float : Type}.
Context (round_div4 : Z -> Z -> float) (float_truthy : float -> bool).
Context (zip_to_prem : gmap string Z).

Lemma covers_of_keys (premium_level values : dict Z) :
  dict_keys premium_level = dict_keys values -> covers premium_level values.
Proof.
  intros Hkeys. apply Forall_forall. intros item Hitem. apply dict_get_key.
  rewrite Hkeys. unfold dict_keys. by apply list_elem_of_fmap_2.
Qed.

Lemma covers_all_of_keys (loss_dictionary premium_dictionary d : geo_dict) :
  same_keys loss_dictionary premium_dictionary ->
  same_keys loss_dictionary d ->
  covers_all premium_dictionary d.
Proof.
  intros (Hp1 & Hp2 & Hp3) (Hd1 & Hd2 & Hd3).
  split; [|split]; apply covers_of_keys; congruence.
Qed.

Lemma flat_columns_cons (item : string * number float) (columns start : dict (number float)) :
  flat_columns (item :: columns) start =
    flat_columns columns (dict_set start (column_name_of (fst item)) (snd item)).
Proof. reflexivity. Qed.

Lemma flat_columns_get_other (columns start : dict (number float)) (k : string) :
  Forall (fun item => column_name_of (fst item) <> k) columns ->
  dict_get (flat_columns columns start) k = dict_get start k.
Proof.
  intros Hcolumns. revert start.
  induction Hcolumns as [|item columns Hitem _ IH]; intros start; [done|].
  rewrite flat_columns_cons, IH. by apply dict_get_set_ne.
Qed.

Lemma flat_columns_keys (columns start : dict (number float)) :
  exists more, dict_keys (flat_columns columns start) = dict_keys start ++ more.
Proof.
  revert start. induction columns as [|item columns IH]; intros start.
  - exists []. by rewrite app_nil_r.
  - rewrite flat_columns_cons.
    destruct (IH (dict_set start (column_name_of (fst item)) (snd item))) as [more ->].
    destruct (dict_get start (column_name_of (fst item))) eqn:E.
    + rewrite dict_keys_set_present by eauto. by eexists.
    + rewrite dict_keys_set_absent by done. rewrite <- app_assoc. by eexists.
Qed.

(** No geography of a level has the column name [k]. *)
Definition no_column (k : string) (d : geo_dict) : Prop :=
  Forall (fun geography => column_name_of geography <> k)
         (dict_keys (d_state d) ++ dict_keys (d_county d) ++ dict_keys (d_zip d)).

(** X23. Under the flat schema the first block of [run_losses] sends two
    messages, the exposures row and then the premiums row, each as one
    flat row; the column ['total'] of the premiums row holds the exposure
    total, not the premium total, as that of the exposures row does. The
    premium dictionary has a premium for every geography of the exposure
    dictionary, and no geography has the column name ['total']. *)
Theorem flat_premium_row_carries_the_exposure_total
    (t : trial) (exposure_dictionary premium_dictionary : geo_dict) (s : emitting float) :
  output_schema_version t = FLAT_ROW_OUTPUT_SCHEMA_VERSION ->
  covers_all premium_dictionary exposure_dictionary ->
  no_column "total" exposure_dictionary ->
  let run := write_exposures_and_premiums float_truthy t
               exposure_dictionary premium_dictionary s in
  fst run = Ok tt
  /\ outputs (snd run) =
       outputs s ++ [(OUTPUT_EXPOSURES, One (FlatRow (exposure_row (snd run))));
                     (OUTPUT_PREMIUMS, One (FlatRow (premium_row (snd run))))]
  /\ dict_get (exposure_row (snd run)) "total" = Some (Int (d_total exposure_dictionary))
  /\ dict_get (premium_row (snd run)) "total" = Some (Int (d_total exposure_dictionary)).
Proof.
  intros Hv Hcovers Hcolumns run. subst run.
  rewrite (write_exposures_and_premiums_flat float_truthy t _ _ s Hv Hcovers).
  cbn [fst snd outputs exposure_row premium_row].
  apply Forall_app in Hcolumns as [Hstate Hcolumns].
  apply Forall_app in Hcolumns as [Hcounty Hzip].
  unfold dict_keys in *. rewrite Forall_fmap in Hstate, Hcounty, Hzip.
  split; [done|]. split; [done|]. split.
  - unfold flat_exposure_row, ints.
    rewrite !flat_columns_get_other; [done|by rewrite Forall_fmap..].
  - unfold flat_premium_row, prices.
    rewrite !flat_columns_get_other; [done|by rewrite Forall_fmap..].
Qed.

(** X24. Under the flat schema a trial returns. When the sampling, the
    generation of the storms and the storm tally of an attempt raise
    nothing, the attempt returns the id of the simulation, having sent
    four messages of one flat row each: exposures, premiums, losses and
    nlr, in this order. The rows of the first two start with the column
    ['sim_id'], those of the last two with ['SimId']. *)
Theorem flat_schema_trial_sends_four_rows
    (t : trial) (loss_dictionary : geo_dict) (d : draws coordinates geometry)
    (outputs0 : OutputFanout (row float))
    (sampled : sampling coordinates) (storms : list (storm.polygon geometry)) (n : Z)
    (losses : geo_dict) :
  output_schema_version t = FLAT_ROW_OUTPUT_SCHEMA_VERSION ->
  sample_states zip_to_prem (samples d)
    {| exposure_dictionary := loss_dictionary;
       premium_dictionary := loss_dictionary;
       exposures := [] |} = (Ok tt, sampled) ->
  generate_storms (storm_candidates d) (storm_limit d) 0 [] = Some (storms, n) ->
  for_each (tally_storm d (exposures sampled)) storms loss_dictionary = (Ok tt, losses) ->
  run_losses_attempt round_div4 float_truthy zip_to_prem t loss_dictionary d outputs0 =
    Some (Ok (trial_sim_id t),
          outputs0 ++
          [(OUTPUT_EXPOSURES,
            One (FlatRow (flat_exposure_row t (exposure_dictionary sampled))));
           (OUTPUT_PREMIUMS,
            One (FlatRow (flat_premium_row t (exposure_dictionary sampled)
                            (premium_dictionary sampled))));
           (OUTPUT_LOSSES, One (FlatRow (flat_loss_row t losses)));
           (OUTPUT_NLR,
            One (FlatRow (flat_nlr_row round_div4 t losses (premium_dictionary sampled))))])
  /\ (exists columns,
        dict_keys (flat_exposure_row (float := float) t (exposure_dictionary sampled))
        = "sim_id" :: "total" :: columns)
  /\ (exists columns,
        dict_keys (flat_loss_row (float := float) t losses) = "SimId" :: "total" :: columns).
Proof.
  intros Hv Hsample Hstorms Htally.
  pose proof (sample_states_keys zip_to_prem (samples d)
                {| exposure_dictionary := loss_dictionary;
                   premium_dictionary := loss_dictionary;
                   exposures := [] |}) as [Hekeys Hpkeys].
  rewrite Hsample in Hekeys, Hpkeys. cbn [snd exposure_dictionary premium_dictionary] in *.
  pose proof (tally_keys d (exposures sampled) storms loss_dictionary) as Hlkeys.
  rewrite Htally in Hlkeys. cbn [snd] in Hlkeys.
  split; [|split].
  - unfold run_losses_attempt. rewrite Hsample.
    rewrite (write_exposures_and_premiums_flat float_truthy t _ _ _ Hv
               (covers_all_of_keys _ _ _ Hpkeys Hekeys)).
    rewrite Hstorms, Htally.
    match goal with |- context [write_losses_and_nlr _ _ _ _ _ ?s1] =>
      destruct (write_losses_and_nlr_flat round_div4 float_truthy t losses
                  (premium_dictionary sampled) s1
                  Hv (covers_all_of_keys _ _ _ Hpkeys Hlkeys)) as [v ->]
    end.
    cbn [outputs]. by rewrite <- app_assoc.
  - unfold flat_exposure_row.
    destruct (flat_columns_keys (ints (d_zip (exposure_dictionary sampled)))
                (flat_columns (ints (d_county (exposure_dictionary sampled)))
                   (flat_columns (ints (d_state (exposure_dictionary sampled)))
                      [("sim_id", Int (trial_sim_id t));
                       ("total", Int (d_total (exposure_dictionary sampled)))])))
      as [more3 ->].
    destruct (flat_columns_keys (ints (d_county (exposure_dictionary sampled)))
                (flat_columns (ints (d_state (exposure_dictionary sampled)))
                   [("sim_id", Int (trial_sim_id t));
                    ("total", Int (d_total (exposure_dictionary sampled)))]))
      as [more2 ->].
    destruct (flat_columns_keys (ints (d_state (exposure_dictionary sampled)))
                [("sim_id", Int (trial_sim_id t));
                 ("total", Int (d_total (exposure_dictionary sampled)))])
      as [more1 ->].
    by eexists.
  - unfold flat_loss_row.
    destruct (flat_columns_keys (ints (d_zip losses))
                (flat_columns (ints (d_county losses))
                   (flat_columns (ints (d_state losses))
                      [("SimId", Int (trial_sim_id t));
                       ("total", Int (d_total losses))])))
      as [more3 ->].
    destruct (flat_columns_keys (ints (d_county losses))
                (flat_columns (ints (d_state losses))
                   [("SimId", Int (trial_sim_id t));
                    ("total", Int (d_total losses))]))
      as [more2 ->].
    destruct (flat_columns_keys (ints (d_state losses))
                [("SimId", Int (trial_sim_id t));
                 ("total", Int (d_total losses))])
      as [more1 ->].
    by eexists.
Qed.

End FlatTrialFacts.

(** ** Rows that a CSV file cannot take *)

Section CsvRowFacts.

Import simulation_output.

Implicit Types (self : LocalCsvWriter) (fs : filesystem) (row : dict string).
Implicit Types (file_writer : DictWriter).

Lemma write_row_open filepath file_writer row self fs :
  file_writers self !! filepath = Some file_writer ->
  filehandle file_writer = filepath ->
  write_row filepath row (self, fs) =
    if truthy_list (wrong_fields file_writer row)
    then (Raise (ValueError "dict contains fields not in fieldnames"), (self, fs))
    else (Ok tt, (self, <[filepath := contents fs filepath ++ [_dict_to_list file_writer row]]> fs)).
Proof.
  intros Hopen Hhandle. unfold write_row, bind, get_writer. rewrite Hopen.
  unfold writerow. rewrite Hhandle. by destruct (truthy_list _).
Qed.

(** X25. A row with a field that is not among the columns of its file
    stops the write. For a file that the writer has open, [write_rows]
    given rows of which one has such a field raises [ValueError] at that
    row: the rows before it are in the file, one record for each with as
    many cells as the file has columns, and neither that row nor the rows
    after it are written. *)
Theorem csv_row_with_unknown_field_stops_the_write
    self fs (output_name : string) file_writer
    (rows_before : list (dict string)) (bad : dict string) (rows_after : list (dict string)) :
  let filepath := format_filepath self output_name in
  file_writers self !! filepath = Some file_writer ->
  filehandle file_writer = filepath ->
  Forall (fun row => wrong_fields file_writer row = []) rows_before ->
  wrong_fields file_writer bad <> [] ->
  write_rows output_name (Many (rows_before ++ bad :: rows_after)) (self, fs) =
    (Raise (ValueError "dict contains fields not in fieldnames"),
     (self,
      match rows_before with
      | [] => fs
      | _ => <[filepath := contents fs filepath ++ records file_writer rows_before]> fs
      end))
  /\ Forall (fun record => length record = length (fieldnames file_writer))
       (records file_writer rows_before).
Proof.
  intros filepath Hopen Hhandle Hvalid Hbad. split.
  - rewrite write_rows_unfold. fold filepath. cbn [as_list].
    revert fs. induction Hvalid as [|row rows_before Hrow _ IH]; intros fs.
    + cbn [app]. rewrite for_each_cons, (write_row_open _ _ _ _ _ Hopen Hhandle).
      by destruct (wrong_fields file_writer bad).
    + cbn [app]. rewrite for_each_cons, (write_row_open _ _ _ _ _ Hopen Hhandle), Hrow.
      cbn [truthy_list]. rewrite IH. f_equal. f_equal.
      destruct rows_before as [|row' rows_before]; [done|].
      rewrite contents_insert, insert_insert_eq. unfold records. cbn [map].
      by rewrite <- app_assoc.
  - unfold records. apply Forall_map. apply Forall_forall. intros row _.
    unfold _dict_to_list. by rewrite length_map.
Qed.

End CsvRowFacts.

(** ** The logging thread *)

Section LoggerThreadFacts.

Context {LogRecord : Type}.

(** X26. [LoggerThread.run] handles the records put on the logging queue
    before [stop], in the order put, and returns at the stop signal; what
    was put on the queue after the signal is not handled. Without a stop
    signal it handles every record and does not return: it ends blocked in
    [get]. *)
Theorem logger_thread_handles_the_records_before_stop
    (records late : list LogRecord) (handled : list LogRecord) :
  simulation_logging.run
    (simulation_logging.stop (map Some records) ++ map Some late) handled =
    (Ok (Some (map Some late)), handled ++ records)
  /\ simulation_logging.run (map Some records) handled = (Ok None, handled ++ records).
Proof.
  unfold simulation_logging.stop. split.
  - revert handled. induction records as [|record records IH]; intros handled.
    + simpl. by rewrite app_nil_r.
    + cbn [map app simulation_logging.run]. unfold bind at 1. cbn [modify].
      rewrite IH. by rewrite <- app_assoc.
  - revert handled. induction records as [|record records IH]; intros handled.
    + simpl. by rewrite app_nil_r.
    + cbn [map simulation_logging.run]. unfold bind at 1. cbn [modify].
      rewrite IH. by rewrite <- app_assoc.
Qed.

End LoggerThreadFacts.

(** ** Trials that succeed *)

Section RetryFacts.

Import generate_losses.

Context {W : Type}.
Context (attempt : Z -> nat -> M W Z).
Context (worker_outcome : Z -> result Z).
Context (completion_order : list Z -> list Z).

(** What [k] failed attempts, numbered from [n], leave of [w]. *)
Fixpoint after_failures (sim_id : Z) (k n : nat) (w : W) : W :=
  match k with
  | O => w
  | S k => after_failures sim_id k (S n) (snd (attempt sim_id n w))
  end.

Lemma retry_on_exception_stops_at (sim_id : Z) (remaining n : nat) (w : W) :
  exists k, (k <= remaining)%nat
    /\ (forall i, (i < k)%nat ->
          is_ok (fst (attempt sim_id (n + i) (after_failures sim_id i n w))) = false)
    /\ (k = remaining
        \/ is_ok (fst (attempt sim_id (n + k) (after_failures sim_id k n w))) = true)
    /\ retry_on_exception remaining n (attempt sim_id) w =
         match attempt sim_id (n + k) (after_failures sim_id k n w) with
         | (Ok a, w') => (Ok a, w')
         | (Raise _, w') => (Raise RetryError, w')
         end.
Proof.
  revert n w. induction remaining as [|remaining IH]; intros n w.
  - exists 0%nat. rewrite Nat.add_0_r. cbn [after_failures retry_on_exception].
    split; [lia|]. split; [intros i Hi; lia|]. split; [by left|].
    by destruct (attempt sim_id n w) as [[a|e] w'].
  - cbn [retry_on_exception]. destruct (attempt sim_id n w) as [[a|e] w'] eqn:Hfirst.
    + exists 0%nat. rewrite Nat.add_0_r. cbn [after_failures]. rewrite Hfirst.
      split; [lia|]. split; [intros i Hi; lia|]. split; [by right|done].
    + destruct (IH (S n) w') as (k & Hk & Hfail & Hstop & Hrun).
      exists (S k). cbn [after_failures]. rewrite Hfirst. cbn [snd].
      replace (n + S k)%nat with (S n + k)%nat by lia.
      split; [lia|]. split; [|split; [|done]].
      * intros [|i] Hi.
        -- rewrite Nat.add_0_r. cbn [after_failures]. by rewrite Hfirst.
        -- cbn [after_failures]. rewrite Hfirst. cbn [snd].
           replace (n + S i)%nat with (S n + i)%nat by lia. apply Hfail. lia.
      * destruct Hstop as [->|Hstop]; [by left|by right].
Qed.

(** X27. [run_losses] as decorated makes at most 3 attempts, numbered from
    1, and stops at the first that returns, with the result of that
    attempt; when the third attempt raises too, it raises [RetryError] in
    place of the exception of the attempt. An attempt starts from what the
    failed attempts before it have left: nothing that they did is
    undone. *)
Theorem run_losses_stops_at_the_first_attempt_that_returns (sim_id : Z) (w : W) :
  exists k, (k < 3)%nat
    /\ (forall i, (i < k)%nat ->
          is_ok (fst (attempt sim_id (1 + i) (after_failures sim_id i 1 w))) = false)
    /\ (k = 2%nat
        \/ is_ok (fst (attempt sim_id (1 + k) (after_failures sim_id k 1 w))) = true)
    /\ run_losses attempt sim_id w =
         match attempt sim_id (1 + k) (after_failures sim_id k 1 w) with
         | (Ok a, w') => (Ok a, w')
         | (Raise _, w') => (Raise RetryError, w')
         end.
Proof.
  destruct (retry_on_exception_stops_at sim_id 2 1 w) as (k & Hk & Hfail & Hstop & Hrun).
  exists k. split; [lia|]. repeat split; try done.
Qed.





End RetryFacts.

(** * Instances of the further properties *)

Section InsertStreamExamples.

Import bigquery bigquery_examples.
Local Open Scope Z_scope.

(** A service that accepts every call, and a stream of batch size 2 on
    each of the two services. *)
Definition accepting_client : Client nat :=
  {| insert_rows_response := fun _ => [];
     insert_rows_calls := [];
     get_table_calls := 0 |}.

Definition losses_table : table := TableId "simulations_v2.hail_losses".

Definition pairs_on (c : Client nat) : BigqueryInsertStream nat :=
  {| client := c; stream_table := losses_table; batch_size := 2;
     batch := None; total := 0 |}.

Lemma insert_stream_sends_every_row_once_witness :
  exists self' sent last,
    with_insert_stream (for_each insert [Many [1; 2]; One 3]%nat)
      (pairs_on accepting_client) = (Ok tt, self')
    /\ insert_rows_calls (client self') = insert_rows_calls accepting_client ++ sent ++ last
    /\ concat (sent ++ last) = rows_in [Many [1; 2]; One 3]%nat
    /\ Forall (fun x => 2 <= Z.of_nat (length x)) sent
    /\ (last = [] \/ exists l, last = [l] /\ 0 < Z.of_nat (length l) < 2)
    /\ total self' = Z.of_nat (length (rows_in [Many [1; 2]; One 3]%nat))
    /\ batch self' = Some [].
Proof.
  apply (insert_stream_sends_every_row_once [Many [1; 2]; One 3]%nat accepting_client
           losses_table 2 (pairs_on accepting_client)).
  - intros n. reflexivity.
  - reflexivity.
Defined.

Lemma stream_local_file_to_table_sends_batches_of_10000_witness :
  exists c' sent last,
    write_table.stream_local_file_to_table losses_table [1; 2; 3]%nat accepting_client
      = (Ok tt, c')
    /\ insert_rows_calls c' = insert_rows_calls accepting_client ++ sent ++ last
    /\ concat (sent ++ last) = [1; 2; 3]%nat
    /\ Forall (fun x => Z.of_nat (length x) = 10000) sent
    /\ (last = [] \/ exists l, last = [l] /\ 0 < Z.of_nat (length l) < 10000).
Proof.
  apply (stream_local_file_to_table_sends_batches_of_10000 losses_table [1; 2; 3]%nat
           accepting_client).
  intros n. reflexivity.
Defined.

(** The stream on the flaky service after three [insert] calls. *)
Definition after_three_inserts : BigqueryInsertStream nat :=
  snd (for_each insert [One 1; One 2; One 3]%nat (__enter__ (pairs_on flaky_client))).

Lemma insert_keeps_the_batch_below_batch_size_witness :
  exists b',
    batch after_three_inserts = Some b'
    /\ Z.of_nat (length b') < 2
    /\ total after_three_inserts + Z.of_nat (length b')
       = Z.of_nat (length (rows_in [One 1; One 2; One 3]%nat)).
Proof.
  apply (insert_keeps_the_batch_below_batch_size [One 1; One 2; One 3]%nat flaky_client
           losses_table 2 (pairs_on flaky_client) after_three_inserts).
  - reflexivity.
  - reflexivity.
Defined.

Lemma failed_flush_is_attempted_again_at_exit_witness :
  exists self',
    with_insert_stream (insert (Many [1; 2; 3]%nat)) (pairs_on failing_client)
      = (Raise (InsertErrors ["quota exceeded"]), self')
    /\ insert_rows_calls (client self') = replicate 10 [1; 2; 3]%nat
    /\ total self' = 0
    /\ batch self' = Some [1; 2; 3]%nat.
Proof.
  apply (failed_flush_is_attempted_again_at_exit (Many [1; 2; 3]%nat) failing_client
           losses_table 2 (pairs_on failing_client)).
  - intros i. discriminate.
  - reflexivity.
  - simpl. lia.
Defined.

End InsertStreamExamples.

Section NameExamples.

Import geo_types simulation_output csv_examples.

Lemma str_to_int_ignores_case_and_surrounding_space_witness :
  str_to_int (" " +:+ "ZIP" +:+ "  ") = str_to_int "zip".
Proof.
  apply (str_to_int_ignores_case_and_surrounding_space " " "  " "ZIP" "zip");
    reflexivity.
Defined.

Lemma formatted_column_name_has_no_invalid_character_witness :
  free_of INVALID_OUTPUT_COLUMN_CHARACTERS
    (format_column_name_for_output "St. Louis-County" None "_")
  /\ (free_of INVALID_OUTPUT_COLUMN_CHARACTERS "St. Louis-County" ->
      format_column_name_for_output "St. Louis-County" None "_" = "St. Louis-County")
  /\ format_column_name_for_output
       (format_column_name_for_output "St. Louis-County" None "_") None "_"
     = format_column_name_for_output "St. Louis-County" None "_".
Proof.
  apply (formatted_column_name_has_no_invalid_character "St. Louis-County" "_").
  repeat constructor.
Defined.

Definition hail_tables : BigqueryRowWriter :=
  {| bq_project_id := "simulations"; bq_storm_type := "hail";
     bq_dataset := "simulations_v2"; bq_client := None |}.

Lemma output_kinds_have_files_and_tables_of_their_own_witness :
  format_filepath hail_writer OUTPUT_LOSSES <> format_filepath hail_writer OUTPUT_NLR
  /\ format_tablename hail_tables OUTPUT_LOSSES <> format_tablename hail_tables OUTPUT_NLR.
Proof.
  apply (output_kinds_have_files_and_tables_of_their_own hail_writer hail_tables
           OUTPUT_LOSSES OUTPUT_NLR).
  vm_compute. discriminate.
Defined.

End NameExamples.

Section AggregationExamples.

Import generate_losses sampling_examples.
Local Open Scope Z_scope.

(** The locals after the sampling of one state with one property. *)
Definition after_stone : sampling unit :=
  snd (sample_states rates [[stone_property]] locals_at_start).

Lemma sampling_adds_the_same_amount_at_every_level_witness :
  exists added,
    added `sublist_of` concat [[stone_property]]
    /\ exposures after_stone = exposures locals_at_start ++ map feature_of added
    /\ in_step (exposure_dictionary locals_at_start) (exposure_dictionary after_stone)
         (limits added)
    /\ in_step (premium_dictionary locals_at_start) (premium_dictionary after_stone)
         (premiums rates added)
    /\ 100 * Z.of_nat (length added) <= premiums rates added.
Proof.
  apply (sampling_adds_the_same_amount_at_every_level rates [[stone_property]]
           locals_at_start after_stone).
  reflexivity.
Defined.

(** An exposure total one above [total_agg_limit - 15000]. *)
Definition above_threshold : sampling unit :=
  {| exposure_dictionary :=
       {| d_total := 199985001;
          d_state := d_state at_threshold;
          d_county := d_county at_threshold;
          d_zip := d_zip at_threshold |};
     premium_dictionary := zero_dict;
     exposures := [] |}.

Lemma sampling_is_over_above_the_total_ceiling_witness :
  sample_states rates [[stone_property]; [stone_property]] above_threshold
    = (Ok tt, above_threshold).
Proof.
  apply (sampling_is_over_above_the_total_ceiling rates
           [[stone_property]; [stone_property]] above_threshold).
  simpl. unfold total_agg_limit. lia.
Defined.

Lemma state_exposure_stays_within_one_limit_of_its_ceiling_witness :
  states_within (state_agg_limit - 15000 + 100000)
    (snd (sample_states rates [[stone_property]; [stone_property]] locals_at_start)).
Proof.
  apply (state_exposure_stays_within_one_limit_of_its_ceiling rates 100000
           [[stone_property]; [stone_property]] locals_at_start).
  - repeat (constructor; [simpl; try lia|]); repeat constructor.
  - repeat (constructor; [vm_compute; discriminate|]). constructor.
Defined.

(** The home of the one property, a geometry library for which every home
    lies within every storm, and the loss dictionary after one storm. *)
Definition stone_home : Feature unit := feature_of stone_property.

Definition every_home_hit : draws unit unit :=
  {| samples := [[stone_property]]; storm_limit := 0;
     storm_candidates := [Some hail];
     has_coordinates := fun _ => true;
     points_within_polygon := fun exposure_fc _ => exposure_fc |}.

Definition after_hail : geo_dict :=
  snd (for_each (tally_storm every_home_hit [stone_home]) [hail] zero_dict).

Lemma storm_tally_pays_10000_for_every_damaged_home_witness :
  in_step zero_dict after_hail
    (10000 * Z.of_nat (length (damaged_homes every_home_hit [stone_home] [hail]))).
Proof.
  apply (storm_tally_pays_10000_for_every_damaged_home every_home_hit [stone_home] [hail]
           zero_dict after_hail).
  reflexivity.
Defined.

End AggregationExamples.

Section FlatTrialExamples.

Import generate_losses simulation_output sampling_examples emission_examples.
Local Open Scope Z_scope.

(** A trial of the flat schema; a ratio is kept as the pair of its
    numerator and denominator. *)
Definition flat_trial : trial :=
  {| trial_sim_id := 7; runtime_timestamp := 1700000000;
     output_schema_version := FLAT_ROW_OUTPUT_SCHEMA_VERSION |}.

Definition ratio : Type := Z * Z.
Definition ratio_of (loss premium : Z) : ratio := (loss, premium).
Definition ratio_truthy (r : ratio) : bool := negb (fst r =? 0).

Definition ratio_locals : emitting ratio :=
  {| outputs := []; exposure_row := []; premium_row := [];
     loss_row := []; nlr_row := []; nlr_value := None |}.

Definition flat_first_block : result unit * emitting ratio :=
  write_exposures_and_premiums ratio_truthy flat_trial one_exposure one_premium
    ratio_locals.

Lemma flat_premium_row_carries_the_exposure_total_witness :
  fst flat_first_block = Ok tt
  /\ outputs (snd flat_first_block) =
       outputs ratio_locals ++
       [(OUTPUT_EXPOSURES, One (FlatRow (exposure_row (snd flat_first_block))));
        (OUTPUT_PREMIUMS, One (FlatRow (premium_row (snd flat_first_block))))]
  /\ dict_get (exposure_row (snd flat_first_block)) "total"
     = Some (Int (d_total one_exposure))
  /\ dict_get (premium_row (snd flat_first_block)) "total"
     = Some (Int (d_total one_exposure)).
Proof.
  apply (flat_premium_row_carries_the_exposure_total ratio_truthy flat_trial
           one_exposure one_premium ratio_locals).
  - reflexivity.
  - repeat split; repeat (constructor; [by eexists|]); constructor.
  - repeat (constructor; [vm_compute; discriminate|]). constructor.
Defined.

Lemma flat_schema_trial_sends_four_rows_witness :
  run_losses_attempt ratio_of ratio_truthy rates flat_trial zero_dict every_home_hit []
    = Some
        (Ok (trial_sim_id flat_trial),
         [] ++
         [(OUTPUT_EXPOSURES,
           One (FlatRow (flat_exposure_row flat_trial (exposure_dictionary after_stone))));
          (OUTPUT_PREMIUMS,
           One (FlatRow (flat_premium_row flat_trial (exposure_dictionary after_stone)
                           (premium_dictionary after_stone))));
          (OUTPUT_LOSSES, One (FlatRow (flat_loss_row flat_trial after_hail)));
          (OUTPUT_NLR,
           One (FlatRow (flat_nlr_row ratio_of flat_trial after_hail
                           (premium_dictionary after_stone))))])
  /\ (exists columns,
        dict_keys (flat_exposure_row (float := ratio) flat_trial
                     (exposure_dictionary after_stone))
        = "sim_id" :: "total" :: columns)
  /\ (exists columns,
        dict_keys (flat_loss_row (float := ratio) flat_trial after_hail)
        = "SimId" :: "total" :: columns).
Proof.
  apply (flat_schema_trial_sends_four_rows ratio_of ratio_truthy rates flat_trial
           zero_dict every_home_hit [] after_stone [hail] 1 after_hail).
  - reflexivity.
  - reflexivity.
  - reflexivity.
  - reflexivity.
Defined.

End FlatTrialExamples.

Section CsvRowExamples.

Import simulation_output csv_examples.

(** A writer that has the losses file open, the file with its header, and
    a row with a field that the file has no column for. *)
Definition losses_writer : DictWriter :=
  {| filehandle := losses_file; fieldnames := ["SimId"; "total"] |}.

Definition open_writer : LocalCsvWriter :=
  {| output_dir := "files/output"; storm_type := "hail";
     file_writers := {[ losses_file := losses_writer ]}; overwrite := true |}.

Definition losses_on_disk : filesystem := {[ losses_file := [["SimId"; "total"]] ]}.

Definition county_row : dict string := [("SimId", "8"); ("county", "Stone")].

Lemma csv_row_with_unknown_field_stops_the_write_witness :
  write_rows OUTPUT_LOSSES (Many ([losses_row] ++ county_row :: [losses_row]))
    (open_writer, losses_on_disk) =
    (Raise (ValueError "dict contains fields not in fieldnames"),
     (open_writer,
      <[format_filepath open_writer OUTPUT_LOSSES :=
          contents losses_on_disk (format_filepath open_writer OUTPUT_LOSSES)
          ++ records losses_writer [losses_row]]> losses_on_disk))
  /\ Forall (fun record => length record = length (fieldnames losses_writer))
       (records losses_writer [losses_row]).
Proof.
  apply (csv_row_with_unknown_field_stops_the_write open_writer losses_on_disk
           OUTPUT_LOSSES losses_writer [losses_row] county_row [losses_row]).
  - reflexivity.
  - reflexivity.
  - repeat constructor.
  - vm_compute. discriminate.
Defined.

End CsvRowExamples.

Section DriverExamples.

Import generate_losses driver_examples.




End DriverExamples.
